(** * Ship catalogue loader of naev (src/ship.c): shallow embedding

    The development follows [ship.c] function by function.  C [int] and
    [credits_t] values are integers ([Z]), [double] values are IEEE binary64
    numbers (the kernel's [float]), [char*] values are [option string] with
    [None] for [NULL], C arrays are lists, and the log written through the
    [WARN], [ERR] and [DEBUG] macros is an explicit list of events threaded
    through every function.  A [NULL] dereference of the C code is the
    result [None] of the function that performs it.

    The Lua bindings of the factions (src/nlua_faction.c) follow, as
    functions on an explicit Lua state. *)

From Stdlib Require Import ZArith String Ascii List Bool Lia PrimFloat.
From stdpp Require Import base list.
Import ListNotations.

#[local] Open Scope list_scope.
#[local] Open Scope Z_scope.

(** ** C strings *)

(** First byte of a C string; the terminating NUL for the empty string. *)
Definition cstr_head (s : string) : ascii :=
  match s with
  | EmptyString => Ascii.zero
  | String c _ => c
  end.

(** [strcmp] of libc: bytes are compared as [unsigned char] up to the first
    difference or the terminating NUL; the result is the difference of the
    two bytes (the C standard fixes its sign only). *)
Fixpoint strcmp (s1 s2 : string) : Z :=
  match s1, s2 with
  | String c1 r1, String c2 r2 =>
      if Ascii.eqb c1 c2
      then (if Ascii.eqb c1 Ascii.zero then 0 else strcmp r1 r2)
      else Z.of_N (N_of_ascii c1) - Z.of_N (N_of_ascii c2)
  | _, _ => Z.of_N (N_of_ascii (cstr_head s1)) - Z.of_N (N_of_ascii (cstr_head s2))
  end.

(** A string of the model is a C string when it holds no NUL byte. *)
Fixpoint cstring (s : string) : Prop :=
  match s with
  | EmptyString => True
  | String c r => c <> Ascii.zero /\ cstring r
  end.

(** [snprintf(buf, size, ...)] keeps at most [size - 1] bytes of the text. *)
Definition snprintf (size : Z) (text : string) : string :=
  substring 0 (Z.to_nat (size - 1)) text.

Definition PATH_MAX : Z := 4096.

(** ** Constants of math.h, as binary64 values *)

Definition M_PI : float := 0x1.921fb54442d18p+1%float.
Definition M_SQRT2 : float := 0x1.6a09e667f3bcdp+0%float.

(** ** The document tree (libxml2) and the nxml.h readers *)

Inductive xmlElementType : Type :=
| XML_ELEMENT_NODE
| XML_TEXT_NODE
| XML_COMMENT_NODE
| XML_OTHER_NODE.

(** A node of the parsed document: its kind, its name, its attributes in
    document order, its text content (text and comment nodes) and its
    children in document order ([children], then [next] in libxml2). *)
#[warnings="-register-all"]
Inductive xmlNode : Type :=
| XmlNode (type : xmlElementType) (name : string)
          (properties : list (string * string))
          (content : option string) (children : list xmlNode).

Definition xml_type (n : xmlNode) : xmlElementType :=
  match n with XmlNode t _ _ _ _ => t end.
Definition xml_name (n : xmlNode) : string :=
  match n with XmlNode _ s _ _ _ => s end.
Definition xml_properties (n : xmlNode) : list (string * string) :=
  match n with XmlNode _ _ p _ _ => p end.
Definition xml_content (n : xmlNode) : option string :=
  match n with XmlNode _ _ _ c _ => c end.
Definition xml_children (n : xmlNode) : list xmlNode :=
  match n with XmlNode _ _ _ _ l => l end.

(** A parsed document: its top-level nodes ([doc->xmlChildrenNode] is the
    first of them). *)
Definition xmlDoc : Type := list xmlNode.

(** [n->type == XML_NODE_START]: the node is an element. *)
Definition xml_isStart (n : xmlNode) : bool :=
  match xml_type n with
  | XML_ELEMENT_NODE => true
  | _ => false
  end.

(** Modelled from the spec: nxml.h is not part of the source; the readers
    below are the macros ship.c uses.  [xml_isNode(n,s)] holds for an
    element node named [s]. *)
Definition xml_isNode (n : xmlNode) (s : string) : bool :=
  xml_isStart n && (strcmp (xml_name n) s =? 0).

(** [xmlGetProp]: the value of the first attribute called [s]. *)
Fixpoint xmlGetProp (props : list (string * string)) (s : string) : option string :=
  match props with
  | [] => None
  | (k, v) :: rest => if strcmp k s =? 0 then Some v else xmlGetProp rest s
  end.

(** [xmlr_attr(n,s,a)] is [a = xml_nodeProp(n,s)]: [NULL] when the
    attribute is absent. *)
Definition xml_nodeProp (n : xmlNode) (s : string) : option string :=
  xmlGetProp (xml_properties n) s.

(** [xml_get(n)]: the content of the first child, [NULL] without child. *)
Definition xml_get (n : xmlNode) : option string :=
  match xml_children n with
  | [] => None
  | c :: _ => xml_content c
  end.

(** [xml_getStrd(n)]: a copy of the text, [NULL] when there is none. *)
Definition xml_getStrd (n : xmlNode) : option string := xml_get n.

(** ** Enumerations *)

(** The ship classes, in the order in which [ship_class] lists them. *)
Inductive ShipClass : Type :=
| SHIP_CLASS_NULL
| SHIP_CLASS_YACHT
| SHIP_CLASS_LUXURY_YACHT
| SHIP_CLASS_CRUISE_SHIP
| SHIP_CLASS_COURIER
| SHIP_CLASS_ARMOURED_TRANSPORT
| SHIP_CLASS_FREIGHTER
| SHIP_CLASS_BULK_CARRIER
| SHIP_CLASS_SCOUT
| SHIP_CLASS_FIGHTER
| SHIP_CLASS_BOMBER
| SHIP_CLASS_CORVETTE
| SHIP_CLASS_DESTROYER
| SHIP_CLASS_CRUISER
| SHIP_CLASS_CARRIER
| SHIP_CLASS_DRONE
| SHIP_CLASS_HEAVY_DRONE
| SHIP_CLASS_MOTHERSHIP.

(** Modelled from the spec: the enum declaration (ship.h) is not part of
    the source.  The value of a class is its position in the declaration,
    taken in the order of the switch of [ship_class], with the null
    sentinel at 0 (the value [memset] leaves in a cleared ship). *)
Definition ShipClass_value (c : ShipClass) : Z :=
  match c with
  | SHIP_CLASS_NULL => 0
  | SHIP_CLASS_YACHT => 1
  | SHIP_CLASS_LUXURY_YACHT => 2
  | SHIP_CLASS_CRUISE_SHIP => 3
  | SHIP_CLASS_COURIER => 4
  | SHIP_CLASS_ARMOURED_TRANSPORT => 5
  | SHIP_CLASS_FREIGHTER => 6
  | SHIP_CLASS_BULK_CARRIER => 7
  | SHIP_CLASS_SCOUT => 8
  | SHIP_CLASS_FIGHTER => 9
  | SHIP_CLASS_BOMBER => 10
  | SHIP_CLASS_CORVETTE => 11
  | SHIP_CLASS_DESTROYER => 12
  | SHIP_CLASS_CRUISER => 13
  | SHIP_CLASS_CARRIER => 14
  | SHIP_CLASS_DRONE => 15
  | SHIP_CLASS_HEAVY_DRONE => 16
  | SHIP_CLASS_MOTHERSHIP => 17
  end.

Definition ShipClass_eqb (a b : ShipClass) : bool :=
  ShipClass_value a =? ShipClass_value b.

(** Slot sizes and slot types of outfit.h; the first constructor of each is
    the value of a cleared ([calloc]) slot. *)
Inductive OutfitSlotSize : Type :=
| OUTFIT_SLOT_SIZE_NA
| OUTFIT_SLOT_SIZE_LIGHT
| OUTFIT_SLOT_SIZE_MEDIUM
| OUTFIT_SLOT_SIZE_HEAVY.

Inductive OutfitSlotType : Type :=
| OUTFIT_SLOT_NULL
| OUTFIT_SLOT_NA
| OUTFIT_SLOT_STRUCTURE
| OUTFIT_SLOT_UTILITY
| OUTFIT_SLOT_WEAPON.

Definition credits_t : Type := Z.

(** ** The log *)

Inductive fmt_arg : Type :=
| ArgS (s : option string)   (* a %s argument; NULL prints as (null) *)
| ArgD (d : Z).              (* a %d argument *)

(** ** The growable array of array.h *)

(** Modelled from the spec: array.h is not part of the source.  The spec
    says of the store that it is growable, that entries are appended to it
    and that it is shrunk to exact size when the load is done.  The
    capacity kept beside the entries is [array_reserved]; how it grows (it
    doubles here, from 1) is a choice no theorem below depends on. *)
Record array (T : Type) : Type := mkArray {
  array_elems : list T;
  array_reserved : Z
}.
Arguments mkArray {T} _ _.
Arguments array_elems {T} _.
Arguments array_reserved {T} _.

Definition array_create {T : Type} : array T := mkArray [] 1.

Definition array_size {T : Type} (a : array T) : Z :=
  Z.of_nat (length (array_elems a)).

(** [array_grow(&a)] makes room for one more entry and gives its place;
    the caller fills it, here with [x]. *)
Definition array_grow {T : Type} (a : array T) (x : T) : array T :=
  mkArray (array_elems a ++ [x])
    (if array_size a <? array_reserved a then array_reserved a
     else 2 * array_reserved a).

Definition array_shrink {T : Type} (a : array T) : array T :=
  mkArray (array_elems a) (array_size a).

(** ** Collaborators

    Everything ship.c calls and does not define: libc's number readers, the
    outfit catalogue, the sound and graphics subsystems and the ship-stat
    registry.  They are parameters of the whole development. *)
Class Collaborators : Type := {
  Outfit : Type;
  glTexture : Type;
  SDL_Surface : Type;
  ShipStatList : Type;      (* one node of the stat list *)
  ShipStats : Type;         (* the compiled, dense stat array *)
  (* libc *)
  atoi : string -> Z;
  atol : string -> Z;
  atof : string -> float;
  (* outfit.c *)
  outfit_toSlotSize : string -> OutfitSlotSize;
  outfit_get : string -> option Outfit;
  (* sound.c *)
  sound_get : option string -> Z;
  (* shipstats.c *)
  ss_statsInit : ShipStats;
  ss_listFromXML : xmlNode -> option ShipStatList;
  ss_statsModFromList : ShipStats -> list ShipStatList -> ShipStats;
  ss_statsListDesc : list ShipStatList -> Z -> Z -> Z * string;
  (* conf *)
  conf_engineglow : bool;
  conf_interpolate : bool;
  (* npng, SDL and opengl *)
  gl_needPOT : bool;
  npng_dim : string -> Z * Z;
  npng_readSurface : string -> bool -> SDL_Surface;
  gl_loadImagePad :
    string -> SDL_Surface -> Z -> Z -> Z -> Z -> Z -> glTexture;
  gl_newSprite : string -> Z -> Z -> Z -> option glTexture;
  tex_w : glTexture -> float;
  tex_h : glTexture -> float;
  tex_sx : glTexture -> float;
  tex_sy : glTexture -> float;
  (* the conversions between int and double the compiler emits *)
  int_of_double : float -> Z;
  double_of_int : Z -> float;
  (* the two surfaces ship_genTargetGFX blits into: target and store;
     None when SDL could not create the target surface *)
  SDL_targetSurfaces :
    SDL_Surface -> glTexture -> Z -> Z -> option (SDL_Surface * SDL_Surface)
}.

Section ShipLoader.

Context {world : Collaborators}.

(** What the C code makes observable besides its results: the log lines,
    and the calls into the ship-stat registry that compile and render a
    stat list. *)
Inductive event : Type :=
| WARN (fmt : string) (args : list fmt_arg)
| ERR (fmt : string) (args : list fmt_arg)
| DEBUG (fmt : string) (args : list fmt_arg)
| CALL_ss_statsModFromList (l : list ShipStatList)
| CALL_ss_statsListDesc (l : list ShipStatList) (len : Z).

(** Computations that write to the log: the result and the events, oldest
    first. *)
Definition W (A : Type) : Type := (A * list event)%type.

Definition ret {A : Type} (a : A) : W A := (a, []).

Definition bind {A B : Type} (m : W A) (k : A -> W B) : W B :=
  let (a, l1) := m in
  let (b, l2) := k a in
  (b, l1 ++ l2).

Definition tell (e : event) : W unit := (tt, [e]).

Notation "'let*' x ':=' m 'in' k" := (bind m (fun x => k))
  (at level 10, x name, m at level 100, k at level 200).
Notation "'let*' ' p ':=' m 'in' k" := (bind m (fun x => let 'p := x in k))
  (at level 10, p pattern, m at level 100, k at level 200).
Notation "m ';;' k" := (bind m (fun _ => k))
  (at level 100, k at level 200, right associativity).

(** A [do { body } while (xml_nextNode(node))] loop over the children of a
    node: the body runs once per child, in document order (for a node
    without child the body runs once on [NULL], where every body below
    leaves at its [xml_onlyNodes]). *)
Fixpoint xml_foreach {S : Type} (body : S -> xmlNode -> W S)
    (nodes : list xmlNode) (s : S) : W S :=
  match nodes with
  | [] => ret s
  | n :: rest => let* s' := body s n in xml_foreach body rest s'
  end.

(** [xml_getInt], [xml_getLong], [xml_getFloat]: 0 without text. *)
Definition xml_getInt (n : xmlNode) : Z :=
  match xml_get n with None => 0 | Some t => atoi t end.
Definition xml_getLong (n : xmlNode) : Z :=
  match xml_get n with None => 0 | Some t => atol t end.
Definition xml_getFloat (n : xmlNode) : float :=
  match xml_get n with None => 0%float | Some t => atof t end.

(** ** Data model (ship.h, outfit.h) *)

Record OutfitSlot : Type := mkOutfitSlot {
  property : option string;
  exclusive : Z;
  slot_type : OutfitSlotType;   (* field [type] *)
  size : OutfitSlotSize
}.

Record ShipMount : Type := mkShipMount {
  mount_x : float;              (* field [x] *)
  mount_y : float;              (* field [y] *)
  mount_h : float               (* field [h] *)
}.

Record ShipOutfitSlot : Type := mkShipOutfitSlot {
  slot : OutfitSlot;
  required : Z;
  mount : ShipMount;
  data : option Outfit
}.

(** A slot as [calloc] returns it. *)
Definition ShipOutfitSlot_zero : ShipOutfitSlot :=
  {| slot := {| property := None; exclusive := 0;
                slot_type := OUTFIT_SLOT_NULL; size := OUTFIT_SLOT_SIZE_NA |};
     required := 0;
     mount := {| mount_x := 0%float; mount_y := 0%float; mount_h := 0%float |};
     data := None |}.

Record Ship : Type := mkShip {
  name : option string;
  base_type : option string;
  class : ShipClass;
  price : credits_t;
  license : option string;
  fabricator : option string;
  description : option string;
  thrust : float;
  turn : float;
  speed : float;
  gfx_space : option glTexture;
  gfx_engine : option glTexture;
  gfx_target : option glTexture;
  gfx_store : option glTexture;
  gfx_comm : option string;
  gui : option string;
  sound : Z;
  armour : float;
  armour_regen : float;
  shield : float;
  shield_regen : float;
  energy : float;
  energy_regen : float;
  dmg_absorb : float;
  crew : Z;
  mass : float;
  cpu : float;
  fuel : Z;
  cap_cargo : float;
  mangle : float;
  outfit_structure : list ShipOutfitSlot;
  outfit_nstructure : Z;
  outfit_utility : list ShipOutfitSlot;
  outfit_nutility : Z;
  outfit_weapon : list ShipOutfitSlot;
  outfit_nweapon : Z;
  stats : list ShipStatList;
  stats_array : ShipStats;
  desc_stats : option string
}.

(** Field assignments [temp->f = v]. *)
Definition set_name (v : option string) (s : Ship) : Ship :=
  mkShip v (base_type s) (class s) (price s) (license s) (fabricator s)
    (description s) (thrust s) (turn s) (speed s) (gfx_space s) (gfx_engine s)
    (gfx_target s) (gfx_store s) (gfx_comm s) (gui s) (sound s) (armour s)
    (armour_regen s) (shield s) (shield_regen s) (energy s) (energy_regen s)
    (dmg_absorb s) (crew s) (mass s) (cpu s) (fuel s) (cap_cargo s) (mangle s)
    (outfit_structure s) (outfit_nstructure s) (outfit_utility s)
    (outfit_nutility s) (outfit_weapon s) (outfit_nweapon s) (stats s)
    (stats_array s) (desc_stats s).
Definition set_base_type (v : option string) (s : Ship) : Ship :=
  mkShip (name s) v (class s) (price s) (license s) (fabricator s)
    (description s) (thrust s) (turn s) (speed s) (gfx_space s) (gfx_engine s)
    (gfx_target s) (gfx_store s) (gfx_comm s) (gui s) (sound s) (armour s)
    (armour_regen s) (shield s) (shield_regen s) (energy s) (energy_regen s)
    (dmg_absorb s) (crew s) (mass s) (cpu s) (fuel s) (cap_cargo s) (mangle s)
    (outfit_structure s) (outfit_nstructure s) (outfit_utility s)
    (outfit_nutility s) (outfit_weapon s) (outfit_nweapon s) (stats s)
    (stats_array s) (desc_stats s).
Definition set_class (v : ShipClass) (s : Ship) : Ship :=
  mkShip (name s) (base_type s) v (price s) (license s) (fabricator s)
    (description s) (thrust s) (turn s) (speed s) (gfx_space s) (gfx_engine s)
    (gfx_target s) (gfx_store s) (gfx_comm s) (gui s) (sound s) (armour s)
    (armour_regen s) (shield s) (shield_regen s) (energy s) (energy_regen s)
    (dmg_absorb s) (crew s) (mass s) (cpu s) (fuel s) (cap_cargo s) (mangle s)
    (outfit_structure s) (outfit_nstructure s) (outfit_utility s)
    (outfit_nutility s) (outfit_weapon s) (outfit_nweapon s) (stats s)
    (stats_array s) (desc_stats s).
Definition set_price (v : credits_t) (s : Ship) : Ship :=
  mkShip (name s) (base_type s) (class s) v (license s) (fabricator s)
    (description s) (thrust s) (turn s) (speed s) (gfx_space s) (gfx_engine s)
    (gfx_target s) (gfx_store s) (gfx_comm s) (gui s) (sound s) (armour s)
    (armour_regen s) (shield s) (shield_regen s) (energy s) (energy_regen s)
    (dmg_absorb s) (crew s) (mass s) (cpu s) (fuel s) (cap_cargo s) (mangle s)
    (outfit_structure s) (outfit_nstructure s) (outfit_utility s)
    (outfit_nutility s) (outfit_weapon s) (outfit_nweapon s) (stats s)
    (stats_array s) (desc_stats s).
Definition set_license (v : option string) (s : Ship) : Ship :=
  mkShip (name s) (base_type s) (class s) (price s) v (fabricator s)
    (description s) (thrust s) (turn s) (speed s) (gfx_space s) (gfx_engine s)
    (gfx_target s) (gfx_store s) (gfx_comm s) (gui s) (sound s) (armour s)
    (armour_regen s) (shield s) (shield_regen s) (energy s) (energy_regen s)
    (dmg_absorb s) (crew s) (mass s) (cpu s) (fuel s) (cap_cargo s) (mangle s)
    (outfit_structure s) (outfit_nstructure s) (outfit_utility s)
    (outfit_nutility s) (outfit_weapon s) (outfit_nweapon s) (stats s)
    (stats_array s) (desc_stats s).
Definition set_fabricator (v : option string) (s : Ship) : Ship :=
  mkShip (name s) (base_type s) (class s) (price s) (license s) v (description
    s) (thrust s) (turn s) (speed s) (gfx_space s) (gfx_engine s) (gfx_target s)
    (gfx_store s) (gfx_comm s) (gui s) (sound s) (armour s) (armour_regen s)
    (shield s) (shield_regen s) (energy s) (energy_regen s) (dmg_absorb s) (crew
    s) (mass s) (cpu s) (fuel s) (cap_cargo s) (mangle s) (outfit_structure s)
    (outfit_nstructure s) (outfit_utility s) (outfit_nutility s) (outfit_weapon
    s) (outfit_nweapon s) (stats s) (stats_array s) (desc_stats s).
Definition set_description (v : option string) (s : Ship) : Ship :=
  mkShip (name s) (base_type s) (class s) (price s) (license s) (fabricator s)
    v (thrust s) (turn s) (speed s) (gfx_space s) (gfx_engine s) (gfx_target s)
    (gfx_store s) (gfx_comm s) (gui s) (sound s) (armour s) (armour_regen s)
    (shield s) (shield_regen s) (energy s) (energy_regen s) (dmg_absorb s) (crew
    s) (mass s) (cpu s) (fuel s) (cap_cargo s) (mangle s) (outfit_structure s)
    (outfit_nstructure s) (outfit_utility s) (outfit_nutility s) (outfit_weapon
    s) (outfit_nweapon s) (stats s) (stats_array s) (desc_stats s).
Definition set_thrust (v : float) (s : Ship) : Ship :=
  mkShip (name s) (base_type s) (class s) (price s) (license s) (fabricator s)
    (description s) v (turn s) (speed s) (gfx_space s) (gfx_engine s)
    (gfx_target s) (gfx_store s) (gfx_comm s) (gui s) (sound s) (armour s)
    (armour_regen s) (shield s) (shield_regen s) (energy s) (energy_regen s)
    (dmg_absorb s) (crew s) (mass s) (cpu s) (fuel s) (cap_cargo s) (mangle s)
    (outfit_structure s) (outfit_nstructure s) (outfit_utility s)
    (outfit_nutility s) (outfit_weapon s) (outfit_nweapon s) (stats s)
    (stats_array s) (desc_stats s).
Definition set_turn (v : float) (s : Ship) : Ship :=
  mkShip (name s) (base_type s) (class s) (price s) (license s) (fabricator s)
    (description s) (thrust s) v (speed s) (gfx_space s) (gfx_engine s)
    (gfx_target s) (gfx_store s) (gfx_comm s) (gui s) (sound s) (armour s)
    (armour_regen s) (shield s) (shield_regen s) (energy s) (energy_regen s)
    (dmg_absorb s) (crew s) (mass s) (cpu s) (fuel s) (cap_cargo s) (mangle s)
    (outfit_structure s) (outfit_nstructure s) (outfit_utility s)
    (outfit_nutility s) (outfit_weapon s) (outfit_nweapon s) (stats s)
    (stats_array s) (desc_stats s).
Definition set_speed (v : float) (s : Ship) : Ship :=
  mkShip (name s) (base_type s) (class s) (price s) (license s) (fabricator s)
    (description s) (thrust s) (turn s) v (gfx_space s) (gfx_engine s)
    (gfx_target s) (gfx_store s) (gfx_comm s) (gui s) (sound s) (armour s)
    (armour_regen s) (shield s) (shield_regen s) (energy s) (energy_regen s)
    (dmg_absorb s) (crew s) (mass s) (cpu s) (fuel s) (cap_cargo s) (mangle s)
    (outfit_structure s) (outfit_nstructure s) (outfit_utility s)
    (outfit_nutility s) (outfit_weapon s) (outfit_nweapon s) (stats s)
    (stats_array s) (desc_stats s).
Definition set_gfx_space (v : option glTexture) (s : Ship) : Ship :=
  mkShip (name s) (base_type s) (class s) (price s) (license s) (fabricator s)
    (description s) (thrust s) (turn s) (speed s) v (gfx_engine s) (gfx_target
    s) (gfx_store s) (gfx_comm s) (gui s) (sound s) (armour s) (armour_regen s)
    (shield s) (shield_regen s) (energy s) (energy_regen s) (dmg_absorb s) (crew
    s) (mass s) (cpu s) (fuel s) (cap_cargo s) (mangle s) (outfit_structure s)
    (outfit_nstructure s) (outfit_utility s) (outfit_nutility s) (outfit_weapon
    s) (outfit_nweapon s) (stats s) (stats_array s) (desc_stats s).
Definition set_gfx_engine (v : option glTexture) (s : Ship) : Ship :=
  mkShip (name s) (base_type s) (class s) (price s) (license s) (fabricator s)
    (description s) (thrust s) (turn s) (speed s) (gfx_space s) v (gfx_target s)
    (gfx_store s) (gfx_comm s) (gui s) (sound s) (armour s) (armour_regen s)
    (shield s) (shield_regen s) (energy s) (energy_regen s) (dmg_absorb s) (crew
    s) (mass s) (cpu s) (fuel s) (cap_cargo s) (mangle s) (outfit_structure s)
    (outfit_nstructure s) (outfit_utility s) (outfit_nutility s) (outfit_weapon
    s) (outfit_nweapon s) (stats s) (stats_array s) (desc_stats s).
Definition set_gfx_target (v : option glTexture) (s : Ship) : Ship :=
  mkShip (name s) (base_type s) (class s) (price s) (license s) (fabricator s)
    (description s) (thrust s) (turn s) (speed s) (gfx_space s) (gfx_engine s) v
    (gfx_store s) (gfx_comm s) (gui s) (sound s) (armour s) (armour_regen s)
    (shield s) (shield_regen s) (energy s) (energy_regen s) (dmg_absorb s) (crew
    s) (mass s) (cpu s) (fuel s) (cap_cargo s) (mangle s) (outfit_structure s)
    (outfit_nstructure s) (outfit_utility s) (outfit_nutility s) (outfit_weapon
    s) (outfit_nweapon s) (stats s) (stats_array s) (desc_stats s).
Definition set_gfx_store (v : option glTexture) (s : Ship) : Ship :=
  mkShip (name s) (base_type s) (class s) (price s) (license s) (fabricator s)
    (description s) (thrust s) (turn s) (speed s) (gfx_space s) (gfx_engine s)
    (gfx_target s) v (gfx_comm s) (gui s) (sound s) (armour s) (armour_regen s)
    (shield s) (shield_regen s) (energy s) (energy_regen s) (dmg_absorb s) (crew
    s) (mass s) (cpu s) (fuel s) (cap_cargo s) (mangle s) (outfit_structure s)
    (outfit_nstructure s) (outfit_utility s) (outfit_nutility s) (outfit_weapon
    s) (outfit_nweapon s) (stats s) (stats_array s) (desc_stats s).
Definition set_gfx_comm (v : option string) (s : Ship) : Ship :=
  mkShip (name s) (base_type s) (class s) (price s) (license s) (fabricator s)
    (description s) (thrust s) (turn s) (speed s) (gfx_space s) (gfx_engine s)
    (gfx_target s) (gfx_store s) v (gui s) (sound s) (armour s) (armour_regen s)
    (shield s) (shield_regen s) (energy s) (energy_regen s) (dmg_absorb s) (crew
    s) (mass s) (cpu s) (fuel s) (cap_cargo s) (mangle s) (outfit_structure s)
    (outfit_nstructure s) (outfit_utility s) (outfit_nutility s) (outfit_weapon
    s) (outfit_nweapon s) (stats s) (stats_array s) (desc_stats s).
Definition set_gui (v : option string) (s : Ship) : Ship :=
  mkShip (name s) (base_type s) (class s) (price s) (license s) (fabricator s)
    (description s) (thrust s) (turn s) (speed s) (gfx_space s) (gfx_engine s)
    (gfx_target s) (gfx_store s) (gfx_comm s) v (sound s) (armour s)
    (armour_regen s) (shield s) (shield_regen s) (energy s) (energy_regen s)
    (dmg_absorb s) (crew s) (mass s) (cpu s) (fuel s) (cap_cargo s) (mangle s)
    (outfit_structure s) (outfit_nstructure s) (outfit_utility s)
    (outfit_nutility s) (outfit_weapon s) (outfit_nweapon s) (stats s)
    (stats_array s) (desc_stats s).
Definition set_sound (v : Z) (s : Ship) : Ship :=
  mkShip (name s) (base_type s) (class s) (price s) (license s) (fabricator s)
    (description s) (thrust s) (turn s) (speed s) (gfx_space s) (gfx_engine s)
    (gfx_target s) (gfx_store s) (gfx_comm s) (gui s) v (armour s) (armour_regen
    s) (shield s) (shield_regen s) (energy s) (energy_regen s) (dmg_absorb s)
    (crew s) (mass s) (cpu s) (fuel s) (cap_cargo s) (mangle s)
    (outfit_structure s) (outfit_nstructure s) (outfit_utility s)
    (outfit_nutility s) (outfit_weapon s) (outfit_nweapon s) (stats s)
    (stats_array s) (desc_stats s).
Definition set_armour (v : float) (s : Ship) : Ship :=
  mkShip (name s) (base_type s) (class s) (price s) (license s) (fabricator s)
    (description s) (thrust s) (turn s) (speed s) (gfx_space s) (gfx_engine s)
    (gfx_target s) (gfx_store s) (gfx_comm s) (gui s) (sound s) v (armour_regen
    s) (shield s) (shield_regen s) (energy s) (energy_regen s) (dmg_absorb s)
    (crew s) (mass s) (cpu s) (fuel s) (cap_cargo s) (mangle s)
    (outfit_structure s) (outfit_nstructure s) (outfit_utility s)
    (outfit_nutility s) (outfit_weapon s) (outfit_nweapon s) (stats s)
    (stats_array s) (desc_stats s).
Definition set_armour_regen (v : float) (s : Ship) : Ship :=
  mkShip (name s) (base_type s) (class s) (price s) (license s) (fabricator s)
    (description s) (thrust s) (turn s) (speed s) (gfx_space s) (gfx_engine s)
    (gfx_target s) (gfx_store s) (gfx_comm s) (gui s) (sound s) (armour s) v
    (shield s) (shield_regen s) (energy s) (energy_regen s) (dmg_absorb s) (crew
    s) (mass s) (cpu s) (fuel s) (cap_cargo s) (mangle s) (outfit_structure s)
    (outfit_nstructure s) (outfit_utility s) (outfit_nutility s) (outfit_weapon
    s) (outfit_nweapon s) (stats s) (stats_array s) (desc_stats s).
Definition set_shield (v : float) (s : Ship) : Ship :=
  mkShip (name s) (base_type s) (class s) (price s) (license s) (fabricator s)
    (description s) (thrust s) (turn s) (speed s) (gfx_space s) (gfx_engine s)
    (gfx_target s) (gfx_store s) (gfx_comm s) (gui s) (sound s) (armour s)
    (armour_regen s) v (shield_regen s) (energy s) (energy_regen s) (dmg_absorb
    s) (crew s) (mass s) (cpu s) (fuel s) (cap_cargo s) (mangle s)
    (outfit_structure s) (outfit_nstructure s) (outfit_utility s)
    (outfit_nutility s) (outfit_weapon s) (outfit_nweapon s) (stats s)
    (stats_array s) (desc_stats s).
Definition set_shield_regen (v : float) (s : Ship) : Ship :=
  mkShip (name s) (base_type s) (class s) (price s) (license s) (fabricator s)
    (description s) (thrust s) (turn s) (speed s) (gfx_space s) (gfx_engine s)
    (gfx_target s) (gfx_store s) (gfx_comm s) (gui s) (sound s) (armour s)
    (armour_regen s) (shield s) v (energy s) (energy_regen s) (dmg_absorb s)
    (crew s) (mass s) (cpu s) (fuel s) (cap_cargo s) (mangle s)
    (outfit_structure s) (outfit_nstructure s) (outfit_utility s)
    (outfit_nutility s) (outfit_weapon s) (outfit_nweapon s) (stats s)
    (stats_array s) (desc_stats s).
Definition set_energy (v : float) (s : Ship) : Ship :=
  mkShip (name s) (base_type s) (class s) (price s) (license s) (fabricator s)
    (description s) (thrust s) (turn s) (speed s) (gfx_space s) (gfx_engine s)
    (gfx_target s) (gfx_store s) (gfx_comm s) (gui s) (sound s) (armour s)
    (armour_regen s) (shield s) (shield_regen s) v (energy_regen s) (dmg_absorb
    s) (crew s) (mass s) (cpu s) (fuel s) (cap_cargo s) (mangle s)
    (outfit_structure s) (outfit_nstructure s) (outfit_utility s)
    (outfit_nutility s) (outfit_weapon s) (outfit_nweapon s) (stats s)
    (stats_array s) (desc_stats s).
Definition set_energy_regen (v : float) (s : Ship) : Ship :=
  mkShip (name s) (base_type s) (class s) (price s) (license s) (fabricator s)
    (description s) (thrust s) (turn s) (speed s) (gfx_space s) (gfx_engine s)
    (gfx_target s) (gfx_store s) (gfx_comm s) (gui s) (sound s) (armour s)
    (armour_regen s) (shield s) (shield_regen s) (energy s) v (dmg_absorb s)
    (crew s) (mass s) (cpu s) (fuel s) (cap_cargo s) (mangle s)
    (outfit_structure s) (outfit_nstructure s) (outfit_utility s)
    (outfit_nutility s) (outfit_weapon s) (outfit_nweapon s) (stats s)
    (stats_array s) (desc_stats s).
Definition set_dmg_absorb (v : float) (s : Ship) : Ship :=
  mkShip (name s) (base_type s) (class s) (price s) (license s) (fabricator s)
    (description s) (thrust s) (turn s) (speed s) (gfx_space s) (gfx_engine s)
    (gfx_target s) (gfx_store s) (gfx_comm s) (gui s) (sound s) (armour s)
    (armour_regen s) (shield s) (shield_regen s) (energy s) (energy_regen s) v
    (crew s) (mass s) (cpu s) (fuel s) (cap_cargo s) (mangle s)
    (outfit_structure s) (outfit_nstructure s) (outfit_utility s)
    (outfit_nutility s) (outfit_weapon s) (outfit_nweapon s) (stats s)
    (stats_array s) (desc_stats s).
Definition set_crew (v : Z) (s : Ship) : Ship :=
  mkShip (name s) (base_type s) (class s) (price s) (license s) (fabricator s)
    (description s) (thrust s) (turn s) (speed s) (gfx_space s) (gfx_engine s)
    (gfx_target s) (gfx_store s) (gfx_comm s) (gui s) (sound s) (armour s)
    (armour_regen s) (shield s) (shield_regen s) (energy s) (energy_regen s)
    (dmg_absorb s) v (mass s) (cpu s) (fuel s) (cap_cargo s) (mangle s)
    (outfit_structure s) (outfit_nstructure s) (outfit_utility s)
    (outfit_nutility s) (outfit_weapon s) (outfit_nweapon s) (stats s)
    (stats_array s) (desc_stats s).
Definition set_mass (v : float) (s : Ship) : Ship :=
  mkShip (name s) (base_type s) (class s) (price s) (license s) (fabricator s)
    (description s) (thrust s) (turn s) (speed s) (gfx_space s) (gfx_engine s)
    (gfx_target s) (gfx_store s) (gfx_comm s) (gui s) (sound s) (armour s)
    (armour_regen s) (shield s) (shield_regen s) (energy s) (energy_regen s)
    (dmg_absorb s) (crew s) v (cpu s) (fuel s) (cap_cargo s) (mangle s)
    (outfit_structure s) (outfit_nstructure s) (outfit_utility s)
    (outfit_nutility s) (outfit_weapon s) (outfit_nweapon s) (stats s)
    (stats_array s) (desc_stats s).
Definition set_cpu (v : float) (s : Ship) : Ship :=
  mkShip (name s) (base_type s) (class s) (price s) (license s) (fabricator s)
    (description s) (thrust s) (turn s) (speed s) (gfx_space s) (gfx_engine s)
    (gfx_target s) (gfx_store s) (gfx_comm s) (gui s) (sound s) (armour s)
    (armour_regen s) (shield s) (shield_regen s) (energy s) (energy_regen s)
    (dmg_absorb s) (crew s) (mass s) v (fuel s) (cap_cargo s) (mangle s)
    (outfit_structure s) (outfit_nstructure s) (outfit_utility s)
    (outfit_nutility s) (outfit_weapon s) (outfit_nweapon s) (stats s)
    (stats_array s) (desc_stats s).
Definition set_fuel (v : Z) (s : Ship) : Ship :=
  mkShip (name s) (base_type s) (class s) (price s) (license s) (fabricator s)
    (description s) (thrust s) (turn s) (speed s) (gfx_space s) (gfx_engine s)
    (gfx_target s) (gfx_store s) (gfx_comm s) (gui s) (sound s) (armour s)
    (armour_regen s) (shield s) (shield_regen s) (energy s) (energy_regen s)
    (dmg_absorb s) (crew s) (mass s) (cpu s) v (cap_cargo s) (mangle s)
    (outfit_structure s) (outfit_nstructure s) (outfit_utility s)
    (outfit_nutility s) (outfit_weapon s) (outfit_nweapon s) (stats s)
    (stats_array s) (desc_stats s).
Definition set_cap_cargo (v : float) (s : Ship) : Ship :=
  mkShip (name s) (base_type s) (class s) (price s) (license s) (fabricator s)
    (description s) (thrust s) (turn s) (speed s) (gfx_space s) (gfx_engine s)
    (gfx_target s) (gfx_store s) (gfx_comm s) (gui s) (sound s) (armour s)
    (armour_regen s) (shield s) (shield_regen s) (energy s) (energy_regen s)
    (dmg_absorb s) (crew s) (mass s) (cpu s) (fuel s) v (mangle s)
    (outfit_structure s) (outfit_nstructure s) (outfit_utility s)
    (outfit_nutility s) (outfit_weapon s) (outfit_nweapon s) (stats s)
    (stats_array s) (desc_stats s).
Definition set_mangle (v : float) (s : Ship) : Ship :=
  mkShip (name s) (base_type s) (class s) (price s) (license s) (fabricator s)
    (description s) (thrust s) (turn s) (speed s) (gfx_space s) (gfx_engine s)
    (gfx_target s) (gfx_store s) (gfx_comm s) (gui s) (sound s) (armour s)
    (armour_regen s) (shield s) (shield_regen s) (energy s) (energy_regen s)
    (dmg_absorb s) (crew s) (mass s) (cpu s) (fuel s) (cap_cargo s) v
    (outfit_structure s) (outfit_nstructure s) (outfit_utility s)
    (outfit_nutility s) (outfit_weapon s) (outfit_nweapon s) (stats s)
    (stats_array s) (desc_stats s).
Definition set_outfit_structure (v : list ShipOutfitSlot) (s : Ship) : Ship :=
  mkShip (name s) (base_type s) (class s) (price s) (license s) (fabricator s)
    (description s) (thrust s) (turn s) (speed s) (gfx_space s) (gfx_engine s)
    (gfx_target s) (gfx_store s) (gfx_comm s) (gui s) (sound s) (armour s)
    (armour_regen s) (shield s) (shield_regen s) (energy s) (energy_regen s)
    (dmg_absorb s) (crew s) (mass s) (cpu s) (fuel s) (cap_cargo s) (mangle s) v
    (outfit_nstructure s) (outfit_utility s) (outfit_nutility s) (outfit_weapon
    s) (outfit_nweapon s) (stats s) (stats_array s) (desc_stats s).
Definition set_outfit_nstructure (v : Z) (s : Ship) : Ship :=
  mkShip (name s) (base_type s) (class s) (price s) (license s) (fabricator s)
    (description s) (thrust s) (turn s) (speed s) (gfx_space s) (gfx_engine s)
    (gfx_target s) (gfx_store s) (gfx_comm s) (gui s) (sound s) (armour s)
    (armour_regen s) (shield s) (shield_regen s) (energy s) (energy_regen s)
    (dmg_absorb s) (crew s) (mass s) (cpu s) (fuel s) (cap_cargo s) (mangle s)
    (outfit_structure s) v (outfit_utility s) (outfit_nutility s) (outfit_weapon
    s) (outfit_nweapon s) (stats s) (stats_array s) (desc_stats s).
Definition set_outfit_utility (v : list ShipOutfitSlot) (s : Ship) : Ship :=
  mkShip (name s) (base_type s) (class s) (price s) (license s) (fabricator s)
    (description s) (thrust s) (turn s) (speed s) (gfx_space s) (gfx_engine s)
    (gfx_target s) (gfx_store s) (gfx_comm s) (gui s) (sound s) (armour s)
    (armour_regen s) (shield s) (shield_regen s) (energy s) (energy_regen s)
    (dmg_absorb s) (crew s) (mass s) (cpu s) (fuel s) (cap_cargo s) (mangle s)
    (outfit_structure s) (outfit_nstructure s) v (outfit_nutility s)
    (outfit_weapon s) (outfit_nweapon s) (stats s) (stats_array s) (desc_stats
    s).
Definition set_outfit_nutility (v : Z) (s : Ship) : Ship :=
  mkShip (name s) (base_type s) (class s) (price s) (license s) (fabricator s)
    (description s) (thrust s) (turn s) (speed s) (gfx_space s) (gfx_engine s)
    (gfx_target s) (gfx_store s) (gfx_comm s) (gui s) (sound s) (armour s)
    (armour_regen s) (shield s) (shield_regen s) (energy s) (energy_regen s)
    (dmg_absorb s) (crew s) (mass s) (cpu s) (fuel s) (cap_cargo s) (mangle s)
    (outfit_structure s) (outfit_nstructure s) (outfit_utility s) v
    (outfit_weapon s) (outfit_nweapon s) (stats s) (stats_array s) (desc_stats
    s).
Definition set_outfit_weapon (v : list ShipOutfitSlot) (s : Ship) : Ship :=
  mkShip (name s) (base_type s) (class s) (price s) (license s) (fabricator s)
    (description s) (thrust s) (turn s) (speed s) (gfx_space s) (gfx_engine s)
    (gfx_target s) (gfx_store s) (gfx_comm s) (gui s) (sound s) (armour s)
    (armour_regen s) (shield s) (shield_regen s) (energy s) (energy_regen s)
    (dmg_absorb s) (crew s) (mass s) (cpu s) (fuel s) (cap_cargo s) (mangle s)
    (outfit_structure s) (outfit_nstructure s) (outfit_utility s)
    (outfit_nutility s) v (outfit_nweapon s) (stats s) (stats_array s)
    (desc_stats s).
Definition set_outfit_nweapon (v : Z) (s : Ship) : Ship :=
  mkShip (name s) (base_type s) (class s) (price s) (license s) (fabricator s)
    (description s) (thrust s) (turn s) (speed s) (gfx_space s) (gfx_engine s)
    (gfx_target s) (gfx_store s) (gfx_comm s) (gui s) (sound s) (armour s)
    (armour_regen s) (shield s) (shield_regen s) (energy s) (energy_regen s)
    (dmg_absorb s) (crew s) (mass s) (cpu s) (fuel s) (cap_cargo s) (mangle s)
    (outfit_structure s) (outfit_nstructure s) (outfit_utility s)
    (outfit_nutility s) (outfit_weapon s) v (stats s) (stats_array s)
    (desc_stats s).
Definition set_stats (v : list ShipStatList) (s : Ship) : Ship :=
  mkShip (name s) (base_type s) (class s) (price s) (license s) (fabricator s)
    (description s) (thrust s) (turn s) (speed s) (gfx_space s) (gfx_engine s)
    (gfx_target s) (gfx_store s) (gfx_comm s) (gui s) (sound s) (armour s)
    (armour_regen s) (shield s) (shield_regen s) (energy s) (energy_regen s)
    (dmg_absorb s) (crew s) (mass s) (cpu s) (fuel s) (cap_cargo s) (mangle s)
    (outfit_structure s) (outfit_nstructure s) (outfit_utility s)
    (outfit_nutility s) (outfit_weapon s) (outfit_nweapon s) v (stats_array s)
    (desc_stats s).
Definition set_stats_array (v : ShipStats) (s : Ship) : Ship :=
  mkShip (name s) (base_type s) (class s) (price s) (license s) (fabricator s)
    (description s) (thrust s) (turn s) (speed s) (gfx_space s) (gfx_engine s)
    (gfx_target s) (gfx_store s) (gfx_comm s) (gui s) (sound s) (armour s)
    (armour_regen s) (shield s) (shield_regen s) (energy s) (energy_regen s)
    (dmg_absorb s) (crew s) (mass s) (cpu s) (fuel s) (cap_cargo s) (mangle s)
    (outfit_structure s) (outfit_nstructure s) (outfit_utility s)
    (outfit_nutility s) (outfit_weapon s) (outfit_nweapon s) (stats s) v
    (desc_stats s).
Definition set_desc_stats (v : option string) (s : Ship) : Ship :=
  mkShip (name s) (base_type s) (class s) (price s) (license s) (fabricator s)
    (description s) (thrust s) (turn s) (speed s) (gfx_space s) (gfx_engine s)
    (gfx_target s) (gfx_store s) (gfx_comm s) (gui s) (sound s) (armour s)
    (armour_regen s) (shield s) (shield_regen s) (energy s) (energy_regen s)
    (dmg_absorb s) (crew s) (mass s) (cpu s) (fuel s) (cap_cargo s) (mangle s)
    (outfit_structure s) (outfit_nstructure s) (outfit_utility s)
    (outfit_nutility s) (outfit_weapon s) (outfit_nweapon s) (stats s)
    (stats_array s) v.

(** A ship after [memset( temp, 0, sizeof(Ship) )]: null pointers, zero
    numbers, the class of value 0.  The stat array is initialised by
    [ss_statsInit] right after. *)
Definition Ship_zero : Ship :=
  {| name := None; base_type := None; class := SHIP_CLASS_NULL; price := 0;
     license := None; fabricator := None; description := None;
     thrust := 0%float; turn := 0%float; speed := 0%float;
     gfx_space := None; gfx_engine := None; gfx_target := None;
     gfx_store := None; gfx_comm := None; gui := None; sound := 0;
     armour := 0%float; armour_regen := 0%float; shield := 0%float;
     shield_regen := 0%float; energy := 0%float; energy_regen := 0%float;
     dmg_absorb := 0%float; crew := 0; mass := 0%float; cpu := 0%float;
     fuel := 0; cap_cargo := 0%float; mangle := 0%float;
     outfit_structure := []; outfit_nstructure := 0;
     outfit_utility := []; outfit_nutility := 0;
     outfit_weapon := []; outfit_nweapon := 0;
     stats := []; stats_array := ss_statsInit; desc_stats := None |}.

(** Field assignments on a slot. *)
Definition set_slot_property (v : option string) (s : ShipOutfitSlot) : ShipOutfitSlot :=
  mkShipOutfitSlot
    (mkOutfitSlot v (exclusive (slot s)) (slot_type (slot s)) (size (slot s)))
    (required s) (mount s) (data s).
Definition set_slot_exclusive (v : Z) (s : ShipOutfitSlot) : ShipOutfitSlot :=
  mkShipOutfitSlot
    (mkOutfitSlot (property (slot s)) v (slot_type (slot s)) (size (slot s)))
    (required s) (mount s) (data s).
Definition set_slot_type (v : OutfitSlotType) (s : ShipOutfitSlot) : ShipOutfitSlot :=
  mkShipOutfitSlot
    (mkOutfitSlot (property (slot s)) (exclusive (slot s)) v (size (slot s)))
    (required s) (mount s) (data s).
Definition set_slot_size (v : OutfitSlotSize) (s : ShipOutfitSlot) : ShipOutfitSlot :=
  mkShipOutfitSlot
    (mkOutfitSlot (property (slot s)) (exclusive (slot s)) (slot_type (slot s)) v)
    (required s) (mount s) (data s).
Definition set_required (v : Z) (s : ShipOutfitSlot) : ShipOutfitSlot :=
  mkShipOutfitSlot (slot s) v (mount s) (data s).
Definition set_data (v : option Outfit) (s : ShipOutfitSlot) : ShipOutfitSlot :=
  mkShipOutfitSlot (slot s) (required s) (mount s) v.
Definition set_mount_x (v : float) (s : ShipOutfitSlot) : ShipOutfitSlot :=
  mkShipOutfitSlot (slot s) (required s)
    (mkShipMount v (mount_y (mount s)) (mount_h (mount s))) (data s).
Definition set_mount_y (v : float) (s : ShipOutfitSlot) : ShipOutfitSlot :=
  mkShipOutfitSlot (slot s) (required s)
    (mkShipMount (mount_x (mount s)) v (mount_h (mount s))) (data s).
Definition set_mount_h (v : float) (s : ShipOutfitSlot) : ShipOutfitSlot :=
  mkShipOutfitSlot (slot s) (required s)
    (mkShipMount (mount_x (mount s)) (mount_y (mount s)) v) (data s).

(** ** ship_compareTech *)

(** Comparison function for [qsort]; the arguments point to ships.  [None]
    is the [strcmp] on a [NULL] name. *)
Definition ship_compareTech (s1 s2 : Ship) : option Z :=
  (* Compare class. *)
  if ShipClass_value (class s1) <? ShipClass_value (class s2) then Some 1
  else if ShipClass_value (class s1) >? ShipClass_value (class s2) then Some (-1)
  (* Compare price. *)
  else if price s1 <? price s2 then Some 1
  else if price s1 >? price s2 then Some (-1)
  (* Same. *)
  else match name s1, name s2 with
       | Some n1, Some n2 => Some (strcmp n1 n2)
       | _, _ => None
       end.

(** ** ship_class and ship_classFromString *)

(** The [default] branch of the switch, ["Unknown"], is for values outside
    the enumeration; [ShipClass] has none. *)
Definition ship_class (s : Ship) : string :=
  match class s with
  | SHIP_CLASS_NULL => "NULL"
  | SHIP_CLASS_YACHT => "Yacht"
  | SHIP_CLASS_LUXURY_YACHT => "Luxury Yacht"
  | SHIP_CLASS_CRUISE_SHIP => "Cruise Ship"
  | SHIP_CLASS_COURIER => "Courier"
  | SHIP_CLASS_ARMOURED_TRANSPORT => "Armoured Transport"
  | SHIP_CLASS_FREIGHTER => "Freighter"
  | SHIP_CLASS_BULK_CARRIER => "Bulk Carrier"
  | SHIP_CLASS_SCOUT => "Scout"
  | SHIP_CLASS_FIGHTER => "Fighter"
  | SHIP_CLASS_BOMBER => "Bomber"
  | SHIP_CLASS_CORVETTE => "Corvette"
  | SHIP_CLASS_DESTROYER => "Destroyer"
  | SHIP_CLASS_CRUISER => "Cruiser"
  | SHIP_CLASS_CARRIER => "Carrier"
  | SHIP_CLASS_DRONE => "Drone"
  | SHIP_CLASS_HEAVY_DRONE => "Heavy Drone"
  | SHIP_CLASS_MOTHERSHIP => "Mothership"
  end.

Definition ship_classFromString (str : string) : ShipClass :=
  (* Civilian *)
  if strcmp str "Yacht" =? 0 then SHIP_CLASS_YACHT
  else if strcmp str "Luxury Yacht" =? 0 then SHIP_CLASS_LUXURY_YACHT
  else if strcmp str "Cruise Ship" =? 0 then SHIP_CLASS_CRUISE_SHIP
  (* Merchant. *)
  else if strcmp str "Courier" =? 0 then SHIP_CLASS_COURIER
  else if strcmp str "Freighter" =? 0 then SHIP_CLASS_FREIGHTER
  else if strcmp str "Armoured Transport" =? 0 then SHIP_CLASS_ARMOURED_TRANSPORT
  else if strcmp str "Bulk Carrier" =? 0 then SHIP_CLASS_BULK_CARRIER
  (* Military *)
  else if strcmp str "Scout" =? 0 then SHIP_CLASS_SCOUT
  else if strcmp str "Fighter" =? 0 then SHIP_CLASS_FIGHTER
  else if strcmp str "Bomber" =? 0 then SHIP_CLASS_BOMBER
  else if strcmp str "Corvette" =? 0 then SHIP_CLASS_CORVETTE
  else if strcmp str "Destroyer" =? 0 then SHIP_CLASS_DESTROYER
  else if strcmp str "Cruiser" =? 0 then SHIP_CLASS_CRUISER
  else if strcmp str "Carrier" =? 0 then SHIP_CLASS_CARRIER
  (* Robotic *)
  else if strcmp str "Drone" =? 0 then SHIP_CLASS_DRONE
  else if strcmp str "Heavy Drone" =? 0 then SHIP_CLASS_HEAVY_DRONE
  else if strcmp str "Mothership" =? 0 then SHIP_CLASS_MOTHERSHIP
  (* Unknown *)
  else SHIP_CLASS_NULL.

(** ** ship_basePrice *)

(** The ship's base price (no outfits).  The function receives a pointer to
    the ship; the ship after the call is part of the result. *)
Definition ship_basePrice (s : Ship) : W (credits_t * Ship) :=
  (* Get ship base price. *)
  let price := price s in
  let* price :=
    if price <? 0
    then tell (WARN "Negative ship base price!" []);; ret 0
    else ret price in
  ret (price, s).

(** ** ship_genTargetGFX and ship_loadGFX *)

Definition SHIP_GFX : string := "gfx/ship/".
Definition SHIP_EXT : string := ".png".
Definition SHIP_ENGINE : string := "_engine".
Definition SHIP_COMM : string := "_comm".
Definition SHIP_TARGET_W : Z := 128.
Definition SHIP_TARGET_H : Z := 96.
Definition OPENGL_TEX_MAPTRANS : Z := 1.
Definition OPENGL_TEX_MIPMAPS : Z := 2.

(** How printf renders a [%s] argument. *)
Definition fmt_s (s : option string) : string :=
  match s with
  | Some t => t
  | None => "(null)"
  end.

Definition ship_genTargetGFX (temp : Ship) (surface : SDL_Surface)
    (space : glTexture) (sx sy : Z) : W (Z * Ship) :=
  (* Get sprite size. *)
  let sw := int_of_double (tex_w space / double_of_int sx)%float in
  let sh := int_of_double (tex_h space / double_of_int sy)%float in
  match SDL_targetSurfaces surface space sx sy with
  | None =>
      tell (WARN "Unable to create ship '%s' targeting surface." [ArgS (name temp)]);;
      ret (-1, temp)
  | Some (gfx, gfx_store_surface) =>
      (* Load the store surface. *)
      let buf := snprintf PATH_MAX (String.append (fmt_s (name temp)) "_gfx_store.png") in
      let temp := set_gfx_store
        (Some (gl_loadImagePad buf gfx_store_surface 0 SHIP_TARGET_W SHIP_TARGET_H 1 1)) temp in
      (* Load the surface. *)
      let buf := snprintf PATH_MAX (String.append (fmt_s (name temp)) "_gfx_target.png") in
      let temp := set_gfx_target (Some (gl_loadImagePad buf gfx 0 sw sh 1 1)) temp in
      ret (0, temp)
  end.

(** The base path of a graphic: the text before the first ['_']. *)
Fixpoint gfx_base (buf : string) : string :=
  match buf with
  | EmptyString => EmptyString
  | String c r =>
      if Ascii.eqb c Ascii.zero || Ascii.eqb c "_"%char then EmptyString
      else String c (gfx_base r)
  end.

Definition ship_loadGFX (temp : Ship) (buf : string) (sx sy : Z) : W (Z * Ship) :=
  (* Get base path. *)
  let base := gfx_base buf in
  if PATH_MAX <=? Z.of_nat (String.length base) then
    tell (WARN "Failed to get base path of '%s'." [ArgS (Some buf)]);;
    ret (-1, temp)
  else
    (* Load the space sprite. *)
    let path := String.append SHIP_GFX (String.append base (String.append "/" buf)) in
    let str := snprintf PATH_MAX (String.append path SHIP_EXT) in
    let '(w, h) := npng_dim str in
    let surface := npng_readSurface str gl_needPOT in
    (* Load the texture. *)
    let space := gl_loadImagePad str surface
                   (Z.lor OPENGL_TEX_MAPTRANS OPENGL_TEX_MIPMAPS) w h sx sy in
    let temp := set_gfx_space (Some space) temp in
    (* Create the target graphic. *)
    let* '(_, temp) := ship_genTargetGFX temp surface space sx sy in
    (* Load the engine sprite. *)
    let* temp :=
      if conf_engineglow && conf_interpolate then
        let str := snprintf PATH_MAX
                     (String.append path (String.append SHIP_ENGINE SHIP_EXT)) in
        let temp := set_gfx_engine (gl_newSprite str sx sy OPENGL_TEX_MIPMAPS) temp in
        match gfx_engine temp with
        | None =>
            tell (WARN "Ship '%s' does not have an engine sprite (%s)."
                    [ArgS (name temp); ArgS (Some str)]);;
            ret temp
        | Some _ => ret temp
        end
      else ret temp in
    (* Calculate mount angle. *)
    let temp := set_mangle (2 * M_PI)%float temp in
    let temp := set_mangle (mangle temp / (tex_sx space * tex_sy space))%float temp in
    (* Get the comm graphic for future loading. *)
    let str := snprintf PATH_MAX
                 (String.append path (String.append SHIP_COMM SHIP_EXT)) in
    let temp := set_gfx_comm (Some str) temp in
    ret (0, temp).

(** ** ship_parseSlot *)

Definition class_is (temp : Ship) (c : ShipClass) : bool :=
  ShipClass_eqb (class temp) c.

(** Parses a slot for a ship: [temp] is the ship being parsed (read only),
    [sl] the array entry the C code receives by pointer ([slot] there), [type] the type
    of the slot and [node] the node containing the data.  Returns 0. *)
Definition ship_parseSlot (temp : Ship) (sl : ShipOutfitSlot)
    (type : OutfitSlotType) (node : xmlNode) : W (Z * ShipOutfitSlot) :=
  (* Parse size. *)
  let base_size :=
    match xml_nodeProp node "size" with
    | Some buf => outfit_toSlotSize buf
    | None =>
        if class_is temp SHIP_CLASS_BULK_CARRIER ||
           class_is temp SHIP_CLASS_CRUISER ||
           class_is temp SHIP_CLASS_CARRIER ||
           class_is temp SHIP_CLASS_MOTHERSHIP
        then OUTFIT_SLOT_SIZE_HEAVY
        else if class_is temp SHIP_CLASS_CRUISE_SHIP ||
                class_is temp SHIP_CLASS_FREIGHTER ||
                class_is temp SHIP_CLASS_DESTROYER ||
                class_is temp SHIP_CLASS_CORVETTE ||
                class_is temp SHIP_CLASS_HEAVY_DRONE ||
                class_is temp SHIP_CLASS_ARMOURED_TRANSPORT
        then OUTFIT_SLOT_SIZE_MEDIUM
        else OUTFIT_SLOT_SIZE_LIGHT
    end in
  (* Get mount point for weapons. *)
  let* sl :=
    match type with
    | OUTFIT_SLOT_WEAPON =>
        let* sl :=
          match xml_nodeProp node "x" with
          | Some buf => ret (set_mount_x (atof buf) sl)
          | None =>
              tell (WARN "Ship '%s' missing 'x' element of 'weapon' slot."
                      [ArgS (name temp)]);;
              ret sl
          end in
        let* sl :=
          match xml_nodeProp node "y" with
          | Some buf =>
              let sl := set_mount_y (atof buf) sl in
              (* Since we measure in pixels, we have to modify it so it
                 doesn't get corrected by the ortho correction. *)
              ret (set_mount_y (mount_y (mount sl) * M_SQRT2)%float sl)
          | None =>
              tell (WARN "Ship '%s' missing 'y' element of 'weapon' slot."
                      [ArgS (name temp)]);;
              ret sl
          end in
        match xml_nodeProp node "h" with
        | Some buf => ret (set_mount_h (atof buf) sl)
        | None =>
            tell (WARN "Ship '%s' missing 'h' element of 'weapon' slot."
                    [ArgS (name temp)]);;
            ret sl
        end
    | _ => ret sl
    end in
  (* Parse property. *)
  let sl := set_slot_property (xml_nodeProp node "prop") sl in
  let* sl :=
    match xml_nodeProp node "prop_exc" with
    | Some buf =>
        match property (slot sl) with
        | Some _ =>
            tell (WARN "Ship '%s' has slot with both 'prop' and 'prop_exc' defined!"
                    [ArgS (name temp)]);;
            ret sl
        | None => ret (set_slot_exclusive 1 (set_slot_property (Some buf) sl))
        end
    | None => ret sl
    end in
  (* Parsed required attribute. *)
  let sl :=
    match xml_nodeProp node "required" with
    | Some _ => set_required 1 sl
    | None => sl
    end in
  (* Parse default outfit. *)
  let* sl :=
    match xml_get node with
    | Some buf =>
        let o := outfit_get buf in
        match o with
        | None =>
            tell (WARN "Ship '%s' has default outfit '%s' which does not exist."
                    [ArgS (name temp); ArgS (Some buf)])
        | Some _ => ret tt
        end;;
        ret (set_data o sl)
    | None => ret sl
    end in
  (* Set stuff. *)
  let sl := set_slot_size base_size sl in
  let sl := set_slot_type type sl in
  ret (0, sl).

(** ** ship_parse *)

Definition STATS_DESC_MAX : Z := 128.

(** Body of the loop over the children of a [movement] node.  Each
    [xmlr_float] ends in [continue] when it matches. *)
Definition ship_parse_movement (temp : Ship) (cur : xmlNode) : W Ship :=
  if negb (xml_isStart cur) then ret temp                       (* xml_onlyNodes *)
  else if xml_isNode cur "thrust" then ret (set_thrust (xml_getFloat cur) temp)
  else if xml_isNode cur "turn" then ret (set_turn (xml_getFloat cur) temp)
  else if xml_isNode cur "speed" then ret (set_speed (xml_getFloat cur) temp)
  else
    tell (WARN "Ship '%s' has unknown movement node '%s'."
            [ArgS (name temp); ArgS (Some (xml_name cur))]);;
    ret temp.

(** Body of the loop over the children of a [health] node. *)
Definition ship_parse_health (temp : Ship) (cur : xmlNode) : W Ship :=
  if negb (xml_isStart cur) then ret temp
  else if xml_isNode cur "absorb" then ret (set_dmg_absorb (xml_getFloat cur) temp)
  else if xml_isNode cur "armour" then ret (set_armour (xml_getFloat cur) temp)
  else if xml_isNode cur "armour_regen" then ret (set_armour_regen (xml_getFloat cur) temp)
  else if xml_isNode cur "shield" then ret (set_shield (xml_getFloat cur) temp)
  else if xml_isNode cur "shield_regen" then ret (set_shield_regen (xml_getFloat cur) temp)
  else if xml_isNode cur "energy" then ret (set_energy (xml_getFloat cur) temp)
  else if xml_isNode cur "energy_regen" then ret (set_energy_regen (xml_getFloat cur) temp)
  else
    tell (WARN "Ship '%s' has unknown health node '%s'."
            [ArgS (name temp); ArgS (Some (xml_name cur))]);;
    ret temp.

(** Body of the loop over the children of a [characteristics] node. *)
Definition ship_parse_characteristics (temp : Ship) (cur : xmlNode) : W Ship :=
  if negb (xml_isStart cur) then ret temp
  else if xml_isNode cur "crew" then ret (set_crew (xml_getInt cur) temp)
  else if xml_isNode cur "mass" then ret (set_mass (xml_getFloat cur) temp)
  else if xml_isNode cur "cpu" then ret (set_cpu (xml_getFloat cur) temp)
  else if xml_isNode cur "fuel" then ret (set_fuel (xml_getInt cur) temp)
  else if xml_isNode cur "cap_cargo" then ret (set_cap_cargo (xml_getFloat cur) temp)
  else
    tell (WARN "Ship '%s' has unknown characteristic node '%s'."
            [ArgS (name temp); ArgS (Some (xml_name cur))]);;
    ret temp.

(** First pass over a [slots] node: get number of mounts. *)
Definition ship_parse_slots_count (temp : Ship) (cur : xmlNode) : W Ship :=
  if negb (xml_isStart cur) then ret temp
  else if xml_isNode cur "structure"
  then ret (set_outfit_nstructure (outfit_nstructure temp + 1) temp)
  else if xml_isNode cur "utility"
  then ret (set_outfit_nutility (outfit_nutility temp + 1) temp)
  else if xml_isNode cur "weapon"
  then ret (set_outfit_nweapon (outfit_nweapon temp + 1) temp)
  else
    tell (WARN "Ship '%s' has unknown slot node '%s'."
            [ArgS (name temp); ArgS (Some (xml_name cur))]);;
    ret temp.

(** [calloc( n, sizeof(ShipOutfitSlot) )]. *)
Definition calloc_slots (n : Z) : list ShipOutfitSlot :=
  replicate (Z.to_nat n) ShipOutfitSlot_zero.

(** [a[i]] and [a[i] = v] on a slot array.  The second pass only uses
    indices below the length of the array (lemmas [slots_fill_pass] and
    [ship_parse_slot_counts] below); outside of it the C code would leave
    the allocation, here the read gives a cleared slot and the write does
    nothing. *)
Definition slot_at (a : list ShipOutfitSlot) (i : Z) : ShipOutfitSlot :=
  default ShipOutfitSlot_zero (a !! Z.to_nat i).
Definition slot_store (a : list ShipOutfitSlot) (i : Z) (v : ShipOutfitSlot)
    : list ShipOutfitSlot :=
  <[Z.to_nat i := v]> a.

(** Second pass over a [slots] node: initialize the mounts.  The state is
    the ship with the three running indices [l], [m], [h]. *)
Definition ship_parse_slots_fill (st : Ship * Z * Z * Z) (cur : xmlNode)
    : W (Ship * Z * Z * Z) :=
  let '(temp, l, m, h) := st in
  if negb (xml_isStart cur) then ret st
  else
    let* '(temp, l) :=
      if xml_isNode cur "structure" then
        let* '(_, sl) := ship_parseSlot temp (slot_at (outfit_structure temp) l)
                           OUTFIT_SLOT_STRUCTURE cur in
        ret (set_outfit_structure (slot_store (outfit_structure temp) l sl) temp, l + 1)
      else ret (temp, l) in
    let* '(temp, m) :=
      if xml_isNode cur "utility" then
        let* '(_, sl) := ship_parseSlot temp (slot_at (outfit_utility temp) m)
                           OUTFIT_SLOT_UTILITY cur in
        ret (set_outfit_utility (slot_store (outfit_utility temp) m sl) temp, m + 1)
      else ret (temp, m) in
    let* '(temp, h) :=
      if xml_isNode cur "weapon" then
        let* '(_, sl) := ship_parseSlot temp (slot_at (outfit_weapon temp) h)
                           OUTFIT_SLOT_WEAPON cur in
        ret (set_outfit_weapon (slot_store (outfit_weapon temp) h sl) temp, h + 1)
      else ret (temp, h) in
    ret (temp, l, m, h).

(** The [slots] branch of the main loop. *)
Definition ship_parse_slots (temp : Ship) (node : xmlNode) : W Ship :=
  (* First pass, get number of mounts. *)
  let* temp := xml_foreach ship_parse_slots_count (xml_children node) temp in
  (* Allocate the space. *)
  let temp := set_outfit_structure (calloc_slots (outfit_nstructure temp)) temp in
  let temp := set_outfit_utility (calloc_slots (outfit_nutility temp)) temp in
  let temp := set_outfit_weapon (calloc_slots (outfit_nweapon temp)) temp in
  (* Second pass, initialize the mounts. *)
  let* '(temp, _, _, _) :=
    xml_foreach ship_parse_slots_fill (xml_children node) (temp, 0, 0, 0) in
  ret temp.

(** Body of the loop over the children of a [stats] node. *)
Definition ship_parse_stat (temp : Ship) (cur : xmlNode) : W Ship :=
  if negb (xml_isStart cur) then ret temp
  else
    match ss_listFromXML cur with
    | Some ll =>
        (* ll->next = temp->stats; temp->stats = ll; *)
        ret (set_stats (ll :: stats temp) temp)
    | None =>
        tell (WARN "Ship '%s' has unknown stat '%s'."
                [ArgS (name temp); ArgS (Some (xml_name cur))]);;
        ret temp
    end.

(** The [stats] branch of the main loop. *)
Definition ship_parse_stats (temp : Ship) (node : xmlNode) : W Ship :=
  let* temp := xml_foreach ship_parse_stat (xml_children node) temp in
  (* Load array. *)
  let temp := set_stats_array ss_statsInit temp in
  tell (CALL_ss_statsModFromList (stats temp));;
  let temp := set_stats_array (ss_statsModFromList (stats_array temp) (stats temp)) temp in
  (* Create description. *)
  match stats temp with
  | [] => ret temp
  | _ :: _ =>
      tell (CALL_ss_statsListDesc (stats temp) STATS_DESC_MAX);;
      let '(i, buf) := ss_statsListDesc (stats temp) STATS_DESC_MAX 0 in
      if i <=? 0 then ret (set_desc_stats None temp)
      else ret (set_desc_stats (Some buf) temp)
  end.

(** Body of the main loop of [ship_parse]: load the rest of the data. *)
Definition ship_parse_node (temp : Ship) (node : xmlNode) : W Ship :=
  (* Only handle nodes. *)
  if negb (xml_isStart node) then ret temp
  else if xml_isNode node "GFX" then
    (* Get base graphic name. *)
    match xml_get node with
    | None =>
        tell (WARN "Ship '%s': GFX element is NULL" [ArgS (name temp)]);;
        ret temp
    | Some buf =>
        (* Get sprite size. *)
        let sx := match xml_nodeProp node "sx" with
                  | Some stmp => atoi stmp
                  | None => 8
                  end in
        let sy := match xml_nodeProp node "sy" with
                  | Some stmp => atoi stmp
                  | None => 8
                  end in
        (* Load the graphics. *)
        let* '(_, temp) := ship_loadGFX temp buf sx sy in
        ret temp
    end
  else if xml_isNode node "GUI" then ret (set_gui (xml_getStrd node) temp)
  else if xml_isNode node "sound" then ret (set_sound (sound_get (xml_get node)) temp)
  else if xml_isNode node "base_type" then ret (set_base_type (xml_getStrd node) temp)
  else if xml_isNode node "class" then
    (* Already preemptively loaded, avoids warning. *)
    ret temp
  else if xml_isNode node "price" then ret (set_price (xml_getLong node) temp)
  else if xml_isNode node "license" then ret (set_license (xml_getStrd node) temp)
  else if xml_isNode node "fabricator" then ret (set_fabricator (xml_getStrd node) temp)
  else if xml_isNode node "description" then ret (set_description (xml_getStrd node) temp)
  else if xml_isNode node "movement"
  then xml_foreach ship_parse_movement (xml_children node) temp
  else if xml_isNode node "health"
  then xml_foreach ship_parse_health (xml_children node) temp
  else if xml_isNode node "characteristics"
  then xml_foreach ship_parse_characteristics (xml_children node) temp
  else if xml_isNode node "slots" then ship_parse_slots temp node
  (* Parse ship stats. *)
  else if xml_isNode node "stats" then ship_parse_stats temp node
  else
    tell (DEBUG "Ship '%s' has unknown node '%s'."
            [ArgS (name temp); ArgS (Some (xml_name node))]);;
    ret temp.

(** The first loop of [ship_parse]: data that must be loaded first.  The
    text of every [class] element goes to [ship_classFromString], whose
    [strcmp] dereferences it: a [class] element without text is [None]. *)
Fixpoint ship_parse_class (nodes : list xmlNode) (temp : Ship) : option Ship :=
  match nodes with
  | [] => Some temp
  | node :: rest =>
      if negb (xml_isStart node) then ship_parse_class rest temp
      else if xml_isNode node "class" then
        match xml_get node with
        | None => None
        | Some str => ship_parse_class rest (set_class (ship_classFromString str) temp)
        end
      else ship_parse_class rest temp
  end.

(** [MELEMENT(o,s)]: [if (o) WARN("Ship '%s' missing 's' element", temp->name)]. *)
Definition MELEMENT (temp : Ship) (o : bool) (s : string) : W unit :=
  if o
  then tell (WARN (String.append "Ship '%s' missing '" (String.append s "' element"))
               [ArgS (name temp)])
  else ret tt.

Definition is_null {A : Type} (p : option A) : bool :=
  match p with
  | None => true
  | Some _ => false
  end.

(** Post processing. *)
Definition ship_postprocess (temp : Ship) : Ship :=
  let temp := set_dmg_absorb (dmg_absorb temp / 100)%float temp in
  let temp := set_turn (turn temp * (M_PI / 180))%float temp in (* Convert to rad. *)
  set_thrust (thrust temp * mass temp)%float temp.

(** The ship validator. *)
Definition ship_validate (temp : Ship) : W unit :=
  MELEMENT temp (is_null (name temp)) "name";;
  MELEMENT temp (is_null (base_type temp)) "base_type";;
  MELEMENT temp (is_null (gfx_space temp)) "GFX";;
  MELEMENT temp (is_null (gui temp)) "GUI";;
  MELEMENT temp (class_is temp SHIP_CLASS_NULL) "class";;
  MELEMENT temp (price temp =? 0) "price";;
  MELEMENT temp (is_null (fabricator temp)) "fabricator";;
  MELEMENT temp (is_null (description temp)) "description";;
  MELEMENT temp (thrust temp =? -1)%float "thrust";;
  MELEMENT temp (turn temp =? 0)%float "turn";;
  MELEMENT temp (speed temp =? -1)%float "speed";;
  MELEMENT temp (armour temp =? 0)%float "armour";;
  MELEMENT temp (shield temp =? 0)%float "shield";;
  MELEMENT temp (shield_regen temp =? 0)%float "shield_regen";;
  MELEMENT temp (energy temp =? 0)%float "energy";;
  MELEMENT temp (energy_regen temp =? 0)%float "energy_regen";;
  MELEMENT temp (fuel temp =? 0) "fuel";;
  MELEMENT temp (crew temp =? 0) "crew";;
  MELEMENT temp (mass temp =? 0)%float "mass";;
  MELEMENT temp (cpu temp =? 0)%float "cpu";;
  MELEMENT temp (cap_cargo temp =? 0)%float "cap_cargo".

(** The ship before the two loops: cleared memory, defaults, name. *)
Definition ship_parse_init (parent : xmlNode) : Ship :=
  (* Clear memory. *)
  let temp := Ship_zero in
  (* Defaults. *)
  let temp := set_thrust (-1)%float temp in
  let temp := set_speed (-1)%float temp in
  let temp := set_stats_array ss_statsInit temp in
  (* Get name. *)
  set_name (xml_nodeProp parent "name") temp.

(** Extracts the ingame ship from an XML node: the ship loaded into
    [*temp] and the return value, which is 0. *)
Definition ship_parse (parent : xmlNode) : option (W (Z * Ship)) :=
  let temp := ship_parse_init parent in
  (* Data that must be loaded first. *)
  match ship_parse_class (xml_children parent) temp with
  | None => None
  | Some temp => Some (
      (if is_null (name temp)
       then tell (WARN "Ship in dat/ship.xml has invalid or no name" [])
       else ret tt);;
      (* Load the rest of the data. *)
      let* temp := xml_foreach ship_parse_node (xml_children parent) temp in
      (* Post processing. *)
      let temp := ship_postprocess temp in
      (* ship validator *)
      ship_validate temp;;
      ret (0, temp))
  end.

(** ** The ship stack and ships_load *)

Definition XML_ID : string := "Ships".
Definition XML_SHIP : string := "ship".

(** The loop of [ships_load] over the children of the root. *)
Fixpoint ships_load_nodes (nodes : list xmlNode) (ship_stack : array Ship)
    : option (W (array Ship)) :=
  match nodes with
  | [] => Some (ret ship_stack)
  | node :: rest =>
      if xml_isNode node XML_SHIP then
        (* Load the ship. *)
        match ship_parse node with
        | None => None
        | Some (_, temp, log1) =>
            match ships_load_nodes rest (array_grow ship_stack temp) with
            | None => None
            | Some (r, log2) => Some (r, log1 ++ log2)
            end
        end
      else ships_load_nodes rest ship_stack
  end.

(** Loads all the ships in the data files.  [doc] is the document
    [xmlParseMemory] made of dat/ship.xml and [ship_stack] the global stack
    before the call; the result is the return value and the global stack
    after it.  [None]: the document has no node at all
    ([doc->xmlChildrenNode] is dereferenced), or a ship's parse is [None]. *)
Definition ships_load (ship_stack : option (array Ship)) (doc : xmlDoc)
    : option (W (Z * option (array Ship))) :=
  match doc with
  | [] => None
  | node :: _ =>                                         (* Ships node *)
      if negb (strcmp (xml_name node) XML_ID =? 0) then
        Some (tell (ERR "Malformed dat/ship.xml file: missing root element 'Ships'" []);;
              ret (-1, ship_stack))
      else
        match xml_children node with                     (* first ship node *)
        | [] =>
            Some (tell (ERR "Malformed dat/ship.xml file: does not contain elements" []);;
                  ret (-1, ship_stack))
        | nodes =>
            match ships_load_nodes nodes array_create with
            | None => None
            | Some loaded =>
                Some (let* stack := loaded in
                      let stack := array_shrink stack in
                      tell (DEBUG "Loaded %d Ship%s"
                              [ArgD (array_size stack);
                               ArgS (Some (if array_size stack =? 1 then EmptyString else "s"%string))]);;
                      ret (0, Some stack))
            end
        end
  end.

End ShipLoader.

Arguments WARN {world} _ _.
Arguments ERR {world} _ _.
Arguments DEBUG {world} _ _.

(** ** A concrete world and concrete documents, for the examples

    A small instance of the collaborators: numbers are read as optionally
    signed decimal integers, the outfit catalogue holds two outfits, the
    stat registry knows two stats, and textures are their file names. *)

Definition digit_of (c : ascii) : option Z :=
  let n := Z.of_N (N_of_ascii c) in
  if (48 <=? n) && (n <=? 57) then Some (n - 48) else None.

Fixpoint read_digits (s : string) (acc : Z) : Z :=
  match s with
  | EmptyString => acc
  | String c r =>
      match digit_of c with
      | Some d => read_digits r (10 * acc + d)
      | None => acc
      end
  end.

Definition read_int (s : string) : Z :=
  match s with
  | String "-"%char r => - read_digits r 0
  | _ => read_digits s 0
  end.

(** The binary64 value of an integer: exact below 2^53. *)
Definition float_of_Z (z : Z) : float :=
  match z with
  | Z0 => 0%float
  | Zpos p => Pos.iter_op PrimFloat.add p 1%float
  | Zneg p => (- Pos.iter_op PrimFloat.add p 1%float)%float
  end.

Fixpoint read_float_digits (s : string) (acc : float) : float :=
  match s with
  | EmptyString => acc
  | String c r =>
      match digit_of c with
      | Some d => read_float_digits r (10 * acc + float_of_Z d)%float
      | None => acc
      end
  end.

Definition read_float (s : string) : float :=
  match s with
  | String "-"%char r => (- read_float_digits r 0)%float
  | _ => read_float_digits s 0%float
  end.

Definition sample_stats : list string := ["cargo_mod"; "speed_mod"]%string.

Definition sample_world : Collaborators := {|
  Outfit := string;
  glTexture := string;
  SDL_Surface := string;
  ShipStatList := string * Z;
  ShipStats := list (string * Z);
  atoi := read_int;
  atol := read_int;
  atof := read_float;
  outfit_toSlotSize := fun s =>
    if String.eqb s "Large" then OUTFIT_SLOT_SIZE_HEAVY
    else if String.eqb s "Medium" then OUTFIT_SLOT_SIZE_MEDIUM
    else if String.eqb s "Small" then OUTFIT_SLOT_SIZE_LIGHT
    else OUTFIT_SLOT_SIZE_NA;
  outfit_get := fun s =>
    if String.eqb s "Laser Cannon" || String.eqb s "Cargo Pod" then Some s else None;
  sound_get := fun _ => 0;
  ss_statsInit := [];
  ss_listFromXML := fun n =>
    if existsb (String.eqb (xml_name n)) sample_stats
    then Some (xml_name n, match xml_get n with Some t => read_int t | None => 0 end)
    else None;
  ss_statsModFromList := fun a l => a ++ l;
  ss_statsListDesc := fun l len _ =>
    let text := String.concat ", " (map fst l) in
    (Z.of_nat (String.length text), text);
  conf_engineglow := false;
  conf_interpolate := false;
  gl_needPOT := false;
  npng_dim := fun _ => (800, 800);
  npng_readSurface := fun path _ => path;
  gl_loadImagePad := fun path _ _ _ _ _ _ => path;
  gl_newSprite := fun path _ _ _ => Some path;
  tex_w := fun _ => 800%float;
  tex_h := fun _ => 800%float;
  tex_sx := fun _ => 8%float;
  tex_sy := fun _ => 8%float;
  int_of_double := fun _ => 100;
  double_of_int := float_of_Z;
  SDL_targetSurfaces := fun surface _ _ _ => Some (surface, surface)
|}.

(** Builders for documents. *)
Definition elem (name : string) (props : list (string * string))
    (children : list xmlNode) : xmlNode :=
  XmlNode XML_ELEMENT_NODE name props None children.
Definition text (t : string) : xmlNode :=
  XmlNode XML_TEXT_NODE "text" [] (Some t) [].
Definition leaf (name t : string) : xmlNode := elem name [] [text t].

#[local] Open Scope string_scope.

(** A yacht that declares a turn rate, a speed and a mass, and no thrust. *)
Definition doc_drifter : xmlNode :=
  elem "ship" [("name", "Drifter")]
    [leaf "class" "Yacht";
     leaf "price" "120000";
     elem "movement" [] [leaf "turn" "90"; leaf "speed" "200"];
     elem "characteristics" [] [leaf "crew" "2"; leaf "mass" "1000"]].

(** The one [slots] block of [doc_gunship]: two structure, one utility
    and three weapon slots in that order, and an element of another name. *)
Definition slots_gunship : xmlNode :=
  elem "slots" []
    [elem "structure" [] [text "Cargo Pod"];
     elem "structure" [("size", "Large")] [];
     elem "utility" [("required", "1")] [];
     elem "weapon" [("x", "4"); ("y", "3"); ("h", "1")] [text "Laser Cannon"];
     elem "weapon" [("x", "-4"); ("y", "3"); ("h", "1")] [];
     elem "weapon" [("x", "0"); ("y", "0"); ("h", "2"); ("prop", "turret")] [];
     elem "engine" [] []].

(** The one [stats] block of [doc_gunship]: the registry of the concrete
    world knows the first and the last stat. *)
Definition stats_gunship : xmlNode :=
  elem "stats" []
    [leaf "cargo_mod" "10"; leaf "armour_mod" "5"; leaf "speed_mod" "-5"].

Definition doc_gunship : xmlNode :=
  elem "ship" [("name", "Gunship")]
    [leaf "class" "Corvette"; slots_gunship; stats_gunship].

(** A ship element with two [slots] blocks. *)
Definition slots_twin_first : xmlNode :=
  elem "slots" [] [elem "structure" [] []; elem "structure" [] []].
Definition slots_twin_second : xmlNode :=
  elem "slots" [] [elem "structure" [("size", "Large")] []].
Definition doc_twin : xmlNode :=
  elem "ship" [("name", "Twin")]
    [leaf "class" "Yacht"; slots_twin_first; slots_twin_second].

(** A ship element whose [stats] block holds no stat the registry knows. *)
Definition stats_plain : xmlNode :=
  elem "stats" [] [leaf "armour_mod" "5"].
Definition doc_plain : xmlNode :=
  elem "ship" [("name", "Plain")] [leaf "class" "Yacht"; stats_plain].

(** A ship element with a class string that names no class. *)
Definition doc_odd : xmlNode :=
  elem "ship" [("name", "Odd")] [leaf "class" "Dreadnought"].

(** A weapon slot with both compatibility tags and no [h] attribute. *)
Definition slot_both_tags : xmlNode :=
  elem "weapon"
    [("x", "4"); ("y", "3"); ("prop", "turret"); ("prop_exc", "fixed")] [].

(** A structure slot with both compatibility tags. *)
Definition slot_both_tags_structure : xmlNode :=
  elem "structure" [("prop", "hull"); ("prop_exc", "armour")] [].

(** Catalogue documents: a root with blank text only, a root with one odd
    ship between blank texts, a root without any child. *)
Definition catalog_blank : xmlDoc := [elem "Ships" [] [text " "]].
Definition catalog_odd : xmlDoc :=
  [elem "Ships" [] [text " "; doc_odd; text " "]].
Definition catalog_childless : xmlDoc := [elem "Ships" [] []].

(** Ships of the concrete world. *)
Definition sample_ship (n : string) (c : ShipClass) (p : credits_t)
    : @Ship sample_world :=
  @set_name sample_world (Some n)
    (@set_class sample_world c
       (@set_price sample_world p (@Ship_zero sample_world))).
Definition kestrel : @Ship sample_world := sample_ship "Kestrel" SHIP_CLASS_CRUISER 100.
Definition gawain : @Ship sample_world := sample_ship "Gawain" SHIP_CLASS_YACHT 900000.
Definition llama : @Ship sample_world := sample_ship "Llama" SHIP_CLASS_YACHT 120000.
Definition mule : @Ship sample_world := sample_ship "Mule" SHIP_CLASS_FREIGHTER 400000.

(** The parses of the sample ship elements in the concrete world. *)
Definition parse_result (doc : xmlNode) : Z * @Ship sample_world * list (@event sample_world) :=
  match @ship_parse sample_world doc with
  | Some r => r
  | None => ((-1, @Ship_zero sample_world), [])
  end.
Definition parsed_drifter := Eval vm_compute in parse_result doc_drifter.
Definition parsed_gunship := Eval vm_compute in parse_result doc_gunship.
Definition parsed_twin := Eval vm_compute in parse_result doc_twin.
Definition parsed_plain := Eval vm_compute in parse_result doc_plain.
Definition parsed_odd := Eval vm_compute in parse_result doc_odd.

#[local] Close Scope string_scope.

(** ** Vocabulary of the statements *)

(** The classes whose slots default to heavy and to medium. *)
Definition heavy_classes : list ShipClass :=
  [SHIP_CLASS_BULK_CARRIER; SHIP_CLASS_CRUISER; SHIP_CLASS_CARRIER;
   SHIP_CLASS_MOTHERSHIP].
Definition medium_classes : list ShipClass :=
  [SHIP_CLASS_CRUISE_SHIP; SHIP_CLASS_FREIGHTER; SHIP_CLASS_DESTROYER;
   SHIP_CLASS_CORVETTE; SHIP_CLASS_HEAVY_DRONE; SHIP_CLASS_ARMOURED_TRANSPORT].

Section Vocabulary.

Context {world : Collaborators}.

(** The warning about a slot with both compatibility-tag attributes. *)
Definition conflict_warning (temp : Ship) : event :=
  WARN "Ship '%s' has slot with both 'prop' and 'prop_exc' defined!"
    [ArgS (name temp)].

Definition is_conflict_warning (e : event) : bool :=
  match e with
  | WARN fmt _ =>
      String.eqb fmt "Ship '%s' has slot with both 'prop' and 'prop_exc' defined!"
  | _ => false
  end.

(** The warning about a missing mount attribute of a weapon slot. *)
Definition mount_warning (temp : Ship) (attr : string) : event :=
  WARN (String.append "Ship '%s' missing '"
          (String.append attr "' element of 'weapon' slot."))
    [ArgS (name temp)].

(** The warnings of [ship_parseSlot] about mount attributes: one per
    missing attribute of a weapon slot, none for the other slot types. *)
Definition mount_warnings (temp : Ship) (type : OutfitSlotType) (node : xmlNode)
    : list event :=
  match type with
  | OUTFIT_SLOT_WEAPON =>
      (if is_null (xml_nodeProp node "x") then [mount_warning temp "x"] else []) ++
      (if is_null (xml_nodeProp node "y") then [mount_warning temp "y"] else []) ++
      (if is_null (xml_nodeProp node "h") then [mount_warning temp "h"] else [])
  | _ => []
  end.

(** The warning of [ship_parseSlot] about a default outfit that the outfit
    catalogue does not hold. *)
Definition outfit_warnings (temp : Ship) (node : xmlNode) : list event :=
  match xml_get node with
  | Some buf =>
      if is_null (outfit_get buf)
      then [WARN "Ship '%s' has default outfit '%s' which does not exist."
              [ArgS (name temp); ArgS (Some buf)]]
      else []
  | None => []
  end.

(** The parts of a ship that a branch of the main loop leaves alone:
    the identity the slot parser reads, the slot arrays with their
    counters, and the stat list with what is compiled from it. *)
Definition ident_of (s : Ship) : option string * ShipClass :=
  (name s, class s).
Definition slots_of (s : Ship)
    : list ShipOutfitSlot * Z * list ShipOutfitSlot * Z * list ShipOutfitSlot * Z :=
  (outfit_structure s, outfit_nstructure s, outfit_utility s, outfit_nutility s,
   outfit_weapon s, outfit_nweapon s).
Definition stats_of (s : Ship) : list ShipStatList * ShipStats * option string :=
  (stats s, stats_array s, desc_stats s).

(** The calls into the stat registry a log records. *)
Definition is_call (e : event) : bool :=
  match e with
  | CALL_ss_statsModFromList _ => true
  | CALL_ss_statsListDesc _ _ => true
  | _ => false
  end.
Definition calls (log : list event) : list event := List.filter is_call log.

(** The children of a node that are elements called [tag]. *)
Definition elements_named (tag : string) (node : xmlNode) : list xmlNode :=
  List.filter (fun c => xml_isNode c tag) (xml_children node).

(** What [ship_parseSlot] makes of a cleared slot. *)
Definition parsed_slot (temp : Ship) (type : OutfitSlotType) (node : xmlNode)
    : ShipOutfitSlot :=
  snd (fst (ship_parseSlot temp ShipOutfitSlot_zero type node)).

(** The element children of a [slots] node that are none of the three
    slot categories, and the warning the first pass writes for one. *)
Definition is_unknown_slot (c : xmlNode) : bool :=
  xml_isStart c && negb (xml_isNode c "structure") &&
  negb (xml_isNode c "utility") && negb (xml_isNode c "weapon").
Definition unknown_slot_warning (temp : Ship) (c : xmlNode) : event :=
  WARN "Ship '%s' has unknown slot node '%s'."
    [ArgS (name temp); ArgS (Some (xml_name c))].

(** The log of the second pass over one child of a [slots] node. *)
Definition slot_log (temp : Ship) (c : xmlNode) : list event :=
  if xml_isStart c then
    (if xml_isNode c "structure"
     then snd (ship_parseSlot temp ShipOutfitSlot_zero OUTFIT_SLOT_STRUCTURE c)
     else []) ++
    (if xml_isNode c "utility"
     then snd (ship_parseSlot temp ShipOutfitSlot_zero OUTFIT_SLOT_UTILITY c)
     else []) ++
    (if xml_isNode c "weapon"
     then snd (ship_parseSlot temp ShipOutfitSlot_zero OUTFIT_SLOT_WEAPON c)
     else [])
  else [].

(** The nodes of a list that are elements called [tag]. *)
Definition named (tag : string) (l : list xmlNode) : list xmlNode :=
  List.filter (fun c => xml_isNode c tag) l.

(** The stat nodes the registry makes of the element children of a
    [stats] node, in document order. *)
Definition recognized_stats (l : list xmlNode) : list ShipStatList :=
  flat_map (fun c =>
    if xml_isStart c
    then match ss_listFromXML c with
         | Some ll => [ll]
         | None => []
         end
    else []) l.

(** The element children the registry does not know, and the warning
    written for one. *)
Definition is_unknown_stat (c : xmlNode) : bool :=
  xml_isStart c && is_null (ss_listFromXML c).
Definition unknown_stat_warning (temp : Ship) (c : xmlNode) : event :=
  WARN "Ship '%s' has unknown stat '%s'."
    [ArgS (name temp); ArgS (Some (xml_name c))].

(** The description stored for a stat list that is not empty. *)
Definition stats_description (st : list ShipStatList) : option string :=
  let '(i, buf) := ss_statsListDesc st STATS_DESC_MAX 0 in
  if i <=? 0 then None else Some buf.

(** The warning about a ship without name. *)
Definition name_warning (temp : Ship) : list event :=
  if is_null (name temp)
  then [WARN "Ship in dat/ship.xml has invalid or no name" []]
  else [].

(** Every [class] element of a ship element has text. *)
Definition class_has_text (parent : xmlNode) : Prop :=
  Forall (fun c => xml_get c <> None) (elements_named "class" parent).

(** The warning of the validator about a missing element. *)
Definition missing_warning (temp : Ship) (s : string) : event :=
  WARN (String.append "Ship '%s' missing '" (String.append s "' element"))
    [ArgS (name temp)].

(** No [movement] block of the ship element declares a thrust. *)
Definition no_thrust_declared (parent : xmlNode) : Prop :=
  Forall (fun m => elements_named "thrust" m = [])
    (elements_named "movement" parent).

(** Each slot array has as many entries as its counter says. *)
Definition slots_wf (s : Ship) : Prop :=
  0 <= outfit_nstructure s /\ 0 <= outfit_nutility s /\ 0 <= outfit_nweapon s /\
  Z.of_nat (length (outfit_structure s)) = outfit_nstructure s /\
  Z.of_nat (length (outfit_utility s)) = outfit_nutility s /\
  Z.of_nat (length (outfit_weapon s)) = outfit_nweapon s.

(** The name keys of two ships compared; 0 when a name is missing. *)
Definition name_cmp (a b : Ship) : Z :=
  match name a, name b with
  | Some x, Some y => strcmp x y
  | _, _ => 0
  end.

(** [a] is listed before [b]: higher class first, then higher price, then
    the smaller name. *)
Definition sorts_before (a b : Ship) : Prop :=
  ShipClass_value (class a) > ShipClass_value (class b) \/
  (class a = class b /\
   (price a > price b \/ (price a = price b /\ name_cmp a b < 0))).

(** [a] and [b] have the same class, price and name. *)
Definition same_keys (a b : Ship) : Prop :=
  class a = class b /\ price a = price b /\ name_cmp a b = 0.

End Vocabulary.

(** The value of a byte as an [unsigned char]. *)
Definition byte_code (c : ascii) : Z := Z.of_N (N_of_ascii c).

(** ** ctype.h and strcasecmp *)

(** [tolower] in the C locale: the 26 capital letters move to the small
    ones, every other byte stays. *)
Definition tolower (c : ascii) : ascii :=
  let n := N_of_ascii c in
  if ((65 <=? n) && (n <=? 90))%N then ascii_of_N (n + 32) else c.

(** [strcasecmp] of libc: the bytes are compared as [strcmp] compares
    them, after [tolower]. *)
Fixpoint strcasecmp (s1 s2 : string) : Z :=
  match s1, s2 with
  | String c1 r1, String c2 r2 =>
      if Ascii.eqb (tolower c1) (tolower c2)
      then (if Ascii.eqb c1 Ascii.zero then 0 else strcasecmp r1 r2)
      else Z.of_N (N_of_ascii (tolower c1)) - Z.of_N (N_of_ascii (tolower c2))
  | _, _ =>
      Z.of_N (N_of_ascii (tolower (cstr_head s1))) -
      Z.of_N (N_of_ascii (tolower (cstr_head s2)))
  end.

(** The bytes of a string after [tolower]. *)
Fixpoint lower (s : string) : string :=
  match s with
  | EmptyString => EmptyString
  | String c r => String (tolower c) (lower r)
  end.

(** ** The ship stack: ship_get, ship_getW, ship_existsCase, ship_getAll *)

Section ShipStack.

Context {world : Collaborators}.

Notation "'let*' x ':=' m 'in' k" := (bind m (fun x => k))
  (at level 10, x name, m at level 100, k at level 200).
Notation "m ';;' k" := (bind m (fun _ => k))
  (at level 100, k at level 200, right associativity).

(** The stack is the array [ships_load] made; a result that points into it
    ([&temp[i]]) is the offset [i] of the entry. *)

(** [ship_stack[i]]: the entry at offset [i] of the stack. *)
Definition ship_at (ship_stack : array Ship) (i : Z) : option Ship :=
  if i <? 0 then None else array_elems ship_stack !! Z.to_nat i.

(** The loop of [ship_get], from entry [i] on: the offset of the first
    ship called [nm].  Every ship the loop passes has its name compared by
    [strcmp], which dereferences it: a ship without name is [None]. *)
Fixpoint ship_get_loop (temp : list Ship) (i : Z) (nm : string)
    : option (option Z) :=
  match temp with
  | [] => Some None
  | s :: rest =>
      match name s with
      | None => None
      | Some n =>
          if strcmp n nm =? 0 then Some (Some i)
          else ship_get_loop rest (i + 1) nm
      end
  end.

(** Gets a ship based on its name: the offset in the stack of the ship
    matching [nm] ([&temp[i]] in C), [NULL] with a warning if not found.
    The query [nm] is a C string, not [NULL]. *)
Definition ship_get (ship_stack : array Ship) (nm : string)
    : option (W (option Z)) :=
  match ship_get_loop (array_elems ship_stack) 0 nm with
  | None => None
  | Some (Some i) => Some (ret (Some i))
  | Some None =>
      Some (tell (WARN "Ship %s does not exist" [ArgS (Some nm)]);; ret None)
  end.

(** The loop of [ship_getW]. *)
Fixpoint ship_getW_loop (temp : list Ship) (i : Z) (nm : string)
    : option (option Z) :=
  match temp with
  | [] => Some None
  | s :: rest =>
      match name s with
      | None => None
      | Some n =>
          if strcmp n nm =? 0 then Some (Some i)
          else ship_getW_loop rest (i + 1) nm
      end
  end.

(** Gets a ship based on its name without warning. *)
Definition ship_getW (ship_stack : array Ship) (nm : string)
    : option (option Z) :=
  ship_getW_loop (array_elems ship_stack) 0 nm.

(** Checks to see if a ship exists matching [nm] (case insensitive): the
    name as the stack has it, [NULL] when there is none. *)
Fixpoint ship_existsCase_loop (temp : list Ship) (nm : string)
    : option (option string) :=
  match temp with
  | [] => Some None
  | s :: rest =>
      match name s with
      | None => None
      | Some n =>
          if strcasecmp nm n =? 0 then Some (Some n)
          else ship_existsCase_loop rest nm
      end
  end.

Definition ship_existsCase (ship_stack : array Ship) (nm : string)
    : option (option string) :=
  ship_existsCase_loop (array_elems ship_stack) nm.

(** Gets all the ships: the stack, and its size in [*n]. *)
Definition ship_getAll (ship_stack : array Ship) : array Ship * Z :=
  (ship_stack, array_size ship_stack).

End ShipStack.

(** ** More concrete documents *)

#[local] Open Scope string_scope.

(** A courier with every kind of element, some of them twice, between
    blank text nodes. *)
Definition doc_courier : xmlNode :=
  elem "ship" [("name", "Courier")]
    [text " ";
     leaf "class" "Courier";
     elem "GFX" [("sx", "10")] [text "courier_a"];
     leaf "GUI" "minimal";
     leaf "sound" "engine";
     leaf "base_type" "Courier";
     leaf "price" "50000";
     leaf "price" "60000";
     leaf "license" "Courier License";
     leaf "fabricator" "Nexus";
     leaf "description" "Fast.";
     text " ";
     elem "movement" [] [leaf "thrust" "3"; leaf "turn" "180"; leaf "speed" "100"];
     elem "movement" [] [leaf "speed" "250"];
     elem "health" []
       [leaf "absorb" "20"; leaf "armour" "40"; leaf "armour_regen" "1";
        leaf "shield" "30"; leaf "shield_regen" "6"; leaf "energy" "80";
        leaf "energy_regen" "7"];
     elem "characteristics" []
       [leaf "crew" "2"; leaf "mass" "50"; leaf "cpu" "10"; leaf "fuel" "400";
        leaf "cap_cargo" "25"];
     elem "stats" [] [leaf "cargo_mod" "10"];
     elem "stats" [] [leaf "speed_mod" "5"]].

Definition parsed_courier := Eval vm_compute in parse_result doc_courier.

(** A ship element without [name] attribute. *)
Definition doc_nameless : xmlNode := elem "ship" [] [leaf "class" "Yacht"].

(** Catalogues: three named ships; a nameless ship between two named
    ones. *)
Definition catalog_fleet : xmlDoc :=
  [elem "Ships" [] [text " "; doc_drifter; doc_gunship; text " "; doc_twin]].
Definition catalog_nameless : xmlDoc :=
  [elem "Ships" [] [doc_drifter; doc_nameless; doc_twin]].

(** The loads of the catalogues in the concrete world. *)
Definition load_result (doc : xmlDoc)
    : array (@Ship sample_world) * list (@event sample_world) :=
  match @ships_load sample_world None doc with
  | Some ((_, Some stack), log) => (stack, log)
  | _ => (array_create, [])
  end.
Definition loaded_fleet := Eval vm_compute in load_result catalog_fleet.
Definition loaded_nameless := Eval vm_compute in load_result catalog_nameless.

(** A ship element whose [class] element has no text, and one whose [GFX]
    element has none; a catalogue with the first between two sound ships,
    and the catalogue of the two sound ships alone. *)
Definition doc_classless : xmlNode :=
  elem "ship" [("name", "Ghost")] [elem "class" [] []; leaf "price" "1000"].
Definition doc_gfxless : xmlNode :=
  elem "ship" [("name", "Ghost")] [leaf "class" "Yacht"; elem "GFX" [] []].
Definition catalog_classless : xmlDoc :=
  [elem "Ships" [] [doc_drifter; doc_classless; doc_twin]].
Definition catalog_sound : xmlDoc :=
  [elem "Ships" [] [doc_drifter; doc_twin]].
Definition parsed_gfxless := Eval vm_compute in parse_result doc_gfxless.
Definition loaded_sound := Eval vm_compute in load_result catalog_sound.

(** A stack of three ships of the concrete world. *)
Definition hangar : array (@Ship sample_world) := mkArray [kestrel; gawain; llama] 3.

#[local] Close Scope string_scope.

(** ** Vocabulary of the statements about the stack and the fields *)

(** The elements called [field] in the blocks called [blk] of a ship
    element, in document order. *)
Definition declared (blk field : string) (parent : xmlNode) : list xmlNode :=
  flat_map (elements_named field) (elements_named blk parent).

Section StackVocabulary.

Context {world : Collaborators}.

(** A ship has a name, and [strcmp] finds it equal to [nm]; a ship has a
    name, and [strcmp] finds it different from [nm]. *)
Definition called (nm : string) (s : Ship) : Prop :=
  exists n, name s = Some n /\ strcmp n nm = 0.
Definition not_called (nm : string) (s : Ship) : Prop :=
  exists n, name s = Some n /\ strcmp n nm <> 0.

(** Entry [i] of the stack is the first ship called [nm]. *)
Definition first_called (ship_stack : array Ship) (nm : string) (i : Z) : Prop :=
  exists pre s post,
    array_elems ship_stack = pre ++ s :: post /\ i = Z.of_nat (length pre) /\
    called nm s /\ Forall (not_called nm) pre.

(** The ship element carries the name [nm] ([strcmp] finds its [name]
    attribute equal to it). *)
Definition has_name (nm : string) (n : xmlNode) : bool :=
  match xml_nodeProp n "name" with
  | Some k => strcmp k nm =? 0
  | None => false
  end.

(** The last line of the log of a load that took [n] ships. *)
Definition loaded_line (n : Z) : event :=
  DEBUG "Loaded %d Ship%s"
    [ArgD n; ArgS (Some (if n =? 1 then EmptyString else "s"%string))].

(** The value the last of the elements [l] gives, [d] when there is none. *)
Definition last_float (l : list xmlNode) (d : float) : float :=
  List.last (map xml_getFloat l) d.
Definition last_int (l : list xmlNode) (d : Z) : Z :=
  List.last (map xml_getInt l) d.

(** The sound of a [sound] element. *)
Definition sound_of_node (n : xmlNode) : Z := sound_get (xml_get n).

(** The text of an element as a class. *)
Definition class_of_node (n : xmlNode) : ShipClass :=
  match xml_get n with
  | Some str => ship_classFromString str
  | None => SHIP_CLASS_NULL
  end.

(** The declared fields of a ship: the ship with its graphics, slots and
    stats cleared. *)
Definition scalars_of (s : Ship) : Ship :=
  set_gfx_space None (set_gfx_engine None (set_gfx_target None
    (set_gfx_store None (set_gfx_comm None (set_mangle 0%float
      (set_outfit_structure [] (set_outfit_nstructure 0
        (set_outfit_utility [] (set_outfit_nutility 0
          (set_outfit_weapon [] (set_outfit_nweapon 0
            (set_stats [] (set_stats_array ss_statsInit
              (set_desc_stats None s)))))))))))))).

(** The sprite sheet dimensions a [GFX] element gives: its [sx] and [sy]
    attributes, 8 where one is absent. *)
Definition gfx_sx (node : xmlNode) : Z :=
  match xml_nodeProp node "sx" with Some stmp => atoi stmp | None => 8 end.
Definition gfx_sy (node : xmlNode) : Z :=
  match xml_nodeProp node "sy" with Some stmp => atoi stmp | None => 8 end.

(** A [GFX] element the loader can take: it has text, and the text
    reaches an underscore or its end within [PATH_MAX] bytes. *)
Definition loadable (node : xmlNode) : bool :=
  match xml_get node with
  | Some buf => Z.of_nat (String.length (gfx_base buf)) <? PATH_MAX
  | None => false
  end.

(** The path of a graphic: [gfx/ship/<base>/<buf><suffix>.png], cut to
    [PATH_MAX - 1] bytes. *)
Definition gfx_path (buf suffix : string) : string :=
  snprintf PATH_MAX
    (String.append
       (String.append SHIP_GFX (String.append (gfx_base buf) (String.append "/" buf)))
       (String.append suffix SHIP_EXT)).

(** The space sprite loaded for the text [buf] of a [GFX] element. *)
Definition gfx_sprite (buf : string) (sx sy : Z) : glTexture :=
  let '(w, h) := npng_dim (gfx_path buf EmptyString) in
  gl_loadImagePad (gfx_path buf EmptyString) (npng_readSurface (gfx_path buf EmptyString) gl_needPOT)
    (Z.lor OPENGL_TEX_MAPTRANS OPENGL_TEX_MIPMAPS) w h sx sy.

(** The graphics of a ship that every load overwrites. *)
Definition graphics_of (s : Ship) : option glTexture * option string * float :=
  (gfx_space s, gfx_comm s, mangle s).

(** What loading the [GFX] element [node] leaves in them. *)
Definition graphics_loaded (node : xmlNode) : option glTexture * option string * float :=
  match xml_get node with
  | Some buf =>
      let space := gfx_sprite buf (gfx_sx node) (gfx_sy node) in
      (Some space, Some (gfx_path buf SHIP_COMM),
       (2 * M_PI / (tex_sx space * tex_sy space))%float)
  | None => (None, None, 0%float)
  end.

End StackVocabulary.

(** ** The second pass of a slots block within the bounds of its arrays,
    and the calls of a stats block *)

Section BlockVocabulary.

Context {world : Collaborators}.

Notation "'let*' x ':=' m 'in' k" := (bind m (fun x => k))
  (at level 10, x name, m at level 100, k at level 200).
Notation "'let*' ' p ':=' m 'in' k" := (bind m (fun x => let 'p := x in k))
  (at level 10, p pattern, m at level 100, k at level 200).

(** A computation that is undefined ([None]) once it reads or writes
    outside an allocation. *)
Definition bind_checked {A B : Type} (m : option (W A)) (k : A -> option (W B))
    : option (W B) :=
  match m with
  | None => None
  | Some (a, l1) =>
      match k a with
      | None => None
      | Some (b, l2) => Some (b, l1 ++ l2)
      end
  end.

Fixpoint xml_foreach_checked {S : Type} (body : S -> xmlNode -> option (W S))
    (nodes : list xmlNode) (s : S) : option (W S) :=
  match nodes with
  | [] => Some (ret s)
  | n :: rest =>
      bind_checked (body s n) (fun s' => xml_foreach_checked body rest s')
  end.

(** [&a[i]] points into the array [a]. *)
Definition in_array (a : list ShipOutfitSlot) (i : Z) : bool :=
  (0 <=? i) && (i <? Z.of_nat (length a)).

(** The body of the second pass over a [slots] node, as
    [ship_parse_slots_fill], with every [&temp->outfit_...[i]] inside the
    array the block allocated. *)
Definition ship_parse_slots_fill_checked (st : Ship * Z * Z * Z) (cur : xmlNode)
    : option (W (Ship * Z * Z * Z)) :=
  let '(temp, l, m, h) := st in
  if negb (xml_isStart cur) then Some (ret st)
  else
    bind_checked
      (if xml_isNode cur "structure" then
         if in_array (outfit_structure temp) l then
           Some (let* '(_, sl) := ship_parseSlot temp (slot_at (outfit_structure temp) l)
                                    OUTFIT_SLOT_STRUCTURE cur in
                 ret (set_outfit_structure (slot_store (outfit_structure temp) l sl) temp,
                      l + 1))
         else None
       else Some (ret (temp, l)))
      (fun '(temp, l) =>
    bind_checked
      (if xml_isNode cur "utility" then
         if in_array (outfit_utility temp) m then
           Some (let* '(_, sl) := ship_parseSlot temp (slot_at (outfit_utility temp) m)
                                    OUTFIT_SLOT_UTILITY cur in
                 ret (set_outfit_utility (slot_store (outfit_utility temp) m sl) temp,
                      m + 1))
         else None
       else Some (ret (temp, m)))
      (fun '(temp, m) =>
    bind_checked
      (if xml_isNode cur "weapon" then
         if in_array (outfit_weapon temp) h then
           Some (let* '(_, sl) := ship_parseSlot temp (slot_at (outfit_weapon temp) h)
                                    OUTFIT_SLOT_WEAPON cur in
                 ret (set_outfit_weapon (slot_store (outfit_weapon temp) h sl) temp,
                      h + 1))
         else None
       else Some (ret (temp, h)))
      (fun '(temp, h) => Some (ret (temp, l, m, h))))).

(** The [slots] branch of the main loop with the checked second pass. *)
Definition ship_parse_slots_checked (temp : Ship) (node : xmlNode) : option (W Ship) :=
  (* First pass, get number of mounts. *)
  bind_checked (Some (xml_foreach ship_parse_slots_count (xml_children node) temp))
    (fun temp =>
  (* Allocate the space. *)
  let temp := set_outfit_structure (calloc_slots (outfit_nstructure temp)) temp in
  let temp := set_outfit_utility (calloc_slots (outfit_nutility temp)) temp in
  let temp := set_outfit_weapon (calloc_slots (outfit_nweapon temp)) temp in
  (* Second pass, initialize the mounts. *)
  bind_checked
    (xml_foreach_checked ship_parse_slots_fill_checked (xml_children node)
       (temp, 0, 0, 0))
    (fun '(temp, _, _, _) => Some (ret temp))).

(** The entries still to fill are in the arrays: the invariant of the
    second pass. *)
Definition fill_in_bounds (st : Ship * Z * Z * Z) (cs : list xmlNode) : Prop :=
  let '(temp, l, m, h) := st in
  0 <= l /\ 0 <= m /\ 0 <= h /\
  l + Z.of_nat (length (named "structure" cs)) <= Z.of_nat (length (outfit_structure temp)) /\
  m + Z.of_nat (length (named "utility" cs)) <= Z.of_nat (length (outfit_utility temp)) /\
  h + Z.of_nat (length (named "weapon" cs)) <= Z.of_nat (length (outfit_weapon temp)).

(** The calls into the stat registry after the loop over the children of
    one [stats] block, [st] being the stat list of the ship then. *)
Definition block_calls (st : list ShipStatList) : list event :=
  CALL_ss_statsModFromList st ::
  match st with
  | [] => []
  | _ :: _ => [CALL_ss_statsListDesc st STATS_DESC_MAX]
  end.

End BlockVocabulary.

(** * The faction bindings (src/nlua_faction.c) *)

(** ** The Lua state (Lua 5.1: lua.h, lauxlib.h)

    nlua_faction.c works on a Lua state through the C API.  This is the
    part of a state its calls read and write, with the behaviour the
    reference manual and lapi.c give them: the stack of the running C
    function, the heap of tables, of full userdata and of closures, the
    registry, and the metatables of the basic types. *)

(** A C function, by its name. *)
Definition lua_CFunction : Type := string.

(** A value.  Tables, functions, full userdata and threads are
    references into the heap. *)
Inductive TValue : Type :=
| LNil
| LBoolean (b : bool)
| LLightUserdata (p : Z)
| LNumber (n : float)
| LString (s : string)
| LTable (ref : nat)
| LFunction (ref : nat)
| LUserdata (ref : nat)
| LThread (ref : nat).

(** The type tag of a value ([LUA_TNIL] ... [LUA_TTHREAD]). *)
Definition ttype (v : TValue) : Z :=
  match v with
  | LNil => 0
  | LBoolean _ => 1
  | LLightUserdata _ => 2
  | LNumber _ => 3
  | LString _ => 4
  | LTable _ => 5
  | LFunction _ => 6
  | LUserdata _ => 7
  | LThread _ => 8
  end.

(** Raw equality of two values ([luaO_rawequalObj]): numbers as C
    doubles, strings by their bytes, objects of the heap by identity. *)
Definition rawequalObj (a b : TValue) : bool :=
  match a, b with
  | LNil, LNil => true
  | LBoolean x, LBoolean y => Bool.eqb x y
  | LLightUserdata x, LLightUserdata y => x =? y
  | LNumber x, LNumber y => (x =? y)%float
  | LString x, LString y => String.eqb x y
  | LTable x, LTable y => Nat.eqb x y
  | LFunction x, LFunction y => Nat.eqb x y
  | LUserdata x, LUserdata y => Nat.eqb x y
  | LThread x, LThread y => Nat.eqb x y
  | _, _ => false
  end.

(** A table: its entries, none of them with a nil value, and its
    metatable. *)
Record Table : Type := mkTable {
  fields : list (TValue * TValue);
  metatable : option nat
}.

(** A full userdata: the [int] at the start of its block ([None] while
    the block is not written, or when it holds no [int] there), and its
    metatable. *)
Record Udata : Type := mkUdata {
  ud_int : option Z;
  ud_metatable : option nat
}.

(** A closure: a C function without upvalues, or any other function. *)
Inductive Closure : Type :=
| CClosure (f : lua_CFunction)
| OtherClosure.

Record lua_State : Type := mkState {
  stack : list TValue;          (* index 1 first, the top last *)
  tables : list Table;
  udata : list Udata;
  closures : list Closure;
  registry : Table;
  basic_mt : Z -> option nat    (* the metatable of a basic type, by tag *)
}.

(** What a call of an API function or of a binding comes to: it returns
    to its caller; it raises a Lua error ([lua_error] does not return;
    the state is the one the error leaves, before its message); or it is
    undefined, or outside this model: an index that is not acceptable, a
    read of memory that holds no [int], a metamethod that would run.
    The stack has room for the values a binding pushes ([LUA_MINSTACK]). *)
Inductive outcome (A : Type) : Type :=
| Return (a : A) (L : lua_State)
| Raise (L : lua_State)
| Undefined.
Arguments Return {A} _ _.
Arguments Raise {A} _.
Arguments Undefined {A}.

Definition lua (A : Type) : Type := lua_State -> outcome A.

Definition lret {A : Type} (a : A) : lua A := fun L => Return a L.

Definition lbind {A B : Type} (m : lua A) (k : A -> lua B) : lua B :=
  fun L =>
    match m L with
    | Return a L' => k a L'
    | Raise L' => Raise L'
    | Undefined => Undefined
    end.

(** A pointer to a userdata, as [lua_touserdata] gives it. *)
Inductive pointer : Type :=
| PUdata (ref : nat)         (* the block of a full userdata *)
| PLight (p : Z)             (* the address a light userdata holds *)
| PNull.

Definition LUA_REGISTRYINDEX : Z := -10000.

(** The place in the stack an index names: a positive index counts from
    the bottom and may lie above the top, a negative one counts from the
    top and must lie in the stack. *)
Definition stack_place (L : lua_State) (idx : Z) : option nat :=
  if 0 <? idx then Some (Z.to_nat (idx - 1))
  else if (idx <? 0) && (0 <=? Z.of_nat (length (stack L)) + idx)
       then Some (Z.to_nat (Z.of_nat (length (stack L)) + idx))
       else None.

(** The value at an index ([index2adr], without the pseudo-indices). *)
Inductive indexed : Type :=
| Valid (v : TValue)
| NoValue                    (* an acceptable index above the top *)
| BadIndex.

Definition index2adr (L : lua_State) (idx : Z) : indexed :=
  match stack_place L idx with
  | Some n =>
      match stack L !! n with
      | Some v => Valid v
      | None => NoValue
      end
  | None => BadIndex
  end.

(** Raw read and write of a table entry ([luaH_get]; [luaH_set] and the
    store of the value). *)
Fixpoint rawget (l : list (TValue * TValue)) (k : TValue) : TValue :=
  match l with
  | [] => LNil
  | (k', v) :: rest => if rawequalObj k' k then v else rawget rest k
  end.

Fixpoint rawremove (l : list (TValue * TValue)) (k : TValue) : list (TValue * TValue) :=
  match l with
  | [] => []
  | (k', v) :: rest =>
      if rawequalObj k' k then rawremove rest k else (k', v) :: rawremove rest k
  end.

Definition rawset (l : list (TValue * TValue)) (k v : TValue) : list (TValue * TValue) :=
  match v with
  | LNil => rawremove l k
  | _ => rawremove l k ++ [(k, v)]
  end.

Definition push (v : TValue) (L : lua_State) : lua_State :=
  mkState (stack L ++ [v]) (tables L) (udata L) (closures L) (registry L) (basic_mt L).

Definition set_stack (s : list TValue) (L : lua_State) : lua_State :=
  mkState s (tables L) (udata L) (closures L) (registry L) (basic_mt L).

(** [lua_pushboolean], [lua_pushnumber], [lua_pushstring] (a [NULL]
    string pushes nil). *)
Definition lua_pushboolean (b : Z) : lua unit :=
  fun L => Return tt (push (LBoolean (negb (b =? 0))) L).
Definition lua_pushnumber (n : float) : lua unit :=
  fun L => Return tt (push (LNumber n) L).
Definition lua_pushstring (s : option string) : lua unit :=
  fun L => Return tt (push (match s with Some t => LString t | None => LNil end) L).

(** [lua_pushcfunction]: a new closure of the function. *)
Definition lua_pushcfunction (f : lua_CFunction) : lua unit :=
  fun L =>
    Return tt
      (mkState (stack L ++ [LFunction (length (closures L))]) (tables L) (udata L)
         (closures L ++ [CClosure f]) (registry L) (basic_mt L)).

(** [lua_pushvalue]: a copy of the value at the index. *)
Definition lua_pushvalue (idx : Z) : lua unit :=
  fun L =>
    match index2adr L idx with
    | Valid v => Return tt (push v L)
    | NoValue => Return tt (push LNil L)
    | BadIndex => Undefined
    end.

(** [lua_settop]: the stack cut, or filled with nil, to the index. *)
Definition lua_settop (idx : Z) : lua unit :=
  fun L =>
    if 0 <=? idx then Return tt (set_stack (resize (Z.to_nat idx) LNil (stack L)) L)
    else if 0 <=? Z.of_nat (length (stack L)) + idx + 1
    then Return tt
           (set_stack (take (Z.to_nat (Z.of_nat (length (stack L)) + idx + 1)) (stack L)) L)
    else Undefined.

(** [lua_pop(L,n)] is [lua_settop(L, -(n)-1)]. *)
Definition lua_pop (n : Z) : lua unit := lua_settop (- n - 1).

(** [lua_newtable]: a new empty table, without metatable, on the top. *)
Definition lua_newtable : lua unit :=
  fun L =>
    Return tt
      (mkState (stack L ++ [LTable (length (tables L))])
         (tables L ++ [mkTable [] None]) (udata L) (closures L) (registry L)
         (basic_mt L)).

(** [lua_newuserdata]: a new full userdata on the top, without
    metatable, its block not yet written. *)
Definition lua_newuserdata : lua pointer :=
  fun L =>
    Return (PUdata (length (udata L)))
      (mkState (stack L ++ [LUserdata (length (udata L))])
         (tables L) (udata L ++ [mkUdata None None]) (closures L) (registry L)
         (basic_mt L)).

(** [*f = faction] through a pointer [lua_newuserdata] or
    [lua_touserdata] gave. *)
Definition store_int (p : pointer) (f : Z) : lua unit :=
  fun L =>
    match p with
    | PUdata r =>
        match udata L !! r with
        | Some u =>
            Return tt
              (mkState (stack L) (tables L)
                 (<[r := mkUdata (Some f) (ud_metatable u)]> (udata L))
                 (closures L) (registry L) (basic_mt L))
        | None => Undefined
        end
    | _ => Undefined
    end.

(** [p->f]. *)
Definition load_int (p : pointer) : lua Z :=
  fun L =>
    match p with
    | PUdata r =>
        match udata L !! r with
        | Some (mkUdata (Some f) _) => Return f L
        | _ => Undefined
        end
    | _ => Undefined
    end.

(** [lua_isuserdata] and [lua_touserdata]: full or light. *)
Definition lua_isuserdata (idx : Z) : lua Z :=
  fun L =>
    match index2adr L idx with
    | Valid (LUserdata _) | Valid (LLightUserdata _) => Return 1 L
    | Valid _ | NoValue => Return 0 L
    | BadIndex => Undefined
    end.
Definition lua_touserdata (idx : Z) : lua pointer :=
  fun L =>
    match index2adr L idx with
    | Valid (LUserdata r) => Return (PUdata r) L
    | Valid (LLightUserdata p) => Return (PLight p) L
    | Valid _ | NoValue => Return PNull L
    | BadIndex => Undefined
    end.

(** The metatable of a value: its own for a table and for a full
    userdata, the one of its type for the rest. *)
Definition metatable_of (L : lua_State) (v : TValue) : option nat :=
  match v with
  | LTable r => match tables L !! r with Some t => metatable t | None => None end
  | LUserdata r => match udata L !! r with Some u => ud_metatable u | None => None end
  | _ => basic_mt L (ttype v)
  end.

(** [lua_getmetatable]: pushes the metatable of the value and returns 1,
    or pushes nothing and returns 0 when it has none. *)
Definition lua_getmetatable (idx : Z) : lua Z :=
  fun L =>
    match index2adr L idx with
    | BadIndex => Undefined
    | v =>
        match metatable_of L (match v with Valid v => v | _ => LNil end) with
        | Some m => Return 1 (push (LTable m) L)
        | None => Return 0 L
        end
    end.

(** [lua_setmetatable]: pops a table or nil from the top and makes it the
    metatable of the value at the index. *)
Definition lua_setmetatable (idx : Z) : lua Z :=
  fun L =>
    match index2adr L idx, last (stack L) with
    | Valid obj, Some top =>
        let s := take (length (stack L) - 1) (stack L) in
        let set (m : option nat) : outcome Z :=
          match obj with
          | LTable r =>
              match tables L !! r with
              | Some t =>
                  Return 1
                    (mkState s (<[r := mkTable (fields t) m]> (tables L)) (udata L)
                       (closures L) (registry L) (basic_mt L))
              | None => Undefined
              end
          | LUserdata r =>
              match udata L !! r with
              | Some u =>
                  Return 1
                    (mkState s (tables L) (<[r := mkUdata (ud_int u) m]> (udata L))
                       (closures L) (registry L) (basic_mt L))
              | None => Undefined
              end
          | _ =>
              Return 1
                (mkState s (tables L) (udata L) (closures L) (registry L)
                   (fun t => if t =? ttype obj then m else basic_mt L t))
          end in
        match top with
        | LNil => set None
        | LTable m => set (Some m)
        | _ => Undefined
        end
    | _, _ => Undefined
    end.

(** [t[k]] as [lua_getfield] reads it.  An absent entry of a table with
    a metatable is left to [__index], outside this model. *)
Definition gettable (t : Table) (k : TValue) : option TValue :=
  match rawget (fields t) k, metatable t with
  | LNil, Some _ => None
  | v, _ => Some v
  end.

(** [lua_getfield]: pushes [t[k]] for the table at the index, which can
    be [LUA_REGISTRYINDEX]. *)
Definition lua_getfield (idx : Z) (k : string) : lua unit :=
  fun L =>
    let t :=
      if idx =? LUA_REGISTRYINDEX then Some (registry L)
      else match index2adr L idx with
           | Valid (LTable r) => tables L !! r
           | _ => None
           end in
    match t with
    | Some t =>
        match gettable t (LString k) with
        | Some v => Return tt (push v L)
        | None => Undefined
        end
    | None => Undefined
    end.

(** [luaL_getmetatable(L,n)] is [lua_getfield(L, LUA_REGISTRYINDEX, n)]. *)
Definition luaL_getmetatable (tname : string) : lua unit :=
  lua_getfield LUA_REGISTRYINDEX tname.

(** [t[k] = v] as [lua_setfield] writes it.  A new entry of a table with
    a metatable is left to [__newindex], outside this model. *)
Definition settable (t : Table) (k v : TValue) : option Table :=
  match rawget (fields t) k, metatable t with
  | LNil, Some _ => None
  | _, _ => Some (mkTable (rawset (fields t) k v) (metatable t))
  end.

(** [lua_setfield]: pops the value on the top into [t[k]] for the table
    at the index, which can be [LUA_REGISTRYINDEX]. *)
Definition lua_setfield (idx : Z) (k : string) : lua unit :=
  fun L =>
    match last (stack L) with
    | Some v =>
        let s := take (length (stack L) - 1) (stack L) in
        if idx =? LUA_REGISTRYINDEX then
          match settable (registry L) (LString k) v with
          | Some t =>
              Return tt (mkState s (tables L) (udata L) (closures L) t (basic_mt L))
          | None => Undefined
          end
        else
          match index2adr L idx with
          | Valid (LTable r) =>
              match tables L !! r with
              | Some t =>
                  match settable t (LString k) v with
                  | Some t' =>
                      Return tt
                        (mkState s (<[r := t']> (tables L)) (udata L) (closures L)
                           (registry L) (basic_mt L))
                  | None => Undefined
                  end
              | None => Undefined
              end
          | _ => Undefined
          end
    | None => Undefined
    end.

(** [lua_rawset(L, idx)]: [t[k] = v] without metamethods, [v] the top
    and [k] the value below it; pops both.  A nil or NaN key raises. *)
Definition lua_rawset (idx : Z) : lua unit :=
  fun L =>
    match index2adr L idx, reverse (stack L) with
    | Valid (LTable r), v :: k :: _ =>
        match tables L !! r with
        | Some t =>
            let ok :=
              match k with
              | LNil => false
              | LNumber n => (n =? n)%float
              | _ => true
              end in
            if ok then
              Return tt
                (mkState (take (length (stack L) - 2) (stack L))
                   (<[r := mkTable (rawset (fields t) k v) (metatable t)]> (tables L))
                   (udata L) (closures L) (registry L) (basic_mt L))
            else Raise L
        | None => Undefined
        end
    | _, _ => Undefined
    end.

(** [lua_rawequal]: 0 when an index has no value. *)
Definition lua_rawequal (index1 index2 : Z) : lua Z :=
  fun L =>
    match index2adr L index1, index2adr L index2 with
    | Valid a, Valid b => Return (if rawequalObj a b then 1 else 0) L
    | BadIndex, _ | _, BadIndex => Undefined
    | _, _ => Return 0 L
    end.

(** [lua_isnil]. *)
Definition lua_isnil (idx : Z) : lua Z :=
  fun L =>
    match index2adr L idx with
    | Valid LNil => Return 1 L
    | Valid _ | NoValue => Return 0 L
    | BadIndex => Undefined
    end.

(** [lua_isstring]: a string or a number. *)
Definition lua_isstring (idx : Z) : lua Z :=
  fun L =>
    match index2adr L idx with
    | Valid (LString _) | Valid (LNumber _) => Return 1 L
    | Valid _ | NoValue => Return 0 L
    | BadIndex => Undefined
    end.

(** [luaL_typerror]: raises. *)
Definition luaL_typerror {A : Type} (narg : Z) (tname : string) : lua A :=
  fun L => Raise L.

(** [luaL_newmetatable]: when the registry has an entry [tname], leaves
    it on the top and returns 0; else makes a new table, stores it
    there, leaves it on the top and returns 1. *)
Definition luaL_newmetatable (tname : string) : lua Z :=
  lbind (lua_getfield LUA_REGISTRYINDEX tname) (fun _ =>  (* get registry.name *)
  lbind (lua_isnil (-1)) (fun isnil =>
  if isnil =? 0 then lret 0                               (* name already in use? *)
  else
    lbind (lua_pop 1) (fun _ =>
    lbind lua_newtable (fun _ =>                          (* create metatable *)
    lbind (lua_pushvalue (-1)) (fun _ =>
    lbind (lua_setfield LUA_REGISTRYINDEX tname) (fun _ =>
    lret 1)))))).

(** [luaL_register(L, NULL, l)]: stores every function of [l] in the
    table on the top of the stack. *)
Fixpoint luaL_register_NULL (l : list (string * lua_CFunction)) : lua unit :=
  match l with
  | [] => lua_pop 0
  | (name, func) :: rest =>
      lbind (lua_pushcfunction func) (fun _ =>
      lbind (lua_setfield (-2) name) (fun _ =>
      luaL_register_NULL rest))
  end.

(** The results Lua takes from a C function that returned [n]: the [n]
    values on the top of its stack, the first pushed first. *)
Definition results (n : Z) (L : lua_State) : list TValue :=
  drop (length (stack L) - Z.to_nat n) (stack L).

(** ** The bindings *)

(** Of the headers and of faction.c, which are not part of the source:
    the name of the metatable in the registry; what the macro
    [NLUA_INVALID_PARAMETER] makes of the function [__func__] it ends;
    how [lua_tostring] writes a number ([lua_number2str]); and the
    faction module, [faction_getEnemies] and [faction_getAllies] as the
    [n] factions of the array they return.  A [LuaFaction] holds one
    [int], the faction [f]. *)
Class FactionModule : Type := {
  FACTION_METATABLE : string;
  NLUA_INVALID_PARAMETER : string -> lua Z;
  lua_number2str : float -> string;
  faction_get : string -> Z;
  faction_name : Z -> option string;
  faction_longname : Z -> option string;
  areEnemies : Z -> Z -> Z;
  areAllies : Z -> Z -> Z;
  faction_getPlayer : Z -> Z;
  faction_getStanding : Z -> option string;
  faction_getEnemies : Z -> list Z;
  faction_getAllies : Z -> list Z
}.

Section FactionBindings.

Context {factions : FactionModule}.

Notation "'let*' x ':=' m 'in' k" := (lbind m (fun x => k))
  (at level 10, x name, m at level 100, k at level 200).
Notation "m ';;' k" := (lbind m (fun _ => k))
  (at level 100, k at level 200, right associativity).

Definition LuaFaction : Type := Z.

(** Faction metatable methods, and the read only ones. *)
Definition faction_methods : list (string * lua_CFunction) :=
  [("__eq", "factionL_eq"); ("__tostring", "factionL_name");
   ("name", "factionL_name"); ("longname", "factionL_longname");
   ("areEnemies", "factionL_areenemies"); ("areAllies", "factionL_areallies");
   ("modPlayer", "factionL_modplayer"); ("modPlayerRaw", "factionL_modplayerraw");
   ("playerStanding", "factionL_playerstanding"); ("enemies", "factionL_enemies");
   ("allies", "factionL_allies")]%string.
Definition faction_methods_cond : list (string * lua_CFunction) :=
  [("__eq", "factionL_eq"); ("__tostring", "factionL_name");
   ("name", "factionL_name"); ("longname", "factionL_longname");
   ("areEnemies", "factionL_areenemies"); ("areAllies", "factionL_areallies");
   ("playerStanding", "factionL_playerstanding"); ("enemies", "factionL_enemies");
   ("allies", "factionL_allies")]%string.

(** Registers the faction metatable. *)
Definition factionL_createmetatable (readonly : Z) : lua Z :=
  (* Create the metatable *)
  let* _ := luaL_newmetatable FACTION_METATABLE in
  (* Create the access table *)
  lua_pushvalue (-1);;
  lua_setfield (-2) "__index";;
  (* Register the values *)
  luaL_register_NULL (if negb (readonly =? 0) then faction_methods_cond
                      else faction_methods);;
  (* Clean up. *)
  lua_pop 1;;
  lret 0.

(** Gets faction at index. *)
Definition lua_tofaction (ind : Z) : lua pointer :=
  let* ud := lua_isuserdata ind in
  if negb (ud =? 0) then lua_touserdata ind
  else luaL_typerror ind FACTION_METATABLE.

(** Pushes a faction on the stack. *)
Definition lua_pushfaction (faction : LuaFaction) : lua pointer :=
  let* f := lua_newuserdata in
  store_int f faction;;
  luaL_getmetatable FACTION_METATABLE;;
  let* _ := lua_setmetatable (-2) in
  lret f.

(** Checks to see if ind is a faction. *)
Definition lua_isfaction (ind : Z) : lua Z :=
  let* has := lua_getmetatable ind in
  if has =? 0 then lret 0
  else
    lua_getfield LUA_REGISTRYINDEX FACTION_METATABLE;;
    let* eq := lua_rawequal (-1) (-2) in
    let ret := if negb (eq =? 0) then 1 else 0 in  (* does it have the correct mt? *)
    lua_pop 2;;                                      (* remove both metatables *)
    lret ret.

(** [lua_tostring]: the string at the index, [NULL] for what is neither
    string nor number; a number is first replaced, in the stack, by the
    string [lua_number2str] makes of it. *)
Definition lua_tostring (idx : Z) : lua (option string) :=
  fun L =>
    match stack_place L idx, index2adr L idx with
    | _, Valid (LString s) => Return (Some s) L
    | Some n, Valid (LNumber x) =>
        Return (Some (lua_number2str x))
          (set_stack (<[n := LString (lua_number2str x)]> (stack L)) L)
    | _, Valid _ | _, NoValue => Return None L
    | _, BadIndex => Undefined
    end.

(** faction get( string name ): gets the faction based on its name. *)
Definition factionL_get : lua Z :=
  let* str := lua_isstring 1 in
  if negb (str =? 0) then
    let* name := lua_tostring 1 in
    match name with
    | None => fun _ => Undefined            (* faction_get(NULL) *)
    | Some name =>
        let f := faction_get name in
        if f <? 0 then lret 0
        else
          let* _ := lua_pushfaction f in
          lret 1
    end
  else NLUA_INVALID_PARAMETER "factionL_get".

(** __eq (equality) metamethod for factions. *)
Definition factionL_eq : lua Z :=
  let* a := lua_tofaction 1 in
  let* b := lua_tofaction 2 in
  let* af := load_int a in
  let* bf := load_int b in
  lua_pushboolean (if af =? bf then 1 else 0);;
  lret 1.

(** Gets the faction's name. *)
Definition factionL_name : lua Z :=
  let* f := lua_tofaction 1 in
  let* ff := load_int f in
  lua_pushstring (faction_name ff);;
  lret 1.

(** Gets the faction's long name. *)
Definition factionL_longname : lua Z :=
  let* f := lua_tofaction 1 in
  let* ff := load_int f in
  lua_pushstring (faction_longname ff);;
  lret 1.

(** Checks to see if f is an enemy. *)
Definition factionL_areenemies : lua Z :=
  let* f := lua_tofaction 1 in
  let* fac := lua_isfaction 2 in
  if negb (fac =? 0) then
    let* ff := lua_tofaction 2 in
    let* a := load_int f in
    let* b := load_int ff in
    lua_pushboolean (areEnemies a b);;
    lret 1
  else NLUA_INVALID_PARAMETER "factionL_areenemies".

(** Checks to see if f is an ally. *)
Definition factionL_areallies : lua Z :=
  let* f := lua_tofaction 1 in
  let* fac := lua_isfaction 2 in
  if negb (fac =? 0) then
    let* ff := lua_tofaction 2 in
    let* a := load_int f in
    let* b := load_int ff in
    lua_pushboolean (areAllies a b);;
    lret 1
  else NLUA_INVALID_PARAMETER "factionL_areallies".

(** Gets the player's standing with the faction. *)
Definition factionL_playerstanding : lua Z :=
  let* f := lua_tofaction 1 in
  let* ff := load_int f in
  let n := faction_getPlayer ff in
  lua_pushnumber (float_of_Z n);;
  lua_pushstring (faction_getStanding n);;
  lret 1.

(** The loop of [factionL_enemies] and [factionL_allies] over the
    factions from the [i]-th on. *)
Fixpoint push_factions (l : list Z) (i : Z) : lua unit :=
  match l with
  | [] => lret tt
  | fe :: rest =>
      lua_pushnumber (float_of_Z (i + 1));;     (* key *)
      let* _ := lua_pushfaction fe in           (* value *)
      lua_rawset (-3);;
      push_factions rest (i + 1)
  end.

(** Gets the enemies of the faction. *)
Definition factionL_enemies : lua Z :=
  let* f := lua_tofaction 1 in
  (* Push the enemies in a table. *)
  lua_newtable;;
  let* ff := load_int f in
  push_factions (faction_getEnemies ff) 0;;
  lret 1.

(** Gets the allies of the faction. *)
Definition factionL_allies : lua Z :=
  let* f := lua_tofaction 1 in
  (* Push the allies in a table. *)
  lua_newtable;;
  let* ff := load_int f in
  push_factions (faction_getAllies ff) 0;;
  lret 1.

End FactionBindings.

(** ** Vocabulary of the statements about the bindings *)

Section FactionVocabulary.

Context {factions : FactionModule}.

(** The table the registry holds under [FACTION_METATABLE], if it holds
    one. *)
Definition registered (L : lua_State) : option nat :=
  match rawget (fields (registry L)) (LString FACTION_METATABLE) with
  | LTable m => Some m
  | _ => None
  end.

(** The value has a metatable, and it is the registered one. *)
Definition is_faction (L : lua_State) (v : TValue) : bool :=
  match metatable_of L v, registered L with
  | Some mt, Some m => Nat.eqb m mt
  | _, _ => false
  end.

(** The entries of a table after [luaL_register] has stored a list of
    functions in it, the closure of the first one being the [c]-th. *)
Fixpoint register_fields (l : list (string * lua_CFunction)) (c : nat)
    (flds : list (TValue * TValue)) : list (TValue * TValue) :=
  match l with
  | [] => flds
  | (name, _) :: rest =>
      register_fields rest (S c) (rawset flds (LString name) (LFunction c))
  end.

(** The C function the field [name] of a table holds. *)
Definition method_of (L : lua_State) (t : Table) (name : string) : option lua_CFunction :=
  match rawget (fields t) (LString name) with
  | LFunction c =>
      match closures L !! c with
      | Some (CClosure f) => Some f
      | _ => None
      end
  | _ => None
  end.

End FactionVocabulary.

(** ** A concrete faction module and concrete states *)

(** Two factions, enemies of each other.  The macro is taken to write
    its message and return 0; numbers are written by a stub. *)
Definition sample_factions : FactionModule := {|
  FACTION_METATABLE := "Faction";
  NLUA_INVALID_PARAMETER := fun _ L => Return 0 L;
  lua_number2str := fun x => if (x =? 1)%float then "1"%string else "0"%string;
  faction_get := fun name =>
    if strcmp name "Empire" =? 0 then 0
    else if strcmp name "Pirate" =? 0 then 1 else -1;
  faction_name := fun f =>
    if f =? 0 then Some "Empire"%string
    else if f =? 1 then Some "Pirate"%string else None;
  faction_longname := fun f =>
    if f =? 0 then Some "Empire of Sol"%string
    else if f =? 1 then Some "Pirate clans"%string else None;
  areEnemies := fun a b => if a =? b then 0 else 1;
  areAllies := fun a b => 0;
  faction_getPlayer := fun f => if f =? 0 then 50 else -20;
  faction_getStanding := fun n =>
    Some (if n <? 0 then "Enemy"%string else "Friendly"%string);
  faction_getEnemies := fun f => if f =? 0 then [1] else [0];
  faction_getAllies := fun _ => []
|}.

(** A state with nothing in it. *)
Definition empty_state : lua_State :=
  mkState [] [] [] [] (mkTable [] None) (fun _ => None).

(** The state an outcome returns, [d] when it does not return. *)
Definition state_of {A : Type} (o : outcome A) (d : lua_State) : lua_State :=
  match o with
  | Return _ L => L
  | _ => d
  end.

(** The empty state after [factionL_createmetatable(L, 0)]: table 0 is
    the faction metatable. *)
Definition faction_state : lua_State :=
  Eval vm_compute in
  state_of (factionL_createmetatable (factions := sample_factions) 0 empty_state)
    empty_state.

(** The empire and the pirates pushed as the two arguments of a call, and
    the same with a table that carries the faction metatable, and with a
    string, as the second argument. *)
Definition two_factions : lua_State :=
  Eval vm_compute in
  state_of
    (lbind (lua_pushfaction (factions := sample_factions) 0)
       (fun _ => lua_pushfaction (factions := sample_factions) 1) faction_state)
    empty_state.

Definition faction_and_table : lua_State :=
  Eval vm_compute in
  state_of
    (lbind (lua_pushfaction (factions := sample_factions) 0) (fun _ =>
     lbind lua_newtable (fun _ =>
     lbind (luaL_getmetatable "Faction") (fun _ =>
     lua_setmetatable (-2)))) faction_state)
    empty_state.

Definition faction_and_string : lua_State :=
  Eval vm_compute in
  state_of
    (lbind (lua_pushfaction (factions := sample_factions) 0)
       (fun _ => lua_pushstring (Some "Pirate"%string)) faction_state)
    empty_state.

(** The name of a faction as the argument of a call. *)
Definition name_pushed (name : string) : lua_State :=
  push (LString name) faction_state.

(** * Properties *)

(** ** strcmp *)

Lemma byte_code_inj (a b : ascii) : byte_code a = byte_code b -> a = b.
Proof.
  unfold byte_code. intros H. apply N2Z.inj in H.
  rewrite <- (ascii_N_embedding a), <- (ascii_N_embedding b). now rewrite H.
Qed.

Lemma byte_code_zero (c : ascii) : byte_code c = 0 <-> c = Ascii.zero.
Proof.
  split; intros H.
  - apply byte_code_inj. exact H.
  - subst c. reflexivity.
Qed.

Lemma strcmp_unfold (s1 s2 : string) :
  strcmp s1 s2 =
  if Ascii.eqb (cstr_head s1) (cstr_head s2)
  then (if Ascii.eqb (cstr_head s1) Ascii.zero then 0
        else match s1, s2 with
             | String _ r1, String _ r2 => strcmp r1 r2
             | _, _ => 0
             end)
  else byte_code (cstr_head s1) - byte_code (cstr_head s2).
Proof.
  unfold byte_code.
  destruct s1 as [|c1 r1], s2 as [|c2 r2]; cbn [strcmp cstr_head].
  - reflexivity.
  - destruct (Ascii.eqb_spec Ascii.zero c2) as [<-|]; reflexivity.
  - destruct (Ascii.eqb_spec c1 Ascii.zero) as [->|]; reflexivity.
  - reflexivity.
Qed.

(** Case analysis on the byte tests of a goal about [strcmp]. *)
Ltac byte_cases :=
  repeat match goal with
    | |- context [Ascii.eqb ?x ?y] =>
        destruct (Ascii.eqb_spec x y); subst
    | H : context [Ascii.eqb ?x ?y] |- _ =>
        destruct (Ascii.eqb_spec x y); subst
    end.

Ltac byte_facts :=
  repeat match goal with
    | H : ?x <> ?y :> ascii |- _ =>
        assert (byte_code x <> byte_code y)
          by (intros ?; apply H; now apply byte_code_inj);
        clear H
    end;
  change (byte_code Ascii.zero) with 0 in *.

Lemma byte_code_range (c : ascii) : 0 <= byte_code c < 256.
Proof.
  unfold byte_code. pose proof (N_ascii_bounded c). lia.
Qed.

Ltac byte_ranges :=
  repeat match goal with
    | |- context [byte_code ?c] =>
        lazymatch goal with
        | _ : 0 <= byte_code c < 256 |- _ => fail
        | _ => pose proof (byte_code_range c)
        end
    | _ : context [byte_code ?c] |- _ =>
        lazymatch goal with
        | _ : 0 <= byte_code c < 256 |- _ => fail
        | _ => pose proof (byte_code_range c)
        end
    end.

Lemma strcmp_refl (s : string) : strcmp s s = 0.
Proof.
  induction s as [|c r IH]; [reflexivity|].
  cbn [strcmp]. rewrite Ascii.eqb_refl. now destruct (Ascii.eqb c Ascii.zero).
Qed.

Lemma strcmp_antisym (a b : string) : strcmp a b = - strcmp b a.
Proof.
  revert b. induction a as [|c1 r1 IH]; intros b;
    rewrite (strcmp_unfold _ b), (strcmp_unfold b);
    destruct b as [|c2 r2]; cbn [cstr_head];
    byte_cases; byte_facts; try lia; try congruence; apply IH.
Qed.

Lemma strcmp_trans_le (a b c : string) :
  strcmp a b <= 0 -> strcmp b c <= 0 -> strcmp a c <= 0.
Proof.
  revert b c. induction a as [|c1 r1 IH]; intros b c;
    rewrite (strcmp_unfold _ b), (strcmp_unfold b c), (strcmp_unfold _ c);
    destruct b as [|c2 r2], c as [|c3 r3]; cbn [cstr_head];
    byte_cases; byte_facts; byte_ranges; try lia; try congruence; apply IH.
Qed.

Lemma strcmp_eq_0_cong (a b c : string) :
  strcmp a b = 0 -> strcmp a c = strcmp b c.
Proof.
  revert b c. induction a as [|c1 r1 IH]; intros b c;
    rewrite (strcmp_unfold _ b), (strcmp_unfold b c), (strcmp_unfold _ c);
    destruct b as [|c2 r2], c as [|c3 r3]; cbn [cstr_head];
    byte_cases; byte_facts; byte_ranges; try lia; try congruence; apply IH.
Qed.

Lemma strcmp_eq_0_cstring (a b : string) :
  cstring a -> cstring b -> strcmp a b = 0 -> a = b.
Proof.
  revert b. induction a as [|c1 r1 IH]; intros b Ha Hb;
    rewrite (strcmp_unfold _ b);
    destruct b as [|c2 r2]; cbn [cstring cstr_head] in *.
  - reflexivity.
  - destruct Hb as [Hc2 _]. byte_cases; byte_facts; try congruence; lia.
  - destruct Ha as [Hc1 _]. byte_cases; byte_facts; try congruence; lia.
  - destruct Ha as [Hc1 Ha], Hb as [Hc2 Hb].
    byte_cases; byte_facts; try congruence; try lia.
    intros Hs. f_equal. now apply IH.
Qed.

Lemma strcmp_trans_lt (a b c : string) :
  strcmp a b < 0 -> strcmp b c <= 0 -> strcmp a c < 0.
Proof.
  intros Hab Hbc.
  assert (Hac : strcmp a c <= 0) by (apply (strcmp_trans_le a b c); lia).
  destruct (Z.eq_dec (strcmp a c) 0) as [H0|]; [|lia].
  assert (Hca : strcmp c a = 0) by (rewrite strcmp_antisym; lia).
  pose proof (strcmp_eq_0_cong c a b Hca) as H.
  rewrite (strcmp_antisym c b) in H. lia.
Qed.



Lemma byte_compare (c1 c2 : ascii) :
  (byte_code c1 - byte_code c2 ?= 0) = Ascii.compare c1 c2.
Proof.
  unfold Ascii.compare, byte_code.
  destruct (N.compare_spec (N_of_ascii c1) (N_of_ascii c2));
    destruct (Z.compare_spec (Z.of_N (N_of_ascii c1) - Z.of_N (N_of_ascii c2)) 0);
    solve [reflexivity | lia].
Qed.

(** On C strings the sign of [strcmp] is the lexicographic comparison of
    the bytes. *)
Lemma strcmp_lexicographic (a b : string) :
  cstring a -> cstring b -> (strcmp a b ?= 0) = String.compare a b.
Proof.
  revert b. induction a as [|c1 r1 IH]; intros b Ha Hb;
    rewrite (strcmp_unfold _ b);
    destruct b as [|c2 r2]; cbn [cstring cstr_head String.compare] in *.
  - reflexivity.
  - destruct Hb as [Hc2 _].
    destruct (Ascii.eqb_spec Ascii.zero c2) as [E|E]; [congruence|].
    rewrite byte_compare. unfold Ascii.compare.
    change (N_of_ascii Ascii.zero) with 0%N.
    destruct (N_of_ascii c2) eqn:Ec; [|reflexivity].
    exfalso. apply E. rewrite <- (ascii_N_embedding c2), Ec. reflexivity.
  - destruct Ha as [Hc1 _].
    destruct (Ascii.eqb_spec c1 Ascii.zero) as [E|E]; [congruence|].
    rewrite byte_compare. unfold Ascii.compare.
    change (N_of_ascii Ascii.zero) with 0%N.
    destruct (N_of_ascii c1) eqn:Ec; [|reflexivity].
    exfalso. apply E. rewrite <- (ascii_N_embedding c1), Ec. reflexivity.
  - destruct Ha as [Hc1 Ha], Hb as [Hc2 Hb].
    destruct (Ascii.eqb_spec c1 c2) as [E|E].
    + subst c2. destruct (Ascii.eqb_spec c1 Ascii.zero) as [E|E]; [congruence|].
      unfold Ascii.compare. rewrite N.compare_refl. now apply IH.
    + rewrite byte_compare.
      destruct (Ascii.compare c1 c2) eqn:Ec; try reflexivity.
      exfalso. apply E. unfold Ascii.compare in Ec. apply N.compare_eq in Ec.
      rewrite <- (ascii_N_embedding c1), <- (ascii_N_embedding c2), Ec.
      reflexivity.
Qed.

(** ** Element names *)

Lemma xml_isNode_isStart n a : xml_isNode n a = true -> xml_isStart n = true.
Proof. unfold xml_isNode. now intros [H _]%andb_true_iff. Qed.

(** An element has one name. *)
Lemma xml_isNode_excl n a b :
  xml_isNode n a = true -> strcmp a b <> 0 -> xml_isNode n b = false.
Proof.
  unfold xml_isNode. intros [Hs Ha]%andb_true_iff Hab.
  apply Z.eqb_eq in Ha. rewrite Hs. cbn.
  apply Z.eqb_neq. now rewrite (strcmp_eq_0_cong _ _ b Ha).
Qed.

(** Rewrites the tests of the other names once [H] names the element. *)
Ltac other_names H :=
  repeat match goal with
    | |- context [xml_isNode ?n ?b] =>
        rewrite (xml_isNode_excl n _ b H) by (vm_compute; discriminate)
    end.

(** ** Tactics *)

(** Unfolds [ship_parseSlot] and splits on every attribute it reads. *)
Ltac parseSlot_cases :=
  unfold ship_parseSlot;
  repeat (match goal with
    | |- context [match xml_nodeProp ?n ?a with _ => _ end] =>
        destruct (xml_nodeProp n a) eqn:?
    | |- context [match xml_get ?n with _ => _ end] =>
        destruct (xml_get n) eqn:?
    | |- context [match outfit_get ?b with _ => _ end] =>
        destruct (outfit_get b) eqn:?
    end; cbn).

(** Splits on every test of a simple loop body. *)
Ltac body_cases :=
  repeat match goal with
    | |- context [if negb (xml_isStart ?n) then _ else _] =>
        destruct (xml_isStart n) eqn:?; cbn [negb]
    | |- context [if xml_isNode ?n ?a then _ else _] =>
        destruct (xml_isNode n a) eqn:?
    | |- context [match ss_listFromXML ?n with _ => _ end] =>
        destruct (ss_listFromXML n) eqn:?
    end.

(** Computes the fields of a ship written as assignments to a record,
    innermost assignment first. *)
Ltac ship_fields :=
  cbv beta iota delta
    [set_name set_base_type set_class set_price set_license set_fabricator
     set_description set_thrust set_turn set_speed set_gfx_space set_gfx_engine
     set_gfx_target set_gfx_store set_gfx_comm set_gui set_sound set_armour
     set_armour_regen set_shield set_shield_regen set_energy set_energy_regen
     set_dmg_absorb set_crew set_mass set_cpu set_fuel set_cap_cargo set_mangle
     set_outfit_structure set_outfit_nstructure set_outfit_utility
     set_outfit_nutility set_outfit_weapon set_outfit_nweapon set_stats
     set_stats_array set_desc_stats name base_type class price license
     fabricator description thrust turn speed gfx_space gfx_engine gfx_target
     gfx_store gfx_comm gui sound armour armour_regen shield shield_regen
     energy energy_regen dmg_absorb crew mass cpu fuel cap_cargo mangle
     outfit_structure outfit_nstructure outfit_utility outfit_nutility
     outfit_weapon outfit_nweapon stats stats_array desc_stats].

Section ShipLoaderFacts.

Context {world : Collaborators}.

Notation "'let*' x ':=' m 'in' k" := (bind m (fun x => k))
  (at level 10, x name, m at level 100, k at level 200).
Notation "'let*' ' p ':=' m 'in' k" := (bind m (fun x => let 'p := x in k))
  (at level 10, p pattern, m at level 100, k at level 200).
Notation "m ';;' k" := (bind m (fun _ => k))
  (at level 100, k at level 200, right associativity).

(** ** ship_basePrice *)

(** C10: [ship_basePrice] returns the stored price when it is not negative,
    and 0 after one warning when it is negative; the value returned is
    never negative and the ship, its price included, is left as it was. *)
Theorem ship_basePrice_spec (s : Ship) :
  (0 <= price s -> ship_basePrice s = ((price s, s), [])) /\
  (price s < 0 ->
   ship_basePrice s = ((0, s), [WARN "Negative ship base price!" []])) /\
  0 <= fst (fst (ship_basePrice s)) /\
  snd (fst (ship_basePrice s)) = s.
Proof.
  unfold ship_basePrice.
  destruct (Z.ltb_spec (price s) 0) as [Hneg | Hpos]; cbn.
  - repeat split; try reflexivity; lia.
  - repeat split; try reflexivity; lia.
Qed.

(** ** ship_class and ship_classFromString *)

(** X3: the display string of a class reads back as the class. *)
Theorem ship_class_roundtrip (s : Ship) :
  ship_classFromString (ship_class s) = class s.
Proof. unfold ship_class. destruct (class s); reflexivity. Qed.

(** ** ship_parseSlot *)

#[local] Arguments xml_nodeProp : simpl never.
#[local] Arguments xml_get : simpl never.
#[local] Arguments xml_isNode : simpl never.
#[local] Arguments xml_isStart : simpl never.

(** The slot and the log of [ship_parseSlot], field by field. *)
Lemma ship_parseSlot_eq temp sl type node :
  ship_parseSlot temp sl type node =
  ((0,
    {| slot :=
         {| property :=
              match xml_nodeProp node "prop" with
              | Some p => Some p
              | None => xml_nodeProp node "prop_exc"
              end;
            exclusive :=
              match xml_nodeProp node "prop_exc", xml_nodeProp node "prop" with
              | Some _, None => 1
              | _, _ => exclusive (slot sl)
              end;
            slot_type := type;
            size :=
              match xml_nodeProp node "size" with
              | Some buf => outfit_toSlotSize buf
              | None =>
                  if class_is temp SHIP_CLASS_BULK_CARRIER ||
                     class_is temp SHIP_CLASS_CRUISER ||
                     class_is temp SHIP_CLASS_CARRIER ||
                     class_is temp SHIP_CLASS_MOTHERSHIP
                  then OUTFIT_SLOT_SIZE_HEAVY
                  else if class_is temp SHIP_CLASS_CRUISE_SHIP ||
                          class_is temp SHIP_CLASS_FREIGHTER ||
                          class_is temp SHIP_CLASS_DESTROYER ||
                          class_is temp SHIP_CLASS_CORVETTE ||
                          class_is temp SHIP_CLASS_HEAVY_DRONE ||
                          class_is temp SHIP_CLASS_ARMOURED_TRANSPORT
                  then OUTFIT_SLOT_SIZE_MEDIUM
                  else OUTFIT_SLOT_SIZE_LIGHT
              end |};
       required :=
         match xml_nodeProp node "required" with
         | Some _ => 1
         | None => required sl
         end;
       mount :=
         match type with
         | OUTFIT_SLOT_WEAPON =>
             {| mount_x := match xml_nodeProp node "x" with
                           | Some buf => atof buf
                           | None => mount_x (mount sl)
                           end;
                mount_y := match xml_nodeProp node "y" with
                           | Some buf => (atof buf * M_SQRT2)%float
                           | None => mount_y (mount sl)
                           end;
                mount_h := match xml_nodeProp node "h" with
                           | Some buf => atof buf
                           | None => mount_h (mount sl)
                           end |}
         | _ => mount sl
         end;
       data :=
         match xml_get node with
         | Some buf => outfit_get buf
         | None => data sl
         end |}),
   mount_warnings temp type node ++
   match xml_nodeProp node "prop_exc", xml_nodeProp node "prop" with
   | Some _, Some _ => [conflict_warning temp]
   | _, _ => []
   end ++
   outfit_warnings temp node).
Proof.
  unfold mount_warnings, outfit_warnings, conflict_warning, mount_warning.
  destruct sl as [[p e t z] r [mx my mh] d].
  destruct type; parseSlot_cases; reflexivity.
Qed.

Lemma ship_parseSlot_returns_0 temp sl type node :
  fst (fst (ship_parseSlot temp sl type node)) = 0.
Proof. now rewrite ship_parseSlot_eq. Qed.

Lemma ship_parseSlot_type temp sl type node :
  slot_type (slot (snd (fst (ship_parseSlot temp sl type node)))) = type.
Proof. now rewrite ship_parseSlot_eq. Qed.

(** C3: without a [size] attribute the slot gets the size its ship's class
    stands for: heavy exactly for the four heavy classes, medium exactly
    for the six medium classes, light for every other class, the null
    class included; the call returns 0 on every path. *)
Theorem ship_parseSlot_infers_size temp sl type node :
  xml_nodeProp node "size" = None ->
  let parsed := ship_parseSlot temp sl type node in
  let sz := size (slot (snd (fst parsed))) in
  fst (fst parsed) = 0 /\
  (sz = OUTFIT_SLOT_SIZE_HEAVY <-> In (class temp) heavy_classes) /\
  (sz = OUTFIT_SLOT_SIZE_MEDIUM <-> In (class temp) medium_classes) /\
  (sz = OUTFIT_SLOT_SIZE_LIGHT <->
   ~ In (class temp) (heavy_classes ++ medium_classes)) /\
  (class temp = SHIP_CLASS_NULL -> sz = OUTFIT_SLOT_SIZE_LIGHT).
Proof.
  intros Hsize parsed sz. subst parsed sz.
  rewrite ship_parseSlot_eq. cbn [fst snd slot size]. rewrite Hsize.
  unfold class_is, ShipClass_eqb, heavy_classes, medium_classes.
  destruct (class temp); cbn; intuition congruence.
Qed.

(** C5 (as amended): a slot node with both [prop] and [prop_exc] keeps the
    [prop] value with [exclusive] left at 0 and drops the [prop_exc] value;
    the log of the call holds the warning about the conflict exactly once,
    after the warnings about missing mount attributes of a weapon slot and
    before the warning about an unknown default outfit, and it is the only
    warning when there are none of those. *)
Theorem ship_parseSlot_prop_conflict temp type node (p e : string) :
  xml_nodeProp node "prop" = Some p ->
  xml_nodeProp node "prop_exc" = Some e ->
  let parsed := ship_parseSlot temp ShipOutfitSlot_zero type node in
  property (slot (snd (fst parsed))) = Some p /\
  exclusive (slot (snd (fst parsed))) = 0 /\
  snd parsed =
    mount_warnings temp type node ++ [conflict_warning temp] ++
    outfit_warnings temp node /\
  length (List.filter is_conflict_warning (snd parsed)) = 1%nat /\
  (mount_warnings temp type node = [] -> outfit_warnings temp node = [] ->
   snd parsed = [conflict_warning temp]).
Proof.
  intros Hp He parsed. subst parsed.
  rewrite ship_parseSlot_eq. cbn [fst snd slot property exclusive].
  rewrite Hp, He.
  split; [reflexivity|]. split; [reflexivity|]. split; [reflexivity|]. split.
  - unfold mount_warnings, outfit_warnings, conflict_warning, mount_warning.
    destruct type; cbn;
      repeat match goal with
        | |- context [is_null ?x] => destruct x; cbn
        | |- context [match xml_get ?n with _ => _ end] => destruct (xml_get n); cbn
        end; reflexivity.
  - intros Hm Ho. rewrite Hm, Ho. reflexivity.
Qed.

(** C6: the parsed slot is required exactly when the node carries a
    [required] attribute, whatever its text. *)
Theorem ship_parseSlot_required_presence temp type node :
  let r := required (snd (fst (ship_parseSlot temp ShipOutfitSlot_zero type node))) in
  (forall v, xml_nodeProp node "required" = Some v -> r = 1) /\
  (xml_nodeProp node "required" = None -> r = 0) /\
  (r <> 0 <-> xml_nodeProp node "required" <> None).
Proof.
  intros r. subst r. rewrite ship_parseSlot_eq. cbn [fst snd required].
  destruct (xml_nodeProp node "required"); cbn; repeat split;
    intros; try congruence; try lia; try discriminate.
Qed.

(** C7: a weapon slot without [y] attribute keeps the zero [y] of the
    cleared slot and one warning says so; a [y] attribute is read and
    scaled by the square root of 2, and [x] and [h] are read without any
    scaling. *)
Theorem ship_parseSlot_weapon_mount temp node :
  let parsed := ship_parseSlot temp ShipOutfitSlot_zero OUTFIT_SLOT_WEAPON node in
  let m := mount (snd (fst parsed)) in
  (xml_nodeProp node "y" = None ->
   mount_y m = 0%float /\ In (mount_warning temp "y") (snd parsed)) /\
  (forall buf, xml_nodeProp node "y" = Some buf ->
   mount_y m = (atof buf * M_SQRT2)%float /\ ~ In (mount_warning temp "y") (snd parsed)) /\
  mount_x m = match xml_nodeProp node "x" with
              | Some buf => atof buf
              | None => 0%float
              end /\
  mount_h m = match xml_nodeProp node "h" with
              | Some buf => atof buf
              | None => 0%float
              end.
Proof.
  intros parsed m. subst parsed m.
  rewrite ship_parseSlot_eq. cbn [fst snd mount mount_x mount_y mount_h].
  split; [|split; [|split; reflexivity]].
  - intros Hy. rewrite Hy. split; [reflexivity|].
    unfold mount_warnings. rewrite Hy. cbn [is_null].
    apply in_or_app. left. apply in_or_app. right. apply in_or_app. left.
    now left.
  - intros buf Hy. rewrite Hy. split; [reflexivity|].
    unfold mount_warnings, outfit_warnings, conflict_warning, mount_warning.
    rewrite Hy. cbn [is_null].
    intros Hin.
    repeat match type of Hin with
      | In _ (_ ++ _) => apply in_app_or in Hin; destruct Hin as [Hin|Hin]
      | In _ (if ?b then _ else _) => destruct b; cbn in Hin
      | In _ (match ?x with _ => _ end) => destruct x; cbn in Hin
      | _ \/ _ => destruct Hin as [Hin|Hin]
      | _ = _ => discriminate Hin
      | False => contradiction
      | In _ [] => contradiction
      | In _ (_ :: _) => cbn in Hin
      end.
Qed.

(** ** The log monad and the loops *)

Lemma bind_eta {A B : Type} (m : W A) (k : A -> W B) :
  bind m k = (fst (k (fst m)), snd m ++ snd (k (fst m))).
Proof. unfold bind. destruct m as [a l1]. cbn. now destruct (k a). Qed.

Lemma fst_bind {A B : Type} (m : W A) (k : A -> W B) :
  fst (bind m k) = fst (k (fst m)).
Proof. now rewrite bind_eta. Qed.

Lemma snd_bind {A B : Type} (m : W A) (k : A -> W B) :
  snd (bind m k) = snd m ++ snd (k (fst m)).
Proof. now rewrite bind_eta. Qed.

Lemma xml_foreach_cons {S : Type} (body : S -> xmlNode -> W S) n l s :
  xml_foreach body (n :: l) s =
  (fst (xml_foreach body l (fst (body s n))),
   snd (body s n) ++ snd (xml_foreach body l (fst (body s n)))).
Proof. cbn [xml_foreach]. apply bind_eta. Qed.

Lemma xml_foreach_app {S : Type} (body : S -> xmlNode -> W S) l1 l2 s :
  xml_foreach body (l1 ++ l2) s =
  (fst (xml_foreach body l2 (fst (xml_foreach body l1 s))),
   snd (xml_foreach body l1 s) ++
   snd (xml_foreach body l2 (fst (xml_foreach body l1 s)))).
Proof.
  revert s. induction l1 as [|n l1 IH]; intros s.
  - cbn. now destruct (xml_foreach body l2 s).
  - rewrite <- app_comm_cons, !xml_foreach_cons, IH. cbn [fst snd].
    now rewrite app_assoc.
Qed.

(** A part of the state that the body leaves alone is left alone by the
    loop. *)
Lemma xml_foreach_frame {S A : Type} (f : S -> A) (body : S -> xmlNode -> W S)
    (P : xmlNode -> Prop) :
  (forall s n, P n -> f (fst (body s n)) = f s) ->
  forall l s, Forall P l -> f (fst (xml_foreach body l s)) = f s.
Proof.
  intros Hbody l. induction l as [|n l IH]; intros s Hl; [reflexivity|].
  rewrite xml_foreach_cons. cbn [fst].
  inversion Hl; subst. rewrite IH by assumption. now apply Hbody.
Qed.

(** A log of the loop holds events of the bodies only. *)
Lemma xml_foreach_log {S : Type} (Q : event -> Prop) (body : S -> xmlNode -> W S)
    (P : xmlNode -> Prop) :
  (forall s n, P n -> Forall Q (snd (body s n))) ->
  forall l s, Forall P l -> Forall Q (snd (xml_foreach body l s)).
Proof.
  intros Hbody l. induction l as [|n l IH]; intros s Hl; [constructor|].
  rewrite xml_foreach_cons. cbn [snd]. inversion Hl; subst.
  apply Forall_app. split; [now apply Hbody | now apply IH].
Qed.

Lemma Forall_True {A : Type} (l : list A) : Forall (fun _ => True) l.
Proof. induction l; constructor; auto. Qed.

(** ** The branches of the main loop *)

(** Case analysis on the element [ship_parse_node] is given: one premise
    per branch of the C loop body. *)
Lemma ship_parse_node_cases (temp : Ship) (node : xmlNode) (Q : W Ship -> Prop) :
  (xml_isStart node = false -> Q (ret temp)) ->
  (xml_isNode node "GFX" = true -> xml_get node = None ->
   Q (tell (WARN "Ship '%s': GFX element is NULL" [ArgS (name temp)]);; ret temp)) ->
  (xml_isNode node "GFX" = true -> forall buf sx sy,
   Q (let* '(_, temp) := ship_loadGFX temp buf sx sy in ret temp)) ->
  (xml_isNode node "GUI" = true -> Q (ret (set_gui (xml_getStrd node) temp))) ->
  (xml_isNode node "sound" = true ->
   Q (ret (set_sound (sound_get (xml_get node)) temp))) ->
  (xml_isNode node "base_type" = true ->
   Q (ret (set_base_type (xml_getStrd node) temp))) ->
  (xml_isNode node "class" = true -> Q (ret temp)) ->
  (xml_isNode node "price" = true -> Q (ret (set_price (xml_getLong node) temp))) ->
  (xml_isNode node "license" = true ->
   Q (ret (set_license (xml_getStrd node) temp))) ->
  (xml_isNode node "fabricator" = true ->
   Q (ret (set_fabricator (xml_getStrd node) temp))) ->
  (xml_isNode node "description" = true ->
   Q (ret (set_description (xml_getStrd node) temp))) ->
  (xml_isNode node "movement" = true ->
   Q (xml_foreach ship_parse_movement (xml_children node) temp)) ->
  (xml_isNode node "health" = true ->
   Q (xml_foreach ship_parse_health (xml_children node) temp)) ->
  (xml_isNode node "characteristics" = true ->
   Q (xml_foreach ship_parse_characteristics (xml_children node) temp)) ->
  (xml_isNode node "slots" = true -> Q (ship_parse_slots temp node)) ->
  (xml_isNode node "stats" = true -> Q (ship_parse_stats temp node)) ->
  (xml_isStart node = true ->
   Q (tell (DEBUG "Ship '%s' has unknown node '%s'."
              [ArgS (name temp); ArgS (Some (xml_name node))]);; ret temp)) ->
  Q (ship_parse_node temp node).
Proof.
  intros Hskip Hgfx0 Hgfx Hgui Hsound Hbase Hclass Hprice Hlic Hfab Hdesc
    Hmov Hhealth Hchar Hslots Hstats Hunknown.
  unfold ship_parse_node.
  destruct (xml_isStart node) eqn:Hstart; cbn [negb]; [|now apply Hskip].
  destruct (xml_isNode node "GFX") eqn:E.
  { destruct (xml_get node) eqn:G; [now apply Hgfx | now apply Hgfx0]. }
  repeat match goal with
    | |- Q (if xml_isNode node ?a then _ else _) =>
        let E := fresh "E" in destruct (xml_isNode node a) eqn:E; [auto; fail|]
    end.
  now apply Hunknown.
Qed.

(** An event that is no call into the stat registry. *)
Definition no_call (e : event) : Prop := is_call e = false.

Lemma calls_nil (log : list event) : Forall no_call log -> calls log = [].
Proof.
  unfold calls. induction 1 as [|e l He _ IH]; [reflexivity|].
  cbn. now rewrite He.
Qed.

Lemma calls_app (l1 l2 : list event) : calls (l1 ++ l2) = calls l1 ++ calls l2.
Proof. unfold calls. apply List.filter_app. Qed.

(** What the graphics loader leaves alone. *)
Lemma ship_loadGFX_frame temp buf sx sy :
  let r := let* '(_, temp) := ship_loadGFX temp buf sx sy in ret temp in
  ident_of (fst r) = ident_of temp /\ slots_of (fst r) = slots_of temp /\
  stats_of (fst r) = stats_of temp /\
  thrust (fst r) = thrust temp /\ mass (fst r) = mass temp /\
  Forall no_call (snd r).
Proof.
  unfold ship_loadGFX, ship_genTargetGFX.
  destruct (PATH_MAX <=? _); [cbn; repeat split; repeat constructor|].
  destruct (npng_dim _) as [w h].
  destruct (SDL_targetSurfaces _ _ _ _) as [[gfx gfx_store_surface]|];
    destruct (conf_engineglow && conf_interpolate); cbn;
    try destruct (gl_newSprite _ _ _ _); cbn;
    repeat split; repeat constructor.
Qed.

(** The loops over [movement], [health] and [characteristics] touch
    neither identity, slots nor stats, and call nothing. *)
Lemma ship_parse_movement_frame l temp :
  let r := xml_foreach ship_parse_movement l temp in
  ident_of (fst r) = ident_of temp /\ slots_of (fst r) = slots_of temp /\
  stats_of (fst r) = stats_of temp /\ mass (fst r) = mass temp /\
  Forall no_call (snd r).
Proof.
  cbn zeta. repeat split.
  1-4: apply xml_foreach_frame with (P := fun _ => True); [|apply Forall_True];
       intros s n _; unfold ship_parse_movement; body_cases; reflexivity.
  apply xml_foreach_log with (P := fun _ => True); [|apply Forall_True].
  intros s n _; unfold ship_parse_movement; body_cases; repeat constructor.
Qed.

Lemma ship_parse_health_frame l temp :
  let r := xml_foreach ship_parse_health l temp in
  ident_of (fst r) = ident_of temp /\ slots_of (fst r) = slots_of temp /\
  stats_of (fst r) = stats_of temp /\
  thrust (fst r) = thrust temp /\ mass (fst r) = mass temp /\
  Forall no_call (snd r).
Proof.
  cbn zeta. repeat split.
  1-5: apply xml_foreach_frame with (P := fun _ => True); [|apply Forall_True];
       intros s n _; unfold ship_parse_health; body_cases; reflexivity.
  apply xml_foreach_log with (P := fun _ => True); [|apply Forall_True].
  intros s n _; unfold ship_parse_health; body_cases; repeat constructor.
Qed.

Lemma ship_parse_characteristics_frame l temp :
  let r := xml_foreach ship_parse_characteristics l temp in
  ident_of (fst r) = ident_of temp /\ slots_of (fst r) = slots_of temp /\
  stats_of (fst r) = stats_of temp /\ thrust (fst r) = thrust temp /\
  Forall no_call (snd r).
Proof.
  cbn zeta. repeat split.
  1-4: apply xml_foreach_frame with (P := fun _ => True); [|apply Forall_True];
       intros s n _; unfold ship_parse_characteristics; body_cases; reflexivity.
  apply xml_foreach_log with (P := fun _ => True); [|apply Forall_True].
  intros s n _; unfold ship_parse_characteristics; body_cases; repeat constructor.
Qed.

(** ** The slots block *)

Lemma ship_parseSlot_ext temp temp' sl type node :
  ident_of temp = ident_of temp' ->
  ship_parseSlot temp sl type node = ship_parseSlot temp' sl type node.
Proof.
  unfold ident_of. intros [= Hn Hc]. unfold ship_parseSlot, class_is.
  now rewrite Hn, Hc.
Qed.

Lemma parsed_slot_ext temp temp' type node :
  ident_of temp = ident_of temp' ->
  parsed_slot temp type node = parsed_slot temp' type node.
Proof.
  intros H. unfold parsed_slot. now rewrite (ship_parseSlot_ext temp temp').
Qed.

Lemma ship_parseSlot_no_call temp sl type node :
  Forall no_call (snd (ship_parseSlot temp sl type node)).
Proof.
  rewrite ship_parseSlot_eq. cbn [snd].
  unfold mount_warnings, outfit_warnings, conflict_warning, mount_warning.
  repeat apply Forall_app_2;
    repeat match goal with
      | |- context [match ?x with _ => _ end] => destruct x
      | |- context [if ?b then _ else _] => destruct b
      end; repeat constructor.
Qed.

Lemma named_cons tag c l :
  named tag (c :: l) = if xml_isNode c tag then c :: named tag l else named tag l.
Proof. reflexivity. Qed.

Lemma xml_isNode_not_start c tag : xml_isStart c = false -> xml_isNode c tag = false.
Proof. unfold xml_isNode. now intros ->. Qed.

Lemma slots_count_step (temp : Ship) (c : xmlNode) :
  ship_parse_slots_count temp c =
  (if xml_isNode c "structure"
   then set_outfit_nstructure (outfit_nstructure temp + 1) temp
   else if xml_isNode c "utility"
   then set_outfit_nutility (outfit_nutility temp + 1) temp
   else if xml_isNode c "weapon"
   then set_outfit_nweapon (outfit_nweapon temp + 1) temp
   else temp,
   if is_unknown_slot c then [unknown_slot_warning temp c] else []).
Proof.
  unfold ship_parse_slots_count, is_unknown_slot.
  destruct (xml_isStart c) eqn:Hs; cbn [negb andb].
  - destruct (xml_isNode c "structure"), (xml_isNode c "utility"),
      (xml_isNode c "weapon"); reflexivity.
  - now rewrite !(xml_isNode_not_start c) by assumption.
Qed.

(** First pass: the counters grow by the number of elements of each
    category, and each other element is warned about. *)
Lemma slots_count_pass (l : list xmlNode) (temp : Ship) :
  xml_foreach ship_parse_slots_count l temp =
  (set_outfit_nweapon (outfit_nweapon temp + Z.of_nat (length (named "weapon" l)))
     (set_outfit_nutility (outfit_nutility temp + Z.of_nat (length (named "utility" l)))
        (set_outfit_nstructure
           (outfit_nstructure temp + Z.of_nat (length (named "structure" l))) temp)),
   map (unknown_slot_warning temp) (List.filter is_unknown_slot l)).
Proof.
  revert temp. induction l as [|c l IH]; intros temp.
  - cbn. rewrite !Z.add_0_r. destruct temp. reflexivity.
  - rewrite xml_foreach_cons, slots_count_step, IH, !named_cons. cbn [List.filter fst snd].
    destruct (xml_isNode c "structure") eqn:H1;
      [other_names H1|
       destruct (xml_isNode c "utility") eqn:H2;
       [other_names H2| destruct (xml_isNode c "weapon") eqn:H3]];
      destruct (is_unknown_slot c); cbn [length map app];
      destruct temp; ship_fields; f_equal; try reflexivity; f_equal; lia.
Qed.

Lemma slot_at_next (D : list ShipOutfitSlot) (k : nat) :
  slot_at (D ++ replicate (S k) ShipOutfitSlot_zero) (Z.of_nat (length D)) =
  ShipOutfitSlot_zero.
Proof.
  unfold slot_at. rewrite Nat2Z.id, lookup_app_r by lia.
  now rewrite Nat.sub_diag.
Qed.

Lemma slot_store_next (D : list ShipOutfitSlot) (k : nat) (v : ShipOutfitSlot) :
  slot_store (D ++ replicate (S k) ShipOutfitSlot_zero) (Z.of_nat (length D)) v =
  (D ++ [v]) ++ replicate k ShipOutfitSlot_zero.
Proof.
  unfold slot_store. rewrite Nat2Z.id, insert_app_r_alt by lia.
  rewrite Nat.sub_diag. cbn. now rewrite <- app_assoc.
Qed.

#[local] Arguments ship_parseSlot : simpl never.

(** Second pass: one step, then the whole loop.  [Ds], [Du] and [Dw] are
    the entries filled so far; the cleared entries after them are the
    ones still to fill. *)
Lemma slots_fill_step temp l m h c :
  ship_parse_slots_fill (temp, l, m, h) c =
  if xml_isNode c "structure" then
    ((set_outfit_structure
        (slot_store (outfit_structure temp) l
           (snd (fst (ship_parseSlot temp (slot_at (outfit_structure temp) l)
                        OUTFIT_SLOT_STRUCTURE c)))) temp, l + 1, m, h),
     snd (ship_parseSlot temp (slot_at (outfit_structure temp) l)
            OUTFIT_SLOT_STRUCTURE c))
  else if xml_isNode c "utility" then
    ((set_outfit_utility
        (slot_store (outfit_utility temp) m
           (snd (fst (ship_parseSlot temp (slot_at (outfit_utility temp) m)
                        OUTFIT_SLOT_UTILITY c)))) temp, l, m + 1, h),
     snd (ship_parseSlot temp (slot_at (outfit_utility temp) m)
            OUTFIT_SLOT_UTILITY c))
  else if xml_isNode c "weapon" then
    ((set_outfit_weapon
        (slot_store (outfit_weapon temp) h
           (snd (fst (ship_parseSlot temp (slot_at (outfit_weapon temp) h)
                        OUTFIT_SLOT_WEAPON c)))) temp, l, m, h + 1),
     snd (ship_parseSlot temp (slot_at (outfit_weapon temp) h)
            OUTFIT_SLOT_WEAPON c))
  else ((temp, l, m, h), []).
Proof.
  unfold ship_parse_slots_fill.
  destruct (xml_isStart c) eqn:Hs; cbn [negb].
  2:{ now rewrite !(xml_isNode_not_start c) by assumption. }
  destruct (xml_isNode c "structure") eqn:H1.
  { other_names H1. cbn.
    destruct (ship_parseSlot temp _ OUTFIT_SLOT_STRUCTURE c) as [[rc sl] log].
    cbn. rewrite ?app_nil_r. reflexivity. }
  destruct (xml_isNode c "utility") eqn:H2.
  { other_names H2. cbn.
    destruct (ship_parseSlot temp _ OUTFIT_SLOT_UTILITY c) as [[rc sl] log].
    cbn. rewrite ?app_nil_r. reflexivity. }
  destruct (xml_isNode c "weapon") eqn:H3.
  { cbn. destruct (ship_parseSlot temp _ OUTFIT_SLOT_WEAPON c) as [[rc sl] log].
    cbn. rewrite ?app_nil_r. reflexivity. }
  reflexivity.
Qed.

Lemma slot_log_eq temp c :
  slot_log temp c =
  if xml_isNode c "structure"
  then snd (ship_parseSlot temp ShipOutfitSlot_zero OUTFIT_SLOT_STRUCTURE c)
  else if xml_isNode c "utility"
  then snd (ship_parseSlot temp ShipOutfitSlot_zero OUTFIT_SLOT_UTILITY c)
  else if xml_isNode c "weapon"
  then snd (ship_parseSlot temp ShipOutfitSlot_zero OUTFIT_SLOT_WEAPON c)
  else [].
Proof.
  unfold slot_log. destruct (xml_isStart c) eqn:Hs.
  - destruct (xml_isNode c "structure") eqn:H1;
      [other_names H1; cbn [app]; rewrite ?app_nil_r; reflexivity|].
    destruct (xml_isNode c "utility") eqn:H2;
      [other_names H2; cbn [app]; rewrite ?app_nil_r; reflexivity|].
    cbn [app]. rewrite ?app_nil_r. reflexivity.
  - now rewrite !(xml_isNode_not_start c) by assumption.
Qed.

Lemma slots_fill_pass (cs : list xmlNode) :
  forall (temp0 temp : Ship) (Ds Du Dw : list ShipOutfitSlot) (ks ku kw : nat),
  ident_of temp = ident_of temp0 ->
  outfit_structure temp = Ds ++ replicate ks ShipOutfitSlot_zero ->
  outfit_utility temp = Du ++ replicate ku ShipOutfitSlot_zero ->
  outfit_weapon temp = Dw ++ replicate kw ShipOutfitSlot_zero ->
  (length (named "structure" cs) <= ks)%nat ->
  (length (named "utility" cs) <= ku)%nat ->
  (length (named "weapon" cs) <= kw)%nat ->
  xml_foreach ship_parse_slots_fill cs
    (temp, Z.of_nat (length Ds), Z.of_nat (length Du), Z.of_nat (length Dw)) =
  ((set_outfit_weapon
      (Dw ++ map (parsed_slot temp0 OUTFIT_SLOT_WEAPON) (named "weapon" cs) ++
       replicate (kw - length (named "weapon" cs)) ShipOutfitSlot_zero)
      (set_outfit_utility
         (Du ++ map (parsed_slot temp0 OUTFIT_SLOT_UTILITY) (named "utility" cs) ++
          replicate (ku - length (named "utility" cs)) ShipOutfitSlot_zero)
         (set_outfit_structure
            (Ds ++ map (parsed_slot temp0 OUTFIT_SLOT_STRUCTURE) (named "structure" cs) ++
             replicate (ks - length (named "structure" cs)) ShipOutfitSlot_zero)
            temp)),
    Z.of_nat (length Ds + length (named "structure" cs)),
    Z.of_nat (length Du + length (named "utility" cs)),
    Z.of_nat (length Dw + length (named "weapon" cs))),
   flat_map (slot_log temp0) cs).
Proof.
  induction cs as [|c cs IH]; intros temp0 temp Ds Du Dw ks ku kw Hid Hs Hu Hw Ls Lu Lw.
  - cbn. rewrite !Nat.sub_0_r, !Nat.add_0_r, <- Hs, <- Hu, <- Hw.
    destruct temp. reflexivity.
  - rewrite xml_foreach_cons, slots_fill_step. cbn [flat_map].
    rewrite slot_log_eq. rewrite !named_cons in *.
    destruct (xml_isNode c "structure") eqn:H1.
    { rewrite (xml_isNode_excl c _ "utility" H1) in * by (vm_compute; discriminate).
      rewrite (xml_isNode_excl c _ "weapon" H1) in * by (vm_compute; discriminate).
      cbn [length] in Ls. destruct ks as [|ks]; [lia|].
      rewrite Hs, slot_at_next, slot_store_next. cbn [fst snd].
      rewrite (ship_parseSlot_ext temp temp0) by assumption.
      fold (parsed_slot temp0 OUTFIT_SLOT_STRUCTURE c).
      replace (Z.of_nat (length Ds) + 1) with
        (Z.of_nat (length (Ds ++ [parsed_slot temp0 OUTFIT_SLOT_STRUCTURE c])))
        by (rewrite length_app; cbn; lia).
      rewrite (IH temp0 _ _ Du Dw ks ku kw); try assumption; try lia;
        try reflexivity.
      cbn [map length]. rewrite length_app. cbn [length].
      rewrite <- !app_assoc. cbn [app].
      replace (S ks - S (length (named "structure" cs)))%nat
        with (ks - length (named "structure" cs))%nat by lia.
      replace (length Ds + 1 + length (named "structure" cs))%nat
        with (length Ds + S (length (named "structure" cs)))%nat by lia.
      destruct temp. reflexivity. }
    destruct (xml_isNode c "utility") eqn:H2.
    { rewrite (xml_isNode_excl c _ "weapon" H2) in * by (vm_compute; discriminate).
      cbn [length] in Lu. destruct ku as [|ku]; [lia|].
      rewrite Hu, slot_at_next, slot_store_next. cbn [fst snd].
      rewrite (ship_parseSlot_ext temp temp0) by assumption.
      fold (parsed_slot temp0 OUTFIT_SLOT_UTILITY c).
      replace (Z.of_nat (length Du) + 1) with
        (Z.of_nat (length (Du ++ [parsed_slot temp0 OUTFIT_SLOT_UTILITY c])))
        by (rewrite length_app; cbn; lia).
      rewrite (IH temp0 _ Ds _ Dw ks ku kw); try assumption; try lia;
        try reflexivity.
      cbn [map length]. rewrite length_app. cbn [length].
      rewrite <- !app_assoc. cbn [app].
      replace (S ku - S (length (named "utility" cs)))%nat
        with (ku - length (named "utility" cs))%nat by lia.
      replace (length Du + 1 + length (named "utility" cs))%nat
        with (length Du + S (length (named "utility" cs)))%nat by lia.
      destruct temp. reflexivity. }
    destruct (xml_isNode c "weapon") eqn:H3.
    { cbn [length] in Lw. destruct kw as [|kw]; [lia|].
      rewrite Hw, slot_at_next, slot_store_next. cbn [fst snd].
      rewrite (ship_parseSlot_ext temp temp0) by assumption.
      fold (parsed_slot temp0 OUTFIT_SLOT_WEAPON c).
      replace (Z.of_nat (length Dw) + 1) with
        (Z.of_nat (length (Dw ++ [parsed_slot temp0 OUTFIT_SLOT_WEAPON c])))
        by (rewrite length_app; cbn; lia).
      rewrite (IH temp0 _ Ds Du _ ks ku kw); try assumption; try lia;
        try reflexivity.
      cbn [map length]. rewrite length_app. cbn [length].
      rewrite <- !app_assoc. cbn [app].
      replace (S kw - S (length (named "weapon" cs)))%nat
        with (kw - length (named "weapon" cs))%nat by lia.
      replace (length Dw + 1 + length (named "weapon" cs))%nat
        with (length Dw + S (length (named "weapon" cs)))%nat by lia.
      destruct temp. reflexivity. }
    cbn [fst snd app]. now rewrite (IH temp0 temp Ds Du Dw ks ku kw) by assumption.
Qed.

(** The [slots] branch as a whole: the counters grow by the number of
    elements of each category, each array holds the parsed elements of its
    category in document order, followed by as many cleared slots as its
    counter held before the branch, and nothing else of the ship changes. *)
Lemma ship_parse_slots_eq (temp : Ship) (node : xmlNode) :
  0 <= outfit_nstructure temp -> 0 <= outfit_nutility temp ->
  0 <= outfit_nweapon temp ->
  ship_parse_slots temp node =
  (set_outfit_weapon
     (map (parsed_slot temp OUTFIT_SLOT_WEAPON) (elements_named "weapon" node) ++
      replicate (Z.to_nat (outfit_nweapon temp)) ShipOutfitSlot_zero)
     (set_outfit_utility
        (map (parsed_slot temp OUTFIT_SLOT_UTILITY) (elements_named "utility" node) ++
         replicate (Z.to_nat (outfit_nutility temp)) ShipOutfitSlot_zero)
        (set_outfit_structure
           (map (parsed_slot temp OUTFIT_SLOT_STRUCTURE)
              (elements_named "structure" node) ++
            replicate (Z.to_nat (outfit_nstructure temp)) ShipOutfitSlot_zero)
           (set_outfit_nweapon
              (outfit_nweapon temp +
               Z.of_nat (length (elements_named "weapon" node)))
              (set_outfit_nutility
                 (outfit_nutility temp +
                  Z.of_nat (length (elements_named "utility" node)))
                 (set_outfit_nstructure
                    (outfit_nstructure temp +
                     Z.of_nat (length (elements_named "structure" node)))
                    temp))))),
   map (unknown_slot_warning temp) (List.filter is_unknown_slot (xml_children node)) ++
   flat_map (slot_log temp) (xml_children node)).
Proof.
  intros Hs Hu Hw. unfold ship_parse_slots, elements_named.
  fold (named "structure" (xml_children node)).
  fold (named "utility" (xml_children node)).
  fold (named "weapon" (xml_children node)).
  rewrite bind_eta, slots_count_pass. cbn [fst snd].
  rewrite bind_eta.
  set (ns := length (named "structure" (xml_children node))).
  set (nu := length (named "utility" (xml_children node))).
  set (nw := length (named "weapon" (xml_children node))).
  match goal with
  | |- context [xml_foreach ship_parse_slots_fill _ (?t, 0, 0, 0)] =>
      pose proof (slots_fill_pass (xml_children node) temp t [] [] []
                    (ns + Z.to_nat (outfit_nstructure temp))
                    (nu + Z.to_nat (outfit_nutility temp))
                    (nw + Z.to_nat (outfit_nweapon temp))) as Hfill
  end.
  cbn [length app] in Hfill. change (Z.of_nat 0) with 0 in Hfill.
  rewrite Hfill; clear Hfill.
  - fold ns nu nw. cbn [fst snd].
    replace (ns + Z.to_nat (outfit_nstructure temp) - ns)%nat
      with (Z.to_nat (outfit_nstructure temp)) by lia.
    replace (nu + Z.to_nat (outfit_nutility temp) - nu)%nat
      with (Z.to_nat (outfit_nutility temp)) by lia.
    replace (nw + Z.to_nat (outfit_nweapon temp) - nw)%nat
      with (Z.to_nat (outfit_nweapon temp)) by lia.
    unfold ret. cbn [fst snd]. rewrite app_nil_r.
    destruct temp. reflexivity.
  - reflexivity.
  - destruct temp; simpl in Hs, Hu, Hw;
      ship_fields; unfold calloc_slots; cbn [app]; f_equal; lia.
  - destruct temp; simpl in Hs, Hu, Hw;
      ship_fields; unfold calloc_slots; cbn [app]; f_equal; lia.
  - destruct temp; simpl in Hs, Hu, Hw;
      ship_fields; unfold calloc_slots; cbn [app]; f_equal; lia.
  - fold ns; lia.
  - fold nu; lia.
  - fold nw; lia.
Qed.

(** What the [slots] branch leaves alone. *)
Lemma ship_parse_slots_frame temp node :
  ident_of (fst (ship_parse_slots temp node)) = ident_of temp /\
  stats_of (fst (ship_parse_slots temp node)) = stats_of temp /\
  thrust (fst (ship_parse_slots temp node)) = thrust temp /\
  mass (fst (ship_parse_slots temp node)) = mass temp /\
  Forall no_call (snd (ship_parse_slots temp node)).
Proof.
  unfold ship_parse_slots. rewrite bind_eta, slots_count_pass. cbn [fst snd].
  rewrite bind_eta. cbn [fst snd].
  match goal with
  | |- context [xml_foreach ship_parse_slots_fill ?l ?st] =>
      set (st0 := st);
      assert (Hf : forall (A : Type) (f : Ship -> A),
                 (forall v t, f (set_outfit_structure v t) = f t) ->
                 (forall v t, f (set_outfit_utility v t) = f t) ->
                 (forall v t, f (set_outfit_weapon v t) = f t) ->
                 f (fst (fst (fst (fst (xml_foreach ship_parse_slots_fill l st0))))) =
                 f (fst (fst (fst st0))))
  end.
  { intros A f Hs Hu Hw.
    apply (xml_foreach_frame (fun st => f (fst (fst (fst st)))))
      with (P := fun _ => True); [|apply Forall_True].
    intros [[[t l] m] h] n _. rewrite slots_fill_step.
    destruct (xml_isNode n "structure"); [apply Hs|].
    destruct (xml_isNode n "utility"); [apply Hu|].
    destruct (xml_isNode n "weapon"); [apply Hw|]. reflexivity. }
  assert (Hres : forall x : Ship * Z * Z * Z,
             fst (let '(t, _, _, _) := x in ret t) = fst (fst (fst x)))
    by (now intros [[[t l] m] h]).
  assert (Hlog : forall x : Ship * Z * Z * Z,
             snd (let '(t, _, _, _) := x in ret t) = [])
    by (now intros [[[t l] m] h]).
  rewrite Hres, Hlog.
  repeat split.
  - rewrite (Hf _ ident_of) by reflexivity. reflexivity.
  - rewrite (Hf _ stats_of) by reflexivity. reflexivity.
  - rewrite (Hf _ thrust) by reflexivity. reflexivity.
  - rewrite (Hf _ mass) by reflexivity. reflexivity.
  - apply Forall_app. split; [|apply Forall_app; split; [|constructor]].
    + apply List.Forall_forall. intros e [c [<- _]]%in_map_iff. reflexivity.
    + apply xml_foreach_log with (P := fun _ => True); [|apply Forall_True].
      intros [[[t' l'] m'] h'] n _. rewrite slots_fill_step.
      destruct (xml_isNode n "structure"); [apply ship_parseSlot_no_call|].
      destruct (xml_isNode n "utility"); [apply ship_parseSlot_no_call|].
      destruct (xml_isNode n "weapon"); [apply ship_parseSlot_no_call|]. constructor.
Qed.

Lemma ship_parse_stat_step (temp : Ship) (c : xmlNode) :
  ship_parse_stat temp c =
  (match recognized_stats [c] with
   | ll :: _ => set_stats (ll :: stats temp) temp
   | [] => temp
   end,
   if is_unknown_stat c then [unknown_stat_warning temp c] else []).
Proof.
  unfold ship_parse_stat, is_unknown_stat, recognized_stats. cbn [flat_map].
  destruct (xml_isStart c); cbn [negb andb]; [|reflexivity].
  now destruct (ss_listFromXML c).
Qed.

Lemma recognized_stats_cons c l :
  recognized_stats (c :: l) = recognized_stats [c] ++ recognized_stats l.
Proof. unfold recognized_stats. cbn [flat_map]. now rewrite app_nil_r. Qed.

Lemma recognized_stats_one c :
  recognized_stats [c] = [] \/ exists ll, recognized_stats [c] = [ll].
Proof.
  unfold recognized_stats. cbn [flat_map]. rewrite app_nil_r.
  destruct (xml_isStart c); [|now left].
  destruct (ss_listFromXML c) as [ll|]; [right; now exists ll | now left].
Qed.

Lemma ship_parse_stat_pass (l : list xmlNode) (temp : Ship) :
  xml_foreach ship_parse_stat l temp =
  (set_stats (rev (recognized_stats l) ++ stats temp) temp,
   map (unknown_stat_warning temp) (List.filter is_unknown_stat l)).
Proof.
  revert temp. induction l as [|c l IH]; intros temp.
  - cbn. destruct temp. reflexivity.
  - rewrite xml_foreach_cons, ship_parse_stat_step, IH, (recognized_stats_cons c l).
    cbn [List.filter fst snd].
    destruct (recognized_stats_one c) as [E|[ll E]]; rewrite E;
      destruct (is_unknown_stat c); cbn [app rev map];
      rewrite <- ?app_assoc; destruct temp; reflexivity.
Qed.

(** The [stats] branch as a whole. *)
Lemma ship_parse_stats_eq (temp : Ship) (node : xmlNode) :
  let st := rev (recognized_stats (xml_children node)) ++ stats temp in
  ship_parse_stats temp node =
  (set_desc_stats
     match st with
     | [] => desc_stats temp
     | _ :: _ => stats_description st
     end
     (set_stats_array (ss_statsModFromList ss_statsInit st) (set_stats st temp)),
   map (unknown_stat_warning temp)
     (List.filter is_unknown_stat (xml_children node)) ++
   CALL_ss_statsModFromList st ::
   match st with
   | [] => []
   | _ :: _ => [CALL_ss_statsListDesc st STATS_DESC_MAX]
   end).
Proof.
  intros st. unfold ship_parse_stats.
  rewrite bind_eta, ship_parse_stat_pass. cbn [fst snd].
  rewrite bind_eta. cbn [fst snd tell].
  change (stats (set_stats_array _ (set_stats_array _ (set_stats ?x _)))) with x.
  change (stats (set_stats_array _ (set_stats ?x _))) with x.
  fold st. unfold stats_description.
  destruct st as [|ll st'] eqn:Est.
  - cbn [app snd fst ret]. destruct temp. reflexivity.
  - rewrite bind_eta. cbn [fst snd tell].
    destruct (ss_statsListDesc (ll :: st') STATS_DESC_MAX 0) as [i buf].
    destruct (i <=? 0); cbn [app snd fst ret]; destruct temp; reflexivity.
Qed.

(** What the [stats] branch leaves alone. *)
Lemma ship_parse_stats_frame temp node :
  ident_of (fst (ship_parse_stats temp node)) = ident_of temp /\
  slots_of (fst (ship_parse_stats temp node)) = slots_of temp /\
  thrust (fst (ship_parse_stats temp node)) = thrust temp /\
  mass (fst (ship_parse_stats temp node)) = mass temp.
Proof. rewrite ship_parse_stats_eq. repeat split. Qed.

(** ** The main loop *)

Lemma ship_parse_node_ident temp node :
  ident_of (fst (ship_parse_node temp node)) = ident_of temp.
Proof.
  apply ship_parse_node_cases; intros; try reflexivity.
  - apply ship_loadGFX_frame.
  - apply ship_parse_movement_frame.
  - apply ship_parse_health_frame.
  - apply ship_parse_characteristics_frame.
  - apply ship_parse_slots_frame.
  - apply ship_parse_stats_frame.
Qed.

Lemma ship_parse_node_slots temp node :
  xml_isNode node "slots" = false ->
  slots_of (fst (ship_parse_node temp node)) = slots_of temp.
Proof.
  intros Hn. apply ship_parse_node_cases; intros; try reflexivity; try congruence.
  - apply ship_loadGFX_frame.
  - apply ship_parse_movement_frame.
  - apply ship_parse_health_frame.
  - apply ship_parse_characteristics_frame.
  - apply ship_parse_stats_frame.
Qed.

Lemma ship_parse_node_stats temp node :
  xml_isNode node "stats" = false ->
  stats_of (fst (ship_parse_node temp node)) = stats_of temp /\
  Forall no_call (snd (ship_parse_node temp node)).
Proof.
  intros Hn. apply ship_parse_node_cases; intros; try congruence;
    try (split; [reflexivity | repeat constructor]).
  - split; apply ship_loadGFX_frame.
  - split; apply ship_parse_movement_frame.
  - split; apply ship_parse_health_frame.
  - split; apply ship_parse_characteristics_frame.
  - split; apply ship_parse_slots_frame.
Qed.

Lemma ship_parse_node_at_slots temp node :
  xml_isNode node "slots" = true ->
  ship_parse_node temp node = ship_parse_slots temp node.
Proof.
  intros H. unfold ship_parse_node.
  rewrite (xml_isNode_isStart _ _ H). cbn [negb]. other_names H. now rewrite H.
Qed.

Lemma ship_parse_node_at_stats temp node :
  xml_isNode node "stats" = true ->
  ship_parse_node temp node = ship_parse_stats temp node.
Proof.
  intros H. unfold ship_parse_node.
  rewrite (xml_isNode_isStart _ _ H). cbn [negb]. other_names H. now rewrite H.
Qed.

(** The first loop only sets the class. *)
Lemma ship_parse_class_frame l t t' :
  ship_parse_class l t = Some t' ->
  name t' = name t /\ slots_of t' = slots_of t /\ stats_of t' = stats_of t /\
  thrust t' = thrust t /\ mass t' = mass t.
Proof.
  revert t. induction l as [|n l IH]; intros t; cbn [ship_parse_class].
  - intros [= <-]. repeat split.
  - destruct (xml_isStart n); cbn [negb]; [|apply IH].
    destruct (xml_isNode n "class"); [|apply IH].
    destruct (xml_get n) as [str|]; [|discriminate].
    intros H. apply IH in H. exact H.
Qed.

(** [ship_parse] in one equation: the class loop, the main loop, the post
    processing and the validator. *)
Lemma ship_parse_eq (parent : xmlNode) :
  ship_parse parent =
  match ship_parse_class (xml_children parent) (ship_parse_init parent) with
  | None => None
  | Some t1 =>
      let main := xml_foreach ship_parse_node (xml_children parent) t1 in
      let s := ship_postprocess (fst main) in
      Some ((0, s), name_warning t1 ++ snd main ++ snd (ship_validate s))
  end.
Proof.
  unfold ship_parse, name_warning.
  destruct (ship_parse_class _ _) as [t1|]; [|reflexivity].
  cbn zeta. f_equal. rewrite !bind_eta. cbn [fst snd ret].
  rewrite app_nil_r. now destruct (is_null (name t1)).
Qed.

Lemma filter_singleton {A : Type} (f : A -> bool) (l : list A) (x : A) :
  List.filter f l = [x] ->
  exists pre post, l = pre ++ x :: post /\ f x = true /\
    Forall (fun y => f y = false) pre /\ Forall (fun y => f y = false) post.
Proof.
  induction l as [|a l IH]; cbn [List.filter]; [discriminate|].
  destruct (f a) eqn:Ha.
  - intros [= -> Hl]. exists [], l. repeat split; [assumption|constructor|].
    apply List.Forall_forall. intros y Hy.
    destruct (f y) eqn:Hfy; [|reflexivity].
    assert (In y (List.filter f l)) by (apply List.filter_In; now split).
    rewrite Hl in H. contradiction.
  - intros H. destruct (IH H) as (pre & post & -> & Hx & Hpre & Hpost).
    exists (a :: pre), post. repeat split; try assumption. now constructor.
Qed.

Lemma slots_wf_ext (a b : Ship) :
  slots_of a = slots_of b -> slots_wf a -> slots_wf b.
Proof.
  unfold slots_of, slots_wf. intros [= E1 E2 E3 E4 E5 E6].
  now rewrite E1, E2, E3, E4, E5, E6.
Qed.

Lemma ship_parse_slots_wf temp node :
  slots_wf temp -> slots_wf (fst (ship_parse_slots temp node)).
Proof.
  intros (H1 & H2 & H3 & L1 & L2 & L3).
  rewrite ship_parse_slots_eq by assumption. unfold slots_wf. cbn [fst].
  ship_fields.
  fold (outfit_nstructure temp) (outfit_nutility temp) (outfit_nweapon temp).
  rewrite !length_app, !length_map, !length_replicate. lia.
Qed.

Lemma ship_parse_node_slots_wf temp node :
  slots_wf temp -> slots_wf (fst (ship_parse_node temp node)).
Proof.
  intros H. destruct (xml_isNode node "slots") eqn:E.
  - rewrite ship_parse_node_at_slots by assumption. now apply ship_parse_slots_wf.
  - apply (slots_wf_ext temp); [|assumption].
    symmetry. now apply ship_parse_node_slots.
Qed.

Lemma main_loop_slots_wf l temp :
  slots_wf temp -> slots_wf (fst (xml_foreach ship_parse_node l temp)).
Proof.
  revert temp. induction l as [|n l IH]; intros temp H; [exact H|].
  rewrite xml_foreach_cons. cbn [fst]. apply IH.
  now apply ship_parse_node_slots_wf.
Qed.

#[local] Arguments in_array : simpl never.

(** ** The second pass stays inside the arrays *)

Lemma xml_foreach_checked_defined {S : Type} (body : S -> xmlNode -> W S)
    (checked : S -> xmlNode -> option (W S)) (P : S -> list xmlNode -> Prop) :
  (forall s n l, P s (n :: l) ->
     checked s n = Some (body s n) /\ P (fst (body s n)) l) ->
  forall l s, P s l ->
    xml_foreach_checked checked l s = Some (xml_foreach body l s).
Proof.
  intros Hstep l. induction l as [|n l IH]; intros s Hs; [reflexivity|].
  destruct (Hstep s n l Hs) as [E Hnext].
  cbn [xml_foreach_checked]. rewrite E, xml_foreach_cons.
  unfold bind_checked. destruct (body s n) as [s' log1]. cbn [fst snd] in *.
  rewrite (IH s' Hnext). now destruct (xml_foreach body l s').
Qed.

(** One step of the checked pass, when the entry of the child is in its
    array. *)
Lemma slots_fill_checked_step temp l m h c :
  (xml_isNode c "structure" = true -> in_array (outfit_structure temp) l = true) ->
  (xml_isNode c "utility" = true -> in_array (outfit_utility temp) m = true) ->
  (xml_isNode c "weapon" = true -> in_array (outfit_weapon temp) h = true) ->
  ship_parse_slots_fill_checked (temp, l, m, h) c =
  Some (ship_parse_slots_fill (temp, l, m, h) c).
Proof.
  intros Hs Hu Hw. unfold ship_parse_slots_fill_checked, ship_parse_slots_fill.
  destruct (xml_isStart c) eqn:Hstart; cbn [negb]; [|reflexivity].
  destruct (xml_isNode c "structure") eqn:H1.
  { other_names H1. rewrite (Hs eq_refl). cbn.
    destruct (ship_parseSlot temp _ OUTFIT_SLOT_STRUCTURE c) as [[rc sl] log].
    cbn. reflexivity. }
  destruct (xml_isNode c "utility") eqn:H2.
  { other_names H2. cbn. rewrite (Hu eq_refl). cbn.
    destruct (ship_parseSlot temp _ OUTFIT_SLOT_UTILITY c) as [[rc sl] log].
    cbn. reflexivity. }
  destruct (xml_isNode c "weapon") eqn:H3.
  { cbn. rewrite (Hw eq_refl). cbn.
    destruct (ship_parseSlot temp _ OUTFIT_SLOT_WEAPON c) as [[rc sl] log].
    cbn. reflexivity. }
  reflexivity.
Qed.

Lemma slots_fill_checked_pass cs st :
  fill_in_bounds st cs ->
  xml_foreach_checked ship_parse_slots_fill_checked cs st =
  Some (xml_foreach ship_parse_slots_fill cs st).
Proof.
  revert cs st.
  apply (xml_foreach_checked_defined ship_parse_slots_fill
           ship_parse_slots_fill_checked fill_in_bounds).
  intros [[[temp l] m] h] c cs (Hl & Hm & Hh & Ls & Lu & Lw).
  rewrite !named_cons in *.
  assert (Hin : forall (a : list ShipOutfitSlot) (i : Z) (k : nat),
            0 <= i -> i + Z.of_nat (S k) <= Z.of_nat (length a) ->
            in_array a i = true).
  { intros a i k H0 H1. unfold in_array. apply andb_true_iff. split.
    - now apply Z.leb_le.
    - apply Z.ltb_lt. lia. }
  split.
  - apply slots_fill_checked_step; intros E; rewrite E in *; cbn [length] in *;
      eapply Hin; eassumption.
  - rewrite slots_fill_step.
    destruct (xml_isNode c "structure") eqn:H1.
    { rewrite (xml_isNode_excl c _ "utility" H1) in * by (vm_compute; discriminate).
      rewrite (xml_isNode_excl c _ "weapon" H1) in * by (vm_compute; discriminate).
      cbn [fst length] in *. unfold fill_in_bounds, slot_store.
      destruct temp; cbn in *. rewrite length_insert. lia. }
    destruct (xml_isNode c "utility") eqn:H2.
    { rewrite (xml_isNode_excl c _ "weapon" H2) in * by (vm_compute; discriminate).
      cbn [fst length] in *. unfold fill_in_bounds, slot_store.
      destruct temp; cbn in *. rewrite length_insert. lia. }
    destruct (xml_isNode c "weapon") eqn:H3.
    { cbn [fst length] in *. unfold fill_in_bounds, slot_store.
      destruct temp; cbn in *. rewrite length_insert. lia. }
    cbn [fst]. unfold fill_in_bounds. lia.
Qed.

(** The checked [slots] branch is defined on a ship whose counters are
    not negative, and is the branch. *)
Lemma ship_parse_slots_checked_eq temp node :
  0 <= outfit_nstructure temp -> 0 <= outfit_nutility temp ->
  0 <= outfit_nweapon temp ->
  ship_parse_slots_checked temp node = Some (ship_parse_slots temp node).
Proof.
  intros Hs Hu Hw. unfold ship_parse_slots_checked, ship_parse_slots.
  unfold bind_checked at 1. unfold bind at 1.
  destruct (xml_foreach ship_parse_slots_count (xml_children node) temp)
    as [t1 log1] eqn:E1.
  assert (Ht : t1 = fst (xml_foreach ship_parse_slots_count (xml_children node) temp))
    by now rewrite E1.
  rewrite slots_count_pass in Ht. cbn [fst] in Ht.
  rewrite slots_fill_checked_pass.
  - unfold bind_checked, bind.
    destruct (xml_foreach ship_parse_slots_fill _ _) as [[[[t2 l] m] h] log2].
    reflexivity.
  - subst t1. unfold fill_in_bounds, calloc_slots. destruct temp; cbn in *.
    rewrite !length_replicate. lia.
Qed.
(** X2: in every [slots] block of a ship element, in the state in which the
    main loop reaches the block, each entry the second pass reads or writes
    lies inside the array the block has allocated: the second pass with
    checked bounds is defined, and is the second pass; this whatever the
    number of blocks.  And the slot arrays of the parsed ship have the
    lengths their counters give. *)
Theorem ship_parse_slot_counts (parent : xmlNode) (rc : Z) (s : Ship)
    (log : list event) :
  ship_parse parent = Some ((rc, s), log) ->
  slots_wf s /\
  exists t1 : Ship,
    ship_parse_class (xml_children parent) (ship_parse_init parent) = Some t1 /\
    forall (pre : list xmlNode) (blk : xmlNode) (post : list xmlNode),
      xml_children parent = pre ++ blk :: post ->
      xml_isNode blk "slots" = true ->
      let temp := fst (xml_foreach ship_parse_node pre t1) in
      ship_parse_slots_checked temp blk = Some (ship_parse_slots temp blk).
Proof.
  intros Hparse. rewrite ship_parse_eq in Hparse.
  destruct (ship_parse_class _ _) as [t1|] eqn:Hclass; [|discriminate].
  cbn zeta in Hparse. injection Hparse as _ Hs _.
  apply ship_parse_class_frame in Hclass. destruct Hclass as (_ & Hslots & _).
  assert (H1 : slots_wf t1).
  { apply (slots_wf_ext (ship_parse_init parent)); [now symmetry|].
    unfold slots_wf. cbn. lia. }
  split.
  - rewrite <- Hs.
    apply (slots_wf_ext (fst (xml_foreach ship_parse_node (xml_children parent) t1)));
      [reflexivity|].
    now apply main_loop_slots_wf.
  - exists t1. split; [reflexivity|]. intros pre blk post _ _ temp.
    destruct (main_loop_slots_wf pre t1 H1) as (C1 & C2 & C3 & _).
    now apply ship_parse_slots_checked_eq.
Qed.

Lemma ship_postprocess_frame s :
  ident_of (ship_postprocess s) = ident_of s /\
  slots_of (ship_postprocess s) = slots_of s /\
  stats_of (ship_postprocess s) = stats_of s.
Proof. repeat split. Qed.

Lemma main_loop_slots l temp :
  Forall (fun n => xml_isNode n "slots" = false) l ->
  slots_of (fst (xml_foreach ship_parse_node l temp)) = slots_of temp.
Proof.
  apply (xml_foreach_frame slots_of ship_parse_node
           (fun n => xml_isNode n "slots" = false)).
  intros s n Hn. now apply ship_parse_node_slots.
Qed.

Lemma main_loop_ident l temp :
  ident_of (fst (xml_foreach ship_parse_node l temp)) = ident_of temp.
Proof.
  apply (xml_foreach_frame ident_of ship_parse_node (fun _ => True));
    [|apply Forall_True].
  intros s n _. apply ship_parse_node_ident.
Qed.

Lemma main_loop_stats l temp :
  Forall (fun n => xml_isNode n "stats" = false) l ->
  stats_of (fst (xml_foreach ship_parse_node l temp)) = stats_of temp /\
  Forall no_call (snd (xml_foreach ship_parse_node l temp)).
Proof.
  intros Hl. split.
  - revert Hl. apply (xml_foreach_frame stats_of ship_parse_node
                        (fun n => xml_isNode n "stats" = false)).
    intros s n Hn. now apply ship_parse_node_stats.
  - revert Hl. apply (xml_foreach_log no_call ship_parse_node
                        (fun n => xml_isNode n "stats" = false)).
    intros s n Hn. now apply ship_parse_node_stats.
Qed.

(** C2 (as amended): for a ship element with exactly one [slots] block, the
    three slot arrays of the parsed ship have the lengths of the three
    categories of element children of the block, entry [i] of an array is
    what [ship_parseSlot] makes of a cleared slot and the [i]-th element of
    that category in document order, the counters are those lengths, and
    every element child of another name is warned about (and is in no
    array, the arrays holding category elements only). *)
Theorem ship_parse_slots_arrays (parent blk : xmlNode) (rc : Z) (s : Ship)
    (log : list event) :
  ship_parse parent = Some ((rc, s), log) ->
  elements_named "slots" parent = [blk] ->
  outfit_structure s =
    map (parsed_slot s OUTFIT_SLOT_STRUCTURE) (elements_named "structure" blk) /\
  outfit_utility s =
    map (parsed_slot s OUTFIT_SLOT_UTILITY) (elements_named "utility" blk) /\
  outfit_weapon s =
    map (parsed_slot s OUTFIT_SLOT_WEAPON) (elements_named "weapon" blk) /\
  outfit_nstructure s = Z.of_nat (length (elements_named "structure" blk)) /\
  outfit_nutility s = Z.of_nat (length (elements_named "utility" blk)) /\
  outfit_nweapon s = Z.of_nat (length (elements_named "weapon" blk)) /\
  length (outfit_structure s) = length (elements_named "structure" blk) /\
  length (outfit_utility s) = length (elements_named "utility" blk) /\
  length (outfit_weapon s) = length (elements_named "weapon" blk) /\
  (forall c, In c (xml_children blk) -> is_unknown_slot c = true ->
   In (unknown_slot_warning s c) log).
Proof.
  intros Hparse Hblk. rewrite ship_parse_eq in Hparse.
  destruct (ship_parse_class _ _) as [t1|] eqn:Hclass; [|discriminate].
  cbn zeta in Hparse. injection Hparse as _ Hs Hlog.
  apply ship_parse_class_frame in Hclass.
  destruct Hclass as (_ & Hslots1 & _).
  destruct (filter_singleton _ _ _ Hblk) as (pre & post & Hch & Hb & Hpre & Hpost).
  rewrite Hch in Hs, Hlog.
  rewrite xml_foreach_app, xml_foreach_cons in Hs, Hlog. cbn [fst snd] in Hs, Hlog.
  set (t2 := fst (xml_foreach ship_parse_node pre t1)) in *.
  rewrite (ship_parse_node_at_slots t2 blk Hb) in Hs, Hlog.
  assert (H2 : slots_of t2 = slots_of (ship_parse_init parent)).
  { unfold t2. rewrite main_loop_slots by assumption. exact Hslots1. }
  assert (Hz : outfit_nstructure t2 = 0 /\ outfit_nutility t2 = 0 /\
               outfit_nweapon t2 = 0).
  { unfold slots_of in H2. cbn in H2. injection H2 as _ Ea _ Eb _ Ec. auto. }
  destruct Hz as (Hz1 & Hz2 & Hz3).
  set (t3 := fst (ship_parse_slots t2 blk)) in *.
  assert (Hid : ident_of s = ident_of t2).
  { rewrite <- Hs.
    destruct (ship_postprocess_frame (fst (xml_foreach ship_parse_node post t3)))
      as (-> & _).
    rewrite main_loop_ident. unfold t3. apply ship_parse_slots_frame. }
  assert (Hsl : slots_of s = slots_of t3).
  { rewrite <- Hs.
    destruct (ship_postprocess_frame (fst (xml_foreach ship_parse_node post t3)))
      as (_ & -> & _).
    now apply main_loop_slots. }
  assert (H3 : ship_parse_slots t2 blk = ship_parse_slots t2 blk) by reflexivity.
  rewrite ship_parse_slots_eq in H3 at 2 by lia.
  rewrite Hz1, Hz2, Hz3 in H3. cbn [Z.to_nat replicate] in H3.
  rewrite !app_nil_r in H3.
  assert (Hm : forall T l, map (parsed_slot t2 T) l = map (parsed_slot s T) l)
    by (intros; apply map_ext; intros; apply parsed_slot_ext; now symmetry).
  rewrite !Hm in H3.
  assert (H3s : slots_of t3 =
    (map (parsed_slot s OUTFIT_SLOT_STRUCTURE) (elements_named "structure" blk),
     Z.of_nat (length (elements_named "structure" blk)),
     map (parsed_slot s OUTFIT_SLOT_UTILITY) (elements_named "utility" blk),
     Z.of_nat (length (elements_named "utility" blk)),
     map (parsed_slot s OUTFIT_SLOT_WEAPON) (elements_named "weapon" blk),
     Z.of_nat (length (elements_named "weapon" blk)))).
  { unfold t3. rewrite H3. reflexivity. }
  rewrite <- Hsl in H3s. unfold slots_of in H3s.
  injection H3s as E1 E2 E3 E4 E5 E6.
  repeat split; try assumption.
  - rewrite E1. apply length_map.
  - rewrite E3. apply length_map.
  - rewrite E5. apply length_map.
  - intros c Hc Hu. rewrite <- Hlog.
    apply in_or_app. right. apply in_or_app. left.
    apply in_or_app. right. apply in_or_app. left.
    rewrite H3. cbn [snd]. apply in_or_app. left.
    assert (Hname : name s = name t2) by (now injection Hid).
    unfold unknown_slot_warning. rewrite Hname.
    apply (in_map (unknown_slot_warning t2)). apply List.filter_In. now split.
Qed.

Lemma MELEMENT_no_call temp o str : Forall no_call (snd (MELEMENT temp o str)).
Proof. unfold MELEMENT. destruct o; repeat constructor. Qed.

Lemma ship_validate_no_call temp : Forall no_call (snd (ship_validate temp)).
Proof.
  unfold ship_validate.
  repeat (rewrite snd_bind; apply Forall_app; split; [apply MELEMENT_no_call|]).
  apply MELEMENT_no_call.
Qed.

Lemma name_warning_no_call temp : Forall no_call (name_warning temp).
Proof. unfold name_warning. destruct (is_null _); repeat constructor. Qed.

(** ** ships_load *)

Lemma ship_parse_class_defined l t :
  Forall (fun c => xml_get c <> None) (named "class" l) ->
  exists t', ship_parse_class l t = Some t'.
Proof.
  revert t. induction l as [|n l IH]; intros t Hl; cbn [ship_parse_class].
  - now exists t.
  - rewrite named_cons in Hl.
    destruct (xml_isStart n) eqn:Hs; cbn [negb].
    + destruct (xml_isNode n "class").
      * inversion Hl as [|? ? Hn Hl']; subst.
        destruct (xml_get n) as [str|]; [now apply IH | congruence].
      * now apply IH.
    + rewrite (xml_isNode_not_start n) in Hl by assumption. now apply IH.
Qed.

(** A ship element whose [class] elements have text is parsed, and the
    parse returns 0. *)
Lemma ship_parse_defined parent :
  class_has_text parent ->
  exists s log, ship_parse parent = Some ((0, s), log).
Proof.
  intros H. rewrite ship_parse_eq.
  destruct (ship_parse_class_defined _ (ship_parse_init parent) H) as [t1 ->].
  cbn zeta. eauto.
Qed.

Lemma ships_load_nodes_spec (nodes : list xmlNode) (stack : array Ship) :
  Forall class_has_text (named XML_SHIP nodes) ->
  exists stack' log,
    ships_load_nodes nodes stack = Some (stack', log) /\
    exists ships,
      array_elems stack' = array_elems stack ++ ships /\
      Forall2 (fun n s => exists l, ship_parse n = Some ((0, s), l))
        (named XML_SHIP nodes) ships.
Proof.
  revert stack. induction nodes as [|n nodes IH]; intros stack Hn.
  - exists stack, []. split; [reflexivity|]. exists []. rewrite app_nil_r.
    split; [reflexivity | constructor].
  - cbn [ships_load_nodes]. rewrite named_cons in *.
    destruct (xml_isNode n XML_SHIP).
    + inversion Hn as [|? ? Hn1 Hn2]; subst.
      destruct (ship_parse_defined n Hn1) as (s & log1 & Hp). rewrite Hp.
      destruct (IH (array_grow stack s) Hn2) as (stack' & log2 & -> & ships & He & Hf).
      exists stack', (log1 ++ log2). split; [reflexivity|].
      exists (s :: ships). split.
      * rewrite He. cbn [array_grow array_elems]. now rewrite <- app_assoc.
      * constructor; [now exists log1 | assumption].
    + now apply IH.
Qed.

(** ships_load on a document that has a first node: it fails with -1 and
    an error line, the stack untouched, exactly when the name of that node
    is not [Ships] or the node has no child at all; a root with children of
    which none is a ship element loads an empty stack and returns 0; and
    when the [class] elements of the ship elements have text, every ship
    element is parsed and appended in document order, whatever it lacks,
    and the stack is shrunk to its size. *)
Theorem ships_load_spec (ship_stack : option (array Ship)) (node : xmlNode)
    (rest : xmlDoc) :
  let doc := node :: rest in
  ((strcmp (xml_name node) XML_ID <> 0 \/ xml_children node = []) <->
   exists st log, ships_load ship_stack doc = Some ((-1, st), log)) /\
  (strcmp (xml_name node) XML_ID <> 0 ->
   ships_load ship_stack doc =
   Some ((-1, ship_stack),
         [ERR "Malformed dat/ship.xml file: missing root element 'Ships'" []])) /\
  (strcmp (xml_name node) XML_ID = 0 -> xml_children node = [] ->
   ships_load ship_stack doc =
   Some ((-1, ship_stack),
         [ERR "Malformed dat/ship.xml file: does not contain elements" []])) /\
  (strcmp (xml_name node) XML_ID = 0 -> xml_children node <> [] ->
   Forall class_has_text (elements_named XML_SHIP node) ->
   exists stack log,
     ships_load ship_stack doc = Some ((0, Some stack), log) /\
     Forall2 (fun n s => exists l, ship_parse n = Some ((0, s), l))
       (elements_named XML_SHIP node) (array_elems stack) /\
     array_reserved stack = array_size stack) /\
  (strcmp (xml_name node) XML_ID = 0 -> xml_children node <> [] ->
   elements_named XML_SHIP node = [] ->
   ships_load ship_stack doc =
   Some ((0, Some (mkArray [] 0)),
         [DEBUG "Loaded %d Ship%s" [ArgD 0; ArgS (Some "s"%string)]])).
Proof.
  cbn zeta.
  assert (Hbad : strcmp (xml_name node) XML_ID <> 0 ->
    ships_load ship_stack (node :: rest) =
    Some ((-1, ship_stack),
          [ERR "Malformed dat/ship.xml file: missing root element 'Ships'" []])).
  { intros H. unfold ships_load. apply Z.eqb_neq in H. now rewrite H. }
  assert (Hempty : strcmp (xml_name node) XML_ID = 0 -> xml_children node = [] ->
    ships_load ship_stack (node :: rest) =
    Some ((-1, ship_stack),
          [ERR "Malformed dat/ship.xml file: does not contain elements" []])).
  { intros H Hc. unfold ships_load. apply Z.eqb_eq in H. now rewrite H, Hc. }
  assert (Hload : strcmp (xml_name node) XML_ID = 0 -> xml_children node <> [] ->
    ships_load ship_stack (node :: rest) =
    match ships_load_nodes (xml_children node) array_create with
    | None => None
    | Some loaded =>
        Some ((0, Some (array_shrink (fst loaded))),
              snd loaded ++
              [DEBUG "Loaded %d Ship%s"
                 [ArgD (array_size (array_shrink (fst loaded)));
                  ArgS (Some (if array_size (array_shrink (fst loaded)) =? 1
                              then EmptyString else "s"%string))]])
    end).
  { intros H Hc. unfold ships_load. apply Z.eqb_eq in H. rewrite H. cbn [negb].
    destruct (xml_children node) as [|c cs] eqn:Ec; [congruence|].
    destruct (ships_load_nodes (c :: cs) array_create) as [[stack log]|];
      [|reflexivity].
    rewrite !bind_eta. cbn [fst snd ret tell]. now rewrite app_nil_r. }
  split; [|split; [exact Hbad | split; [exact Hempty | split]]].
  - split.
    + intros [H|H].
      * eexists _, _. now apply Hbad.
      * destruct (Z.eq_dec (strcmp (xml_name node) XML_ID) 0) as [E|E].
        -- eexists _, _. now apply Hempty.
        -- eexists _, _. now apply Hbad.
    + intros (st & log & H).
      destruct (Z.eq_dec (strcmp (xml_name node) XML_ID) 0) as [E|E]; [|now left].
      right. destruct (xml_children node) as [|c cs] eqn:Ec; [reflexivity|].
      rewrite Hload in H by congruence.
      destruct (ships_load_nodes _ _); discriminate.
  - intros H Hc Hships. rewrite (Hload H Hc).
    destruct (ships_load_nodes_spec (xml_children node) array_create Hships)
      as (stack' & log & -> & ships & He & Hf).
    cbn [fst snd]. eexists _, _. split; [reflexivity|]. split; [|reflexivity].
    cbn [array_shrink array_elems]. cbn in He. now rewrite He.
  - intros H Hc Hnone. rewrite (Hload H Hc).
    assert (Hn : forall l st, named XML_SHIP l = [] ->
                 ships_load_nodes l st = Some (st, [])).
    { induction l as [|n l IH]; intros st Hl; [reflexivity|].
      cbn [ships_load_nodes]. rewrite named_cons in Hl.
      destruct (xml_isNode n XML_SHIP); [discriminate | now apply IH]. }
    rewrite (Hn _ _ Hnone). reflexivity.
Qed.

(** A [class] element without text leaves the first loop, and so the
    parse and the whole load, undefined. *)
Lemma ship_parse_class_textless l t c :
  In c (named "class" l) -> xml_get c = None -> ship_parse_class l t = None.
Proof.
  revert t. induction l as [|n l IH]; intros t Hc Hg; [destruct Hc|].
  cbn [ship_parse_class]. rewrite named_cons in Hc.
  destruct (xml_isNode n "class") eqn:En.
  - rewrite (xml_isNode_isStart _ _ En). cbn [negb].
    destruct Hc as [<-|Hc]; [now rewrite Hg|].
    destruct (xml_get n); [now apply IH | reflexivity].
  - destruct (xml_isStart n); cbn [negb]; now apply IH.
Qed.

Lemma ship_parse_textless_class parent c :
  In c (elements_named "class" parent) -> xml_get c = None ->
  ship_parse parent = None.
Proof.
  intros Hc Hg. rewrite ship_parse_eq.
  now rewrite (ship_parse_class_textless _ _ c Hc Hg).
Qed.

Lemma ships_load_nodes_textless l stack n c :
  In n (named XML_SHIP l) -> In c (elements_named "class" n) -> xml_get c = None ->
  ships_load_nodes l stack = None.
Proof.
  revert stack. induction l as [|x l IH]; intros stack Hn Hc Hg; [destruct Hn|].
  cbn [ships_load_nodes]. rewrite named_cons in Hn.
  destruct (xml_isNode x XML_SHIP).
  - destruct Hn as [<-|Hn].
    + now rewrite (ship_parse_textless_class _ c Hc Hg).
    + destruct (ship_parse x) as [[[rc temp] log1]|]; [|reflexivity].
      now rewrite (IH _ Hn Hc Hg).
  - now apply IH.
Qed.

Lemma ships_load_textless_class (ship_stack : option (array Ship)) (node : xmlNode)
    (rest : xmlDoc) (n c : xmlNode) :
  strcmp (xml_name node) XML_ID = 0 ->
  In n (elements_named XML_SHIP node) ->
  In c (elements_named "class" n) -> xml_get c = None ->
  ships_load ship_stack (node :: rest) = None.
Proof.
  intros Hroot Hn Hc Hg. unfold ships_load.
  apply Z.eqb_eq in Hroot. rewrite Hroot. cbn [negb].
  destruct (xml_children node) as [|x l] eqn:E.
  - unfold elements_named in Hn. rewrite E in Hn. destruct Hn.
  - rewrite (ships_load_nodes_textless (x :: l) _ n c); try assumption; [reflexivity|].
    unfold elements_named in Hn. now rewrite E in Hn.
Qed.

(** ** The thrust of a ship that declares none *)

Lemma filter_nil_Forall {A : Type} (f : A -> bool) (l : list A) :
  List.filter f l = [] -> Forall (fun x => f x = false) l.
Proof.
  induction l as [|a l IH]; cbn [List.filter]; [constructor|].
  destruct (f a) eqn:E; [discriminate|]. intros H. constructor; auto.
Qed.

Lemma ship_parse_movement_thrust l temp :
  Forall (fun c => xml_isNode c "thrust" = false) l ->
  thrust (fst (xml_foreach ship_parse_movement l temp)) = thrust temp.
Proof.
  apply (xml_foreach_frame thrust ship_parse_movement).
  intros s n Hn. unfold ship_parse_movement. rewrite Hn. body_cases; reflexivity.
Qed.

Lemma ship_parse_node_thrust temp node :
  (xml_isNode node "movement" = true -> elements_named "thrust" node = []) ->
  thrust (fst (ship_parse_node temp node)) = thrust temp.
Proof.
  intros Hn. apply ship_parse_node_cases; intros; try reflexivity.
  - apply ship_loadGFX_frame.
  - apply ship_parse_movement_thrust. apply filter_nil_Forall. now apply Hn.
  - apply ship_parse_health_frame.
  - apply ship_parse_characteristics_frame.
  - apply ship_parse_slots_frame.
  - apply ship_parse_stats_frame.
Qed.

Lemma main_loop_thrust l temp :
  Forall (fun n => xml_isNode n "movement" = true -> elements_named "thrust" n = []) l ->
  thrust (fst (xml_foreach ship_parse_node l temp)) = thrust temp.
Proof.
  apply (xml_foreach_frame thrust ship_parse_node).
  intros s n Hn. now apply ship_parse_node_thrust.
Qed.

Lemma MELEMENT_log temp o str :
  snd (MELEMENT temp o str) = if o then [missing_warning temp str] else [].
Proof. unfold MELEMENT. now destruct o. Qed.

(** The validator writes the warning about the thrust exactly when the
    stored thrust compares equal to -1. *)
Lemma ship_validate_thrust temp :
  In (missing_warning temp "thrust") (snd (ship_validate temp)) <->
  (thrust temp =? -1)%float = true.
Proof.
  unfold ship_validate. rewrite !snd_bind, !MELEMENT_log.
  rewrite !in_app_iff.
  repeat match goal with
    | |- context [In _ (if ?b then [missing_warning temp ?s] else [])] =>
        lazymatch s with
        | "thrust"%string => fail
        | _ =>
            let H := fresh in
            assert (H : In (missing_warning temp "thrust")
                          (if b then [missing_warning temp s] else []) <-> False)
              by (destruct b; cbn; intuition discriminate);
            rewrite H; clear H
        end
    end.
  destruct (thrust temp =? -1)%float; cbn; intuition discriminate.
Qed.

(** X1 (the part of C1 the code keeps): a ship element that declares no
    thrust is stored with the default -1 multiplied by its mass; the
    validator then compares that product with -1, so that it flags the
    thrust exactly when -1 times the mass is -1. *)
Theorem ship_parse_unset_thrust (parent : xmlNode) (rc : Z) (s : Ship)
    (log : list event) :
  ship_parse parent = Some ((rc, s), log) ->
  no_thrust_declared parent ->
  thrust s = (-1 * mass s)%float /\
  (In (missing_warning s "thrust") (snd (ship_validate s)) <->
   (-1 * mass s =? -1)%float = true).
Proof.
  intros Hparse Hno. rewrite ship_parse_eq in Hparse.
  destruct (ship_parse_class _ _) as [t1|] eqn:Hclass; [|discriminate].
  cbn zeta in Hparse. injection Hparse as _ Hs Hlog.
  apply ship_parse_class_frame in Hclass.
  destruct Hclass as (_ & _ & _ & Hthrust1 & _).
  assert (Hmain : thrust (fst (xml_foreach ship_parse_node (xml_children parent) t1))
                  = (-1)%float).
  { rewrite main_loop_thrust; [now rewrite Hthrust1|].
    apply List.Forall_forall. intros n Hin Hmov.
    unfold no_thrust_declared in Hno.
    rewrite List.Forall_forall in Hno. apply Hno.
    apply List.filter_In. now split. }
  assert (Ht : thrust s = (-1 * mass s)%float).
  { rewrite <- Hs. unfold ship_postprocess. cbn [thrust mass]. ship_fields.
    fold (thrust (fst (xml_foreach ship_parse_node (xml_children parent) t1))).
    rewrite Hmain. reflexivity. }
  split; [exact Ht|]. rewrite ship_validate_thrust, Ht. reflexivity.
Qed.

(** ** ship_compareTech is the comparison of a total order *)

Lemma ShipClass_value_inj (x y : ShipClass) :
  ShipClass_value x = ShipClass_value y -> x = y.
Proof. destruct x, y; cbn; intros H; congruence. Qed.

Lemma ship_compareTech_named (a b : Ship) (na nb : string) :
  name a = Some na -> name b = Some nb ->
  ship_compareTech a b =
  Some (if ShipClass_value (class a) <? ShipClass_value (class b) then 1
        else if ShipClass_value (class b) <? ShipClass_value (class a) then -1
        else if price a <? price b then 1
        else if price b <? price a then -1
        else strcmp na nb).
Proof.
  intros Ha Hb. unfold ship_compareTech. rewrite Ha, Hb, !Z.gtb_ltb.
  repeat match goal with |- context [?x <? ?y] => destruct (x <? y) end;
    reflexivity.
Qed.

(** C9: on ships that have a name, [ship_compareTech] is the comparison of
    a total order: the result is negative exactly when the first ship has
    the higher class, or the same class and the higher price, or the same
    class and price and the smaller name under [strcmp]; it is 0 exactly
    for equal class, price and name; the order is total, asymmetric and
    transitive; a strictly higher class sorts first whatever the prices;
    and between ships of one class and price the sign of the result is
    the lexicographic comparison [String.compare] of the names. *)
Theorem ship_compareTech_total_order (a b c : Ship) (na nb nc : string) :
  name a = Some na -> name b = Some nb -> name c = Some nc ->
  (exists r, ship_compareTech a b = Some r /\
     (r < 0 <-> sorts_before a b) /\
     (r > 0 <-> sorts_before b a) /\
     (r = 0 <-> same_keys a b)) /\
  (sorts_before a b \/ same_keys a b \/ sorts_before b a) /\
  ~ (sorts_before a b /\ sorts_before b a) /\
  (sorts_before a b -> sorts_before b c -> sorts_before a c) /\
  (ShipClass_value (class a) > ShipClass_value (class b) ->
   ship_compareTech a b = Some (-1)) /\
  (class a = class b -> price a > price b -> ship_compareTech a b = Some (-1)) /\
  (class a = class b -> price a = price b ->
   ship_compareTech a b = Some (strcmp na nb)) /\
  (class a = class b -> price a = price b -> cstring na -> cstring nb ->
   exists r, ship_compareTech a b = Some r /\
             (r ?= 0) = String.compare na nb).
Proof.
  intros Ha Hb Hc.
  rewrite (ship_compareTech_named a b na nb Ha Hb).
  pose proof (strcmp_lexicographic na nb) as Lex.
  unfold sorts_before, same_keys, name_cmp. rewrite Ha, Hb, Hc.
  assert (Cab : class a = class b <-> ShipClass_value (class a) = ShipClass_value (class b))
    by (split; [congruence | apply ShipClass_value_inj]).
  assert (Cba : class b = class a <-> ShipClass_value (class a) = ShipClass_value (class b))
    by (split; [congruence | intros E; symmetry; now apply ShipClass_value_inj]).
  assert (Cbc : class b = class c <-> ShipClass_value (class b) = ShipClass_value (class c))
    by (split; [congruence | apply ShipClass_value_inj]).
  assert (Cac : class a = class c <-> ShipClass_value (class a) = ShipClass_value (class c))
    by (split; [congruence | apply ShipClass_value_inj]).
  pose proof (strcmp_antisym na nb) as Sab.
  pose proof (fun h1 h2 => strcmp_trans_lt na nb nc h1 h2) as Tabc.
  set (va := ShipClass_value (class a)) in *.
  set (vb := ShipClass_value (class b)) in *.
  set (vc := ShipClass_value (class c)) in *.
  set (sab := strcmp na nb) in *. set (sba := strcmp nb na) in *.
  set (sbc := strcmp nb nc) in *. set (sac := strcmp na nc) in *.
  clearbody va vb vc sab sba sbc sac.
  split; [|split; [|split; [|split; [|split; [|split; [|split]]]]]].
  - eexists. split; [reflexivity|]. rewrite Cab, Cba.
    destruct (Z.ltb_spec va vb), (Z.ltb_spec vb va),
      (Z.ltb_spec (price a) (price b)), (Z.ltb_spec (price b) (price a)); lia.
  - rewrite Cab, Cba. lia.
  - rewrite Cab, Cba. lia.
  - rewrite Cab, Cbc, Cac.
    intros [H1 | [H1 [H2 | [H2 H3]]]] [H4 | [H4 [H5 | [H5 H6]]]]; lia.
  - intros H. destruct (Z.ltb_spec va vb), (Z.ltb_spec vb va); try lia; reflexivity.
  - rewrite Cab. intros H1 H2.
    destruct (Z.ltb_spec va vb), (Z.ltb_spec vb va),
      (Z.ltb_spec (price a) (price b)), (Z.ltb_spec (price b) (price a));
      try lia; reflexivity.
  - rewrite Cab. intros H1 H2.
    destruct (Z.ltb_spec va vb), (Z.ltb_spec vb va),
      (Z.ltb_spec (price a) (price b)), (Z.ltb_spec (price b) (price a));
      try lia; reflexivity.
  - rewrite Cab. intros H1 H2 Na Nb. eexists. split; [|exact (Lex Na Nb)].
    destruct (Z.ltb_spec va vb), (Z.ltb_spec vb va),
      (Z.ltb_spec (price a) (price b)), (Z.ltb_spec (price b) (price a));
      try lia; reflexivity.
Qed.

End ShipLoaderFacts.

(** ** strcasecmp *)

Lemma tolower_zero (c : ascii) : tolower c = Ascii.zero <-> c = Ascii.zero.
Proof.
  unfold tolower. split.
  - destruct ((65 <=? N_of_ascii c) && (N_of_ascii c <=? 90))%N eqn:E; [|trivial].
    intros H. exfalso.
    apply (f_equal N_of_ascii) in H. rewrite N_ascii_embedding in H.
    + cbn in H. lia.
    + apply andb_true_iff in E. destruct E as [_ E]. apply N.leb_le in E. lia.
  - intros ->. reflexivity.
Qed.

Lemma strcasecmp_lower (a b : string) :
  strcasecmp a b = strcmp (lower a) (lower b).
Proof.
  revert b. induction a as [|c1 r1 IH]; intros [|c2 r2]; cbn [strcasecmp lower strcmp cstr_head];
    try reflexivity.
  rewrite IH.
  destruct (Ascii.eqb_spec (tolower c1) (tolower c2)) as [E|E]; [|reflexivity].
  destruct (Ascii.eqb_spec c1 Ascii.zero) as [Z1|Z1].
  - subst c1. reflexivity.
  - destruct (Ascii.eqb_spec (tolower c1) Ascii.zero) as [Z2|Z2]; [|reflexivity].
    apply (proj1 (tolower_zero _)) in Z2. contradiction.
Qed.

Lemma strcasecmp_refl (a : string) : strcasecmp a a = 0.
Proof. rewrite strcasecmp_lower. apply strcmp_refl. Qed.

Lemma strcasecmp_sym (a b : string) : strcasecmp a b = 0 -> strcasecmp b a = 0.
Proof. rewrite !strcasecmp_lower, (strcmp_antisym (lower b)). lia. Qed.

Lemma strcasecmp_trans (a b c : string) :
  strcasecmp a b = 0 -> strcasecmp b c = 0 -> strcasecmp a c = 0.
Proof.
  rewrite !strcasecmp_lower. intros H1 H2.
  now rewrite (strcmp_eq_0_cong _ _ _ H1).
Qed.

Lemma strcmp_strcasecmp (a b : string) : strcmp a b = 0 -> strcasecmp a b = 0.
Proof.
  revert b. induction a as [|c1 r1 IH]; intros b H;
    rewrite strcmp_unfold in H; destruct b as [|c2 r2];
    cbn [cstr_head strcasecmp] in *.
  - reflexivity.
  - destruct (Ascii.eqb_spec Ascii.zero c2) as [<-|E]; [reflexivity|].
    exfalso. byte_facts. lia.
  - destruct (Ascii.eqb_spec c1 Ascii.zero) as [->|E]; [reflexivity|].
    exfalso. byte_facts. lia.
  - destruct (Ascii.eqb_spec c1 c2) as [<-|E].
    + rewrite Ascii.eqb_refl. destruct (Ascii.eqb c1 Ascii.zero); [reflexivity|].
      now apply IH.
    + exfalso. byte_facts. lia.
Qed.

(** ** The last element of a list *)

Lemma last_cons {A : Type} (a : A) (l : list A) (d : A) :
  List.last (a :: l) d = List.last l a.
Proof.
  revert a d. induction l as [|b l IH]; intros a d; [reflexivity|].
  change (List.last (a :: b :: l) d) with (List.last (b :: l) d).
  now rewrite !IH.
Qed.

Lemma last_app_default {A : Type} (l1 l2 : list A) (d : A) :
  List.last (l1 ++ l2) d = List.last l2 (List.last l1 d).
Proof.
  revert d. induction l1 as [|a l1 IH]; intros d; [reflexivity|].
  rewrite <- app_comm_cons, !last_cons. apply IH.
Qed.

Lemma flat_map_if {A B : Type} (f : A -> bool) (h : A -> list B) (l : list A) :
  flat_map (fun n => if f n then h n else []) l = flat_map h (List.filter f l).
Proof.
  induction l as [|a l IH]; [reflexivity|]. cbn [flat_map List.filter].
  destruct (f a); cbn [flat_map app]; now rewrite IH.
Qed.

Lemma flat_map_singleton {A B : Type} (g : A -> B) (l : list A) :
  flat_map (fun n => [g n]) l = map g l.
Proof. induction l as [|a l IH]; [reflexivity|]. cbn. now rewrite IH. Qed.

(** ** The ship stack *)

Section ShipStackFacts.

Context {world : Collaborators}.

Notation "'let*' x ':=' m 'in' k" := (bind m (fun x => k))
  (at level 10, x name, m at level 100, k at level 200).
Notation "'let*' ' p ':=' m 'in' k" := (bind m (fun x => let 'p := x in k))
  (at level 10, p pattern, m at level 100, k at level 200).
Notation "m ';;' k" := (bind m (fun _ => k))
  (at level 100, k at level 200, right associativity).
#[local] Arguments xml_nodeProp : simpl never.
#[local] Arguments xml_get : simpl never.
#[local] Arguments xml_isNode : simpl never.
#[local] Arguments xml_isStart : simpl never.
#[local] Arguments ship_parseSlot : simpl never.

Lemma ship_get_loop_found (l : list Ship) (k : Z) (nm : string) (i : Z) :
  ship_get_loop l k nm = Some (Some i) <->
  exists pre s post, l = pre ++ s :: post /\ i = k + Z.of_nat (length pre) /\
    called nm s /\ Forall (not_called nm) pre.
Proof.
  revert k. induction l as [|s l IH]; intros k; cbn [ship_get_loop].
  - split; [discriminate|]. intros (pre & s & post & E & _). now destruct pre.
  - destruct (name s) as [n|] eqn:En.
    + destruct (Z.eqb_spec (strcmp n nm) 0) as [E0|E0].
      * split.
        -- intros [= <-]. exists [], s, l. repeat split; [cbn; lia | | constructor].
           now exists n.
        -- intros (pre & s' & post & E & -> & Hc & Hpre).
           destruct pre as [|p pre]; [cbn; do 2 f_equal; lia|].
           exfalso. injection E as <- _. inversion Hpre as [|? ? (n' & Hn' & Hd) _]; subst.
           congruence.
      * rewrite IH. split.
        -- intros (pre & s' & post & -> & -> & Hc & Hpre).
           exists (s :: pre), s', post. repeat split; [cbn [length]; lia | assumption |].
           constructor; [now exists n | assumption].
        -- intros (pre & s' & post & E & -> & Hc & Hpre).
           destruct pre as [|p pre].
           ++ exfalso. injection E as <- _. destruct Hc as (n' & Hn' & Hz). congruence.
           ++ injection E as <- ->. inversion Hpre; subst.
              exists pre, s', post. repeat split; [cbn [length]; lia | assumption | assumption].
    + split; [discriminate|].
      intros (pre & s' & post & E & _ & (n' & Hn' & _) & Hpre).
      destruct pre as [|p pre].
      * injection E as <- _. congruence.
      * injection E as <- _. inversion Hpre as [|? ? (n'' & Hn'' & _) _]; subst. congruence.
Qed.

Lemma ship_get_loop_none (l : list Ship) (k : Z) (nm : string) :
  ship_get_loop l k nm = Some None <-> Forall (not_called nm) l.
Proof.
  revert k. induction l as [|s l IH]; intros k; cbn [ship_get_loop].
  - split; [constructor | reflexivity].
  - destruct (name s) as [n|] eqn:En.
    + destruct (Z.eqb_spec (strcmp n nm) 0) as [E0|E0].
      * split; [discriminate|]. intros H. inversion H as [|? ? (n' & Hn' & Hd) _]; subst.
        congruence.
      * rewrite IH. split.
        -- intros H. constructor; [now exists n | assumption].
        -- intros H. now inversion H.
    + split; [discriminate|]. intros H. inversion H as [|? ? (n' & Hn' & _) _]; subst.
      congruence.
Qed.

Lemma ship_getW_loop_eq (l : list Ship) (k : Z) (nm : string) :
  ship_getW_loop l k nm = ship_get_loop l k nm.
Proof.
  revert k. induction l as [|s l IH]; intros k; cbn [ship_getW_loop ship_get_loop];
    [reflexivity|].
  destruct (name s); [|reflexivity]. destruct (_ =? 0); [reflexivity | apply IH].
Qed.

Lemma ship_get_loop_undefined (l : list Ship) (k : Z) (nm : string) :
  ship_get_loop l k nm = None <->
  exists pre s post, l = pre ++ s :: post /\ name s = None /\
    Forall (not_called nm) pre.
Proof.
  revert k. induction l as [|s l IH]; intros k; cbn [ship_get_loop].
  - split; [discriminate|]. intros (pre & s & post & E & _). now destruct pre.
  - destruct (name s) as [n|] eqn:En.
    + destruct (Z.eqb_spec (strcmp n nm) 0) as [E0|E0].
      * split; [discriminate|]. intros (pre & s' & post & E & Hs & Hpre).
        destruct pre as [|p pre]; injection E as <- _; [congruence|].
        inversion Hpre as [|? ? (n' & Hn' & Hd) _]; subst. congruence.
      * rewrite IH. split.
        -- intros (pre & s' & post & -> & Hs & Hpre).
           exists (s :: pre), s', post. repeat split; [assumption|].
           constructor; [now exists n | assumption].
        -- intros (pre & s' & post & E & Hs & Hpre).
           destruct pre as [|p pre]; injection E as <- E; [congruence|].
           inversion Hpre; subst. now exists pre, s', post.
    + split; [|reflexivity]. intros _. exists [], s, l. repeat split; [assumption|constructor].
Qed.

(** X4: ship_get: the result is the offset of the first ship of the stack
    called [nm], and then nothing is logged; it is [NULL], with one warning,
    exactly when every ship of the stack has another name; and the call is
    undefined exactly when a ship without name comes before any ship called
    [nm]. *)
Theorem ship_get_spec (ship_stack : array Ship) (nm : string) :
  (forall i log, ship_get ship_stack nm = Some (Some i, log) <->
                 log = [] /\ first_called ship_stack nm i) /\
  (forall log, ship_get ship_stack nm = Some (None, log) <->
               log = [WARN "Ship %s does not exist" [ArgS (Some nm)]] /\
               Forall (not_called nm) (array_elems ship_stack)) /\
  (ship_get ship_stack nm = None <->
   exists pre s post, array_elems ship_stack = pre ++ s :: post /\
     name s = None /\ Forall (not_called nm) pre) /\
  (forall i, first_called ship_stack nm i ->
             0 <= i < array_size ship_stack /\
             exists s, ship_at ship_stack i = Some s /\ called nm s).
Proof.
  pose proof (ship_get_loop_found (array_elems ship_stack) 0 nm) as Hf.
  pose proof (ship_get_loop_none (array_elems ship_stack) 0 nm) as Hn.
  pose proof (ship_get_loop_undefined (array_elems ship_stack) 0 nm) as Hu.
  assert (Hf' : forall i, ship_get_loop (array_elems ship_stack) 0 nm = Some (Some i) <->
                          first_called ship_stack nm i) by exact Hf.
  clear Hf. unfold ship_get.
  split; [|split; [|split]].
  - intros i log. rewrite <- Hf'.
    destruct (ship_get_loop (array_elems ship_stack) 0 nm) as [[j|]|]; cbn;
      split; try discriminate; try (intros [_ ?]; discriminate).
    + now intros [= -> <-].
    + now intros [-> [= ->]].
  - intros log. rewrite <- Hn.
    destruct (ship_get_loop (array_elems ship_stack) 0 nm) as [[j|]|]; cbn;
      split; try discriminate; try (intros [_ ?]; discriminate).
    + now intros [= <-].
    + now intros [-> _].
  - rewrite <- Hu.
    destruct (ship_get_loop (array_elems ship_stack) 0 nm) as [[j|]|]; cbn;
      split; try discriminate; reflexivity.
  - intros i (pre & s & post & Es & -> & Hc & Hpre).
    unfold array_size, ship_at. rewrite Es, length_app. cbn [length].
    split; [lia|]. exists s. split; [|assumption].
    destruct (Z.ltb_spec (Z.of_nat (length pre)) 0); [lia|].
    rewrite Nat2Z.id.
    replace (length pre) with (length pre + 0)%nat at 1 by lia.
    now rewrite lookup_app_r, Nat.add_comm, Nat.add_sub by lia.
Qed.

(** X5: ship_getW returns what ship_get returns, and is undefined where
    ship_get is. *)
Theorem ship_getW_agrees (ship_stack : array Ship) (nm : string) :
  ship_getW ship_stack nm =
  match ship_get ship_stack nm with
  | Some (r, _) => Some r
  | None => None
  end.
Proof.
  unfold ship_getW, ship_get. rewrite ship_getW_loop_eq.
  now destruct (ship_get_loop (array_elems ship_stack) 0 nm) as [[j|]|].
Qed.

Lemma ship_existsCase_loop_canonical (l : list Ship) (nm r : string) :
  ship_existsCase_loop l nm = Some (Some r) ->
  strcasecmp nm r = 0 /\ (exists s, In s l /\ name s = Some r) /\
  ship_existsCase_loop l r = Some (Some r).
Proof.
  induction l as [|s l IH]; cbn [ship_existsCase_loop]; [discriminate|].
  destruct (name s) as [n|] eqn:En; [|discriminate].
  destruct (Z.eqb_spec (strcasecmp nm n) 0) as [E0|E0].
  - intros [= <-]. split; [assumption|]. split; [exists s; split; [now left | assumption]|].
    now rewrite strcasecmp_refl.
  - intros H. destruct (IH H) as (Hc & (s' & Hin & Hs') & Hr).
    split; [assumption|]. split; [exists s'; split; [now right | assumption]|].
    destruct (Z.eqb_spec (strcasecmp r n) 0) as [E1|E1]; [|assumption].
    exfalso. apply E0. now apply (strcasecmp_trans nm r n).
Qed.

(** X6: ship_existsCase: the name it returns is the name of a ship of the
    stack, equal to the query up to the case of its letters, and it is the
    canonical spelling: asked for it, ship_existsCase returns it again. *)
Theorem ship_existsCase_canonical (ship_stack : array Ship) (nm r : string) :
  ship_existsCase ship_stack nm = Some (Some r) ->
  strcasecmp nm r = 0 /\
  (exists s, In s (array_elems ship_stack) /\ name s = Some r) /\
  ship_existsCase ship_stack r = Some (Some r).
Proof. apply ship_existsCase_loop_canonical. Qed.

Lemma ship_getW_loop_existsCase (l : list Ship) (k : Z) (nm : string) (i : Z) :
  ship_getW_loop l k nm = Some (Some i) ->
  exists r, ship_existsCase_loop l nm = Some (Some r) /\ strcasecmp nm r = 0.
Proof.
  revert k. induction l as [|s l IH]; intros k;
    cbn [ship_getW_loop ship_existsCase_loop]; [discriminate|].
  destruct (name s) as [n|] eqn:En; [|discriminate].
  destruct (Z.eqb_spec (strcasecmp nm n) 0) as [E0|E0].
  - intros _. now exists n.
  - destruct (Z.eqb_spec (strcmp n nm) 0) as [E1|E1].
    + exfalso. apply E0. apply strcasecmp_sym. now apply strcmp_strcasecmp.
    + apply IH.
Qed.

(** X7: a name ship_getW finds, ship_existsCase finds too: an exact match is a
    match up to case. The name returned may be that of an earlier ship of the
    stack. *)
Theorem ship_getW_then_existsCase (ship_stack : array Ship) (nm : string) (i : Z) :
  ship_getW ship_stack nm = Some (Some i) ->
  exists r, ship_existsCase ship_stack nm = Some (Some r) /\ strcasecmp nm r = 0.
Proof. apply ship_getW_loop_existsCase. Qed.

(** ** ships_load, then the lookups *)

Lemma ship_parse_name (parent : xmlNode) (rc : Z) (s : Ship) (log : list event) :
  ship_parse parent = Some ((rc, s), log) ->
  rc = 0 /\ name s = xml_nodeProp parent "name".
Proof.
  intros Hparse. rewrite ship_parse_eq in Hparse.
  destruct (ship_parse_class _ _) as [t1|] eqn:Hclass; [|discriminate].
  cbn zeta in Hparse. injection Hparse as <- <- _. split; [reflexivity|].
  apply ship_parse_class_frame in Hclass. destruct Hclass as (Hname & _).
  pose proof (ship_postprocess_frame (fst (xml_foreach ship_parse_node (xml_children parent) t1)))
    as (Hpost & _).
  pose proof (main_loop_ident (xml_children parent) t1) as Hmain.
  apply (f_equal fst) in Hpost, Hmain. cbn [ident_of fst] in Hpost, Hmain.
  now rewrite Hpost, Hmain, Hname.
Qed.

Lemma ships_load_nodes_inv (nodes : list xmlNode) (stack stack' : array Ship)
    (log : list event) :
  ships_load_nodes nodes stack = Some (stack', log) ->
  exists ships,
    array_elems stack' = array_elems stack ++ ships /\
    Forall2 (fun n s => exists l, ship_parse n = Some ((0, s), l))
      (named XML_SHIP nodes) ships.
Proof.
  revert stack log. induction nodes as [|n nodes IH]; intros stack log;
    cbn [ships_load_nodes].
  - intros [= <- _]. exists []. rewrite app_nil_r. split; [reflexivity | constructor].
  - rewrite named_cons. destruct (xml_isNode n XML_SHIP).
    + destruct (ship_parse n) as [[[rc s] log1]|] eqn:Hp; [|discriminate].
      destruct (ships_load_nodes nodes (array_grow stack s)) as [[r log2]|] eqn:Hr;
        [|discriminate].
      intros [= <- _]. destruct (IH _ _ Hr) as (ships & He & Hf).
      exists (s :: ships). split.
      * rewrite He. cbn [array_grow array_elems]. now rewrite <- app_assoc.
      * constructor; [|assumption]. exists log1.
        destruct (ship_parse_name _ _ _ _ Hp) as [-> _]. assumption.
    + apply IH.
Qed.

Lemma ships_load_inv (old : option (array Ship)) (root : xmlNode) (rest : xmlDoc)
    (st : option (array Ship)) (log : list event) :
  ships_load old (root :: rest) = Some ((0, st), log) ->
  exists stack pre,
    st = Some stack /\
    log = pre ++ [loaded_line (array_size stack)] /\
    Forall2 (fun n s => exists l, ship_parse n = Some ((0, s), l))
      (elements_named XML_SHIP root) (array_elems stack).
Proof.
  unfold ships_load.
  destruct (negb (strcmp (xml_name root) XML_ID =? 0)); [discriminate|].
  destruct (xml_children root) as [|c cs] eqn:Hc; [discriminate|].
  destruct (ships_load_nodes (c :: cs) array_create) as [[stack log1]|] eqn:Hl;
    [|discriminate].
  cbn. intros [= <- <-]. exists (array_shrink stack), log1.
  split; [reflexivity|]. split; [reflexivity|].
  destruct (ships_load_nodes_inv _ _ _ _ Hl) as (ships & He & Hf).
  cbn [array_shrink array_elems array_create] in *. rewrite app_nil_l in He.
  rewrite He. unfold elements_named. rewrite Hc. exact Hf.
Qed.

(** X8: ships_load, then ship_getAll: a load that returns 0 leaves a stack
    with one ship per ship element of the root, whatever the stack held
    before, and the last line of its log gives that number, with the plural
    [s] unless it is 1. *)
Theorem ships_load_reports_count (old : option (array Ship)) (root : xmlNode)
    (rest : xmlDoc) (st : option (array Ship)) (log : list event) :
  ships_load old (root :: rest) = Some ((0, st), log) ->
  exists stack pre,
    st = Some stack /\
    snd (ship_getAll stack) = Z.of_nat (length (elements_named XML_SHIP root)) /\
    log = pre ++ [loaded_line (snd (ship_getAll stack))].
Proof.
  intros H. destruct (ships_load_inv _ _ _ _ _ H) as (stack & pre & -> & -> & Hf).
  exists stack, pre. split; [reflexivity|]. split; [|reflexivity].
  cbn [ship_getAll snd]. unfold array_size.
  now rewrite (Forall2_length _ _ _ Hf).
Qed.

Lemma ship_get_loop_parsed (nodes : list xmlNode) (ships : list Ship) (k : Z)
    (nm : string) :
  Forall2 (fun n s => exists l, ship_parse n = Some ((0, s), l)) nodes ships ->
  Forall (fun n => xml_nodeProp n "name" <> None) nodes ->
  match List.find (has_name nm) nodes with
  | Some first =>
      exists i s l, ship_get_loop ships k nm = Some (Some i) /\
        k <= i /\ ships !! Z.to_nat (i - k) = Some s /\
        ship_parse first = Some ((0, s), l)
  | None => ship_get_loop ships k nm = Some None
  end.
Proof.
  intros Hf. revert k. induction Hf as [|n s nodes ships (l & Hp) Hf IH]; intros k Hn.
  - reflexivity.
  - inversion Hn as [|? ? Hn1 Hn2]; subst.
    destruct (ship_parse_name _ _ _ _ Hp) as [_ Hname].
    cbn [List.find ship_get_loop]. unfold has_name at 1. rewrite Hname.
    destruct (xml_nodeProp n "name") as [k0|]; [|congruence].
    destruct (strcmp k0 nm =? 0).
    + exists k, s, l. rewrite Z.sub_diag. repeat split; [lia | assumption].
    + specialize (IH (k + 1) Hn2).
      destruct (List.find (has_name nm) nodes) as [first|]; [|assumption].
      destruct IH as (i & s' & l' & Hi & Hle & Hs & Hp').
      exists i, s', l'. repeat split; [assumption | lia | | assumption].
      replace (Z.to_nat (i - k)) with (S (Z.to_nat (i - (k + 1)))) by lia.
      exact Hs.
Qed.

(** X9: ships_load, then ship_get: when every ship element of the root has a
    name, a name that a ship element carries is found, without warning, at the
    ship parsed from the first element that carries it; a name no ship element
    carries gives [NULL] and the warning. *)
Theorem ships_load_then_get (old : option (array Ship)) (root : xmlNode)
    (rest : xmlDoc) (stack : array Ship) (log : list event) (nm : string) :
  ships_load old (root :: rest) = Some ((0, Some stack), log) ->
  Forall (fun n => xml_nodeProp n "name" <> None) (elements_named XML_SHIP root) ->
  match List.find (has_name nm) (elements_named XML_SHIP root) with
  | Some first =>
      exists i s l, ship_get stack nm = Some (Some i, []) /\
        ship_at stack i = Some s /\ ship_parse first = Some ((0, s), l)
  | None =>
      ship_get stack nm =
      Some (None, [WARN "Ship %s does not exist" [ArgS (Some nm)]])
  end.
Proof.
  intros H Hn. destruct (ships_load_inv _ _ _ _ _ H) as (stack' & pre & [= <-] & _ & Hf).
  pose proof (ship_get_loop_parsed _ _ 0 nm Hf Hn) as Hg.
  unfold ship_get, ship_at.
  destruct (List.find (has_name nm) (elements_named XML_SHIP root)) as [first|].
  - destruct Hg as (i & s & l & -> & Hle & Hs & Hp).
    exists i, s, l. split; [reflexivity|]. split; [|assumption].
    destruct (Z.ltb_spec i 0); [lia|]. now rewrite Z.sub_0_r in Hs.
  - now rewrite Hg.
Qed.

Lemma ship_get_loop_nameless (pre : list xmlNode) :
  forall (nodes : list xmlNode) (ships : list Ship) (k : Z) (n : xmlNode)
         (post : list xmlNode) (nm : string),
  Forall2 (fun n s => exists l, ship_parse n = Some ((0, s), l)) nodes ships ->
  nodes = pre ++ n :: post ->
  xml_nodeProp n "name" = None ->
  List.find (has_name nm) pre = None ->
  ship_get_loop ships k nm = None.
Proof.
  induction pre as [|p pre IH]; intros nodes ships k n post nm Hf -> Hn Hfind.
  - inversion Hf as [|? s ? ships' (l & Hp) Hf']; subst.
    destruct (ship_parse_name _ _ _ _ Hp) as [_ Hname].
    cbn [ship_get_loop]. now rewrite Hname, Hn.
  - inversion Hf as [|? s ? ships' (l & Hp) Hf']; subst.
    destruct (ship_parse_name _ _ _ _ Hp) as [_ Hname].
    cbn [ship_get_loop List.find] in *. unfold has_name in Hfind at 1.
    rewrite Hname. destruct (xml_nodeProp p "name") as [k0|]; [|reflexivity].
    destruct (strcmp k0 nm =? 0); [discriminate|].
    now apply (IH (pre ++ n :: post) ships' (k + 1) n post nm).
Qed.

(** X10: ships_load, then ship_get, with a ship element that has no [name]
    attribute: the ship is loaded all the same, and from then on the lookup of
    any name that no earlier ship element carries is undefined ([strcmp] is
    handed the [NULL] name). *)
Theorem ships_load_nameless_ship (old : option (array Ship)) (root : xmlNode)
    (rest : xmlDoc) (stack : array Ship) (log : list event)
    (pre : list xmlNode) (n : xmlNode) (post : list xmlNode) (nm : string) :
  ships_load old (root :: rest) = Some ((0, Some stack), log) ->
  elements_named XML_SHIP root = pre ++ n :: post ->
  xml_nodeProp n "name" = None ->
  List.find (has_name nm) pre = None ->
  array_size stack = Z.of_nat (length pre + 1 + length post) /\
  ship_get stack nm = None.
Proof.
  intros H He Hn Hfind.
  destruct (ships_load_inv _ _ _ _ _ H) as (stack' & lg & [= <-] & _ & Hf).
  split.
  - unfold array_size. rewrite <- (Forall2_length _ _ _ Hf), He, length_app.
    cbn [length]. lia.
  - unfold ship_get.
    now rewrite (ship_get_loop_nameless pre _ _ 0 n post nm Hf He Hn Hfind).
Qed.

(** ** Classes *)

(** X11: ship_classFromString matches whole names only: when it gives a class
    other than the null class, the string is, for [strcmp], the display name
    ship_class gives that class. *)
Theorem ship_classFromString_exact (str : string) (s : Ship) :
  class s = ship_classFromString str ->
  class s <> SHIP_CLASS_NULL ->
  strcmp str (ship_class s) = 0.
Proof.
  unfold ship_classFromString, ship_class. intros H Hnn.
  repeat match type of H with
    | _ = (if ?x =? 0 then _ else _) =>
        destruct (Z.eqb_spec x 0); [rewrite H; assumption|]
    end.
  contradiction.
Qed.

(** X12: ship_compareTech reads the names only when class and price tie: the
    comparison is undefined exactly for two ships of the same class and price
    of which one has no name. *)
Theorem ship_compareTech_undefined_iff (a b : Ship) :
  ship_compareTech a b = None <->
  class a = class b /\ price a = price b /\ (name a = None \/ name b = None).
Proof.
  unfold ship_compareTech. rewrite !Z.gtb_ltb.
  assert (Cab : class a = class b <-> ShipClass_value (class a) = ShipClass_value (class b))
    by (split; [congruence | apply ShipClass_value_inj]).
  rewrite Cab.
  destruct (Z.ltb_spec (ShipClass_value (class a)) (ShipClass_value (class b)));
    [split; [discriminate | lia]|].
  destruct (Z.ltb_spec (ShipClass_value (class b)) (ShipClass_value (class a)));
    [split; [discriminate | lia]|].
  destruct (Z.ltb_spec (price a) (price b)); [split; [discriminate | lia]|].
  destruct (Z.ltb_spec (price b) (price a)); [split; [discriminate | lia]|].
  assert (Hv : ShipClass_value (class a) = ShipClass_value (class b)) by lia.
  assert (Hp : price a = price b) by lia.
  destruct (name a), (name b); split; try discriminate;
    try (intros (_ & _ & [?|?]); discriminate); intros _; auto.
Qed.

(** ** The declared fields: the last declaration wins *)

(** The last write wins: when each round of a loop either leaves a part
    of the state or overwrites it with one of the values [inner] lists,
    the loop leaves the last value listed. *)
Lemma xml_foreach_last {S A : Type} (p : S -> A) (body : S -> xmlNode -> W S)
    (inner : xmlNode -> list A) :
  (forall s n, p (fst (body s n)) = List.last (inner n) (p s)) ->
  forall l s, p (fst (xml_foreach body l s)) = List.last (flat_map inner l) (p s).
Proof.
  intros Hbody l. induction l as [|n l IH]; intros s; [reflexivity|].
  rewrite xml_foreach_cons. cbn [fst flat_map].
  now rewrite IH, Hbody, last_app_default.
Qed.

Lemma xml_foreach_keeps {S A : Type} (p : S -> A) (body : S -> xmlNode -> W S) :
  (forall s n, p (fst (body s n)) = p s) ->
  forall l s, p (fst (xml_foreach body l s)) = p s.
Proof.
  intros H l s. apply xml_foreach_frame with (P := fun _ => True);
    [intros; apply H | apply Forall_True].
Qed.

(** Two names of one element. *)
Ltac two_names :=
  match goal with
  | H1 : xml_isNode ?n ?a = true, H2 : xml_isNode ?n ?b = true |- _ =>
      exfalso;
      rewrite (xml_isNode_excl n a b H1) in H2 by (vm_compute; discriminate);
      discriminate
  | H1 : xml_isStart ?n = false, H2 : xml_isNode ?n ?b = true |- _ =>
      exfalso; rewrite (xml_isNode_not_start n b H1) in H2; discriminate
  end.

(** The branches of the main loop that read graphics, slots and stats
    leave the declared fields alone. *)
Lemma ship_loadGFX_scalars temp buf sx sy :
  scalars_of (fst (let* '(_, temp) := ship_loadGFX temp buf sx sy in ret temp)) =
  scalars_of temp.
Proof.
  unfold ship_loadGFX, ship_genTargetGFX.
  destruct (PATH_MAX <=? _); [reflexivity|].
  destruct (npng_dim _) as [w h].
  destruct (SDL_targetSurfaces _ _ _ _) as [[gfx gfx_store_surface]|];
    destruct (conf_engineglow && conf_interpolate); cbn;
    try destruct (gl_newSprite _ _ _ _); reflexivity.
Qed.

Lemma slots_fill_scalars l (st : Ship * Z * Z * Z) :
  scalars_of (fst (fst (fst (fst (xml_foreach ship_parse_slots_fill l st))))) =
  scalars_of (fst (fst (fst st))).
Proof.
  apply (xml_foreach_keeps (fun x : Ship * Z * Z * Z => scalars_of (fst (fst (fst x))))).
  intros [[[s l0] m0] h0] n. rewrite slots_fill_step. body_cases; reflexivity.
Qed.

Lemma ship_parse_slots_scalars temp node :
  scalars_of (fst (ship_parse_slots temp node)) = scalars_of temp.
Proof.
  unfold ship_parse_slots. rewrite fst_bind.
  set (t1 := fst (xml_foreach ship_parse_slots_count (xml_children node) temp)).
  assert (H1 : scalars_of t1 = scalars_of temp).
  { apply xml_foreach_keeps. intros s n. rewrite slots_count_step. cbn [fst].
    body_cases; reflexivity. }
  rewrite <- H1, fst_bind.
  match goal with
  | |- context [xml_foreach ship_parse_slots_fill ?l ?x] =>
      pose proof (slots_fill_scalars l x) as H2
  end.
  destruct (xml_foreach ship_parse_slots_fill _ _) as [[[[t2 l2] m2] h2] lg].
  cbn [fst ret] in *. rewrite H2. reflexivity.
Qed.

Lemma ship_parse_stats_scalars temp node :
  scalars_of (fst (ship_parse_stats temp node)) = scalars_of temp.
Proof.
  rewrite ship_parse_stats_eq. cbn [fst]. reflexivity.
Qed.

Lemma via_scalars {A : Type} (p : Ship -> A) (a b : Ship) :
  (forall s, p (scalars_of s) = p s) -> scalars_of a = scalars_of b -> p a = p b.
Proof. intros H E. now rewrite <- (H a), <- (H b), E. Qed.

Ltac block_step :=
  intros; unfold ship_parse_movement, ship_parse_health, ship_parse_characteristics;
  body_cases; try two_names; reflexivity.

(** What a round of the main loop does to a declared field. *)
Ltac scalar_branch :=
  lazymatch goal with
  | |- context [xml_foreach _ _ _] =>
      first [apply xml_foreach_last; block_step | apply xml_foreach_keeps; block_step]
  | |- context [ship_parse_slots _ _] =>
      apply via_scalars; [intros; reflexivity | apply ship_parse_slots_scalars]
  | |- context [ship_parse_stats _ _] =>
      apply via_scalars; [intros; reflexivity | apply ship_parse_stats_scalars]
  | |- context [ship_loadGFX _ _ _ _] =>
      destruct (xml_get _);
      [apply via_scalars; [intros; reflexivity | apply ship_loadGFX_scalars]
      |reflexivity]
  | |- _ => reflexivity
  end.

Ltac scalar_node :=
  intros; unfold ship_parse_node; body_cases; try two_names; cbn [List.last];
  scalar_branch.

Lemma ship_parse_class_eq l t t' :
  ship_parse_class l t = Some t' ->
  t' = match named "class" l with
       | [] => t
       | _ :: _ => set_class (List.last (map class_of_node (named "class" l)) (class t)) t
       end.
Proof.
  revert t. induction l as [|n l IH]; intros t; cbn [ship_parse_class].
  - now intros [= <-].
  - rewrite named_cons. destruct (xml_isStart n) eqn:Hs; cbn [negb].
    + destruct (xml_isNode n "class") eqn:Hc.
      * destruct (xml_get n) as [str|] eqn:Hg; [|discriminate].
        assert (Hn : class_of_node n = ship_classFromString str)
          by (unfold class_of_node; now rewrite Hg).
        intros H. apply IH in H. rewrite H. cbn [map]. rewrite last_cons, Hn.
        destruct (named "class" l); reflexivity.
      * apply IH.
    + rewrite (xml_isNode_not_start n) by assumption. apply IH.
Qed.

Lemma main_loop_block_field {A : Type} (p : Ship -> A) (blk field : string)
    (rd : xmlNode -> A) :
  (forall temp node,
     p (fst (ship_parse_node temp node)) =
     List.last (if xml_isNode node blk
                then flat_map (fun c => if xml_isNode c field then [rd c] else [])
                       (xml_children node)
                else []) (p temp)) ->
  forall l t,
    p (fst (xml_foreach ship_parse_node l t)) =
    List.last (map rd (flat_map (elements_named field) (named blk l))) (p t).
Proof.
  intros Hnode l t. rewrite (xml_foreach_last p ship_parse_node _ Hnode).
  f_equal. unfold named. rewrite flat_map_if.
  induction (List.filter (fun c => xml_isNode c blk) l) as [|n ns IH]; [reflexivity|].
  cbn [flat_map]. rewrite map_app, IH. f_equal.
  unfold elements_named. now rewrite flat_map_if, flat_map_singleton.
Qed.

Lemma main_loop_field {A : Type} (p : Ship -> A) (tag : string) (rd : xmlNode -> A) :
  (forall temp node,
     p (fst (ship_parse_node temp node)) =
     List.last (if xml_isNode node tag then [rd node] else []) (p temp)) ->
  forall l t,
    p (fst (xml_foreach ship_parse_node l t)) =
    List.last (map rd (named tag l)) (p t).
Proof.
  intros Hnode l t. rewrite (xml_foreach_last p ship_parse_node _ Hnode).
  f_equal. unfold named. now rewrite flat_map_if, flat_map_singleton.
Qed.

Lemma node_thrust temp node :
  thrust (fst (ship_parse_node temp node)) =
  List.last (if xml_isNode node "movement"
             then flat_map (fun c => if xml_isNode c "thrust" then [xml_getFloat c] else [])
                    (xml_children node)
             else []) (thrust temp).
Proof. scalar_node. Qed.

Lemma node_turn temp node :
  turn (fst (ship_parse_node temp node)) =
  List.last (if xml_isNode node "movement"
             then flat_map (fun c => if xml_isNode c "turn" then [xml_getFloat c] else [])
                    (xml_children node)
             else []) (turn temp).
Proof. scalar_node. Qed.

Lemma node_speed temp node :
  speed (fst (ship_parse_node temp node)) =
  List.last (if xml_isNode node "movement"
             then flat_map (fun c => if xml_isNode c "speed" then [xml_getFloat c] else [])
                    (xml_children node)
             else []) (speed temp).
Proof. scalar_node. Qed.

Lemma node_dmg_absorb temp node :
  dmg_absorb (fst (ship_parse_node temp node)) =
  List.last (if xml_isNode node "health"
             then flat_map (fun c => if xml_isNode c "absorb" then [xml_getFloat c] else [])
                    (xml_children node)
             else []) (dmg_absorb temp).
Proof. scalar_node. Qed.

Lemma node_armour temp node :
  armour (fst (ship_parse_node temp node)) =
  List.last (if xml_isNode node "health"
             then flat_map (fun c => if xml_isNode c "armour" then [xml_getFloat c] else [])
                    (xml_children node)
             else []) (armour temp).
Proof. scalar_node. Qed.

Lemma node_armour_regen temp node :
  armour_regen (fst (ship_parse_node temp node)) =
  List.last (if xml_isNode node "health"
             then flat_map (fun c => if xml_isNode c "armour_regen" then [xml_getFloat c] else [])
                    (xml_children node)
             else []) (armour_regen temp).
Proof. scalar_node. Qed.

Lemma node_shield temp node :
  shield (fst (ship_parse_node temp node)) =
  List.last (if xml_isNode node "health"
             then flat_map (fun c => if xml_isNode c "shield" then [xml_getFloat c] else [])
                    (xml_children node)
             else []) (shield temp).
Proof. scalar_node. Qed.

Lemma node_shield_regen temp node :
  shield_regen (fst (ship_parse_node temp node)) =
  List.last (if xml_isNode node "health"
             then flat_map (fun c => if xml_isNode c "shield_regen" then [xml_getFloat c] else [])
                    (xml_children node)
             else []) (shield_regen temp).
Proof. scalar_node. Qed.

Lemma node_energy temp node :
  energy (fst (ship_parse_node temp node)) =
  List.last (if xml_isNode node "health"
             then flat_map (fun c => if xml_isNode c "energy" then [xml_getFloat c] else [])
                    (xml_children node)
             else []) (energy temp).
Proof. scalar_node. Qed.

Lemma node_energy_regen temp node :
  energy_regen (fst (ship_parse_node temp node)) =
  List.last (if xml_isNode node "health"
             then flat_map (fun c => if xml_isNode c "energy_regen" then [xml_getFloat c] else [])
                    (xml_children node)
             else []) (energy_regen temp).
Proof. scalar_node. Qed.

Lemma node_crew temp node :
  crew (fst (ship_parse_node temp node)) =
  List.last (if xml_isNode node "characteristics"
             then flat_map (fun c => if xml_isNode c "crew" then [xml_getInt c] else [])
                    (xml_children node)
             else []) (crew temp).
Proof. scalar_node. Qed.

Lemma node_mass temp node :
  mass (fst (ship_parse_node temp node)) =
  List.last (if xml_isNode node "characteristics"
             then flat_map (fun c => if xml_isNode c "mass" then [xml_getFloat c] else [])
                    (xml_children node)
             else []) (mass temp).
Proof. scalar_node. Qed.

Lemma node_cpu temp node :
  cpu (fst (ship_parse_node temp node)) =
  List.last (if xml_isNode node "characteristics"
             then flat_map (fun c => if xml_isNode c "cpu" then [xml_getFloat c] else [])
                    (xml_children node)
             else []) (cpu temp).
Proof. scalar_node. Qed.

Lemma node_fuel temp node :
  fuel (fst (ship_parse_node temp node)) =
  List.last (if xml_isNode node "characteristics"
             then flat_map (fun c => if xml_isNode c "fuel" then [xml_getInt c] else [])
                    (xml_children node)
             else []) (fuel temp).
Proof. scalar_node. Qed.

Lemma node_cap_cargo temp node :
  cap_cargo (fst (ship_parse_node temp node)) =
  List.last (if xml_isNode node "characteristics"
             then flat_map (fun c => if xml_isNode c "cap_cargo" then [xml_getFloat c] else [])
                    (xml_children node)
             else []) (cap_cargo temp).
Proof. scalar_node. Qed.

Lemma node_gui temp node :
  gui (fst (ship_parse_node temp node)) =
  List.last (if xml_isNode node "GUI" then [xml_getStrd node] else []) (gui temp).
Proof. scalar_node. Qed.

Lemma node_sound temp node :
  sound (fst (ship_parse_node temp node)) =
  List.last (if xml_isNode node "sound" then [sound_of_node node] else []) (sound temp).
Proof. scalar_node. Qed.

Lemma node_base_type temp node :
  base_type (fst (ship_parse_node temp node)) =
  List.last (if xml_isNode node "base_type" then [xml_getStrd node] else []) (base_type temp).
Proof. scalar_node. Qed.

Lemma node_price temp node :
  price (fst (ship_parse_node temp node)) =
  List.last (if xml_isNode node "price" then [xml_getLong node] else []) (price temp).
Proof. scalar_node. Qed.

Lemma node_license temp node :
  license (fst (ship_parse_node temp node)) =
  List.last (if xml_isNode node "license" then [xml_getStrd node] else []) (license temp).
Proof. scalar_node. Qed.

Lemma node_fabricator temp node :
  fabricator (fst (ship_parse_node temp node)) =
  List.last (if xml_isNode node "fabricator" then [xml_getStrd node] else []) (fabricator temp).
Proof. scalar_node. Qed.

Lemma node_description temp node :
  description (fst (ship_parse_node temp node)) =
  List.last (if xml_isNode node "description" then [xml_getStrd node] else []) (description temp).
Proof. scalar_node. Qed.

(** The ship a parse stores: the post-processed result of the main loop,
    run from the cleared ship with its defaults, name and class. *)
Lemma ship_parse_result (parent : xmlNode) (rc : Z) (s : Ship) (log : list event) :
  ship_parse parent = Some ((rc, s), log) ->
  exists t1,
    (t1 = ship_parse_init parent \/ exists c, t1 = set_class c (ship_parse_init parent)) /\
    class t1 = List.last (map class_of_node (elements_named "class" parent)) SHIP_CLASS_NULL /\
    s = ship_postprocess (fst (xml_foreach ship_parse_node (xml_children parent) t1)).
Proof.
  intros Hparse. rewrite ship_parse_eq in Hparse.
  destruct (ship_parse_class _ _) as [t1|] eqn:Hclass; [|discriminate].
  cbn zeta in Hparse. injection Hparse as _ Hs _.
  exists t1. apply ship_parse_class_eq in Hclass.
  unfold elements_named. fold (named "class" (xml_children parent)).
  split; [|split; [|now symmetry]].
  - destruct (named "class" (xml_children parent));
      [now left | right; eexists; exact Hclass].
  - rewrite Hclass. destruct (named "class" (xml_children parent)); reflexivity.
Qed.

Ltac parsed_field H :=
  let t1 := fresh "t1" in let Ht := fresh "Ht" in let Hc := fresh "Hc" in
  destruct (ship_parse_result _ _ _ _ H) as (t1 & Ht & Hc & ->).

(** X13: movement: of several declarations of a field the last one is stored;
    the speed as it is read, the turn rate converted from degrees to radians,
    the thrust multiplied by the mass; an undeclared speed or thrust is -1, an
    undeclared turn rate or mass is 0. *)
Theorem ship_parse_movement_fields (parent : xmlNode) (rc : Z) (s : Ship)
    (log : list event) :
  ship_parse parent = Some ((rc, s), log) ->
  speed s = last_float (declared "movement" "speed" parent) (-1) /\
  turn s = (last_float (declared "movement" "turn" parent) 0 * (M_PI / 180))%float /\
  thrust s = (last_float (declared "movement" "thrust" parent) (-1) *
              last_float (declared "characteristics" "mass" parent) 0)%float.
Proof.
  intros H. parsed_field H. unfold last_float, declared, elements_named.
  fold (named "movement" (xml_children parent)).
  fold (named "characteristics" (xml_children parent)).
  change (speed (ship_postprocess ?x)) with (speed x).
  change (turn (ship_postprocess ?x)) with (turn x * (M_PI / 180))%float.
  change (thrust (ship_postprocess ?x)) with (thrust x * mass x)%float.
  rewrite (main_loop_block_field _ _ _ _ node_speed),
          (main_loop_block_field _ _ _ _ node_turn),
          (main_loop_block_field _ _ _ _ node_thrust),
          (main_loop_block_field _ _ _ _ node_mass).
  destruct Ht as [-> | [c ->]]; repeat split; reflexivity.
Qed.

(** X14: health: of several declarations of a field the last one is stored, as
    it is read; the absorption, a percentage, is divided by 100; an undeclared
    field is 0. *)
Theorem ship_parse_health_fields (parent : xmlNode) (rc : Z) (s : Ship)
    (log : list event) :
  ship_parse parent = Some ((rc, s), log) ->
  dmg_absorb s = (last_float (declared "health" "absorb" parent) 0 / 100)%float /\
  armour s = last_float (declared "health" "armour" parent) 0 /\
  armour_regen s = last_float (declared "health" "armour_regen" parent) 0 /\
  shield s = last_float (declared "health" "shield" parent) 0 /\
  shield_regen s = last_float (declared "health" "shield_regen" parent) 0 /\
  energy s = last_float (declared "health" "energy" parent) 0 /\
  energy_regen s = last_float (declared "health" "energy_regen" parent) 0.
Proof.
  intros H. parsed_field H. unfold last_float, declared, elements_named.
  fold (named "health" (xml_children parent)).
  change (dmg_absorb (ship_postprocess ?x)) with (dmg_absorb x / 100)%float.
  change (armour (ship_postprocess ?x)) with (armour x).
  change (armour_regen (ship_postprocess ?x)) with (armour_regen x).
  change (shield (ship_postprocess ?x)) with (shield x).
  change (shield_regen (ship_postprocess ?x)) with (shield_regen x).
  change (energy (ship_postprocess ?x)) with (energy x).
  change (energy_regen (ship_postprocess ?x)) with (energy_regen x).
  rewrite (main_loop_block_field _ _ _ _ node_dmg_absorb),
          (main_loop_block_field _ _ _ _ node_armour),
          (main_loop_block_field _ _ _ _ node_armour_regen),
          (main_loop_block_field _ _ _ _ node_shield),
          (main_loop_block_field _ _ _ _ node_shield_regen),
          (main_loop_block_field _ _ _ _ node_energy),
          (main_loop_block_field _ _ _ _ node_energy_regen).
  destruct Ht as [-> | [c ->]]; repeat split; reflexivity.
Qed.

(** X15: characteristics: of several declarations of a field the last one is
    stored, as it is read; an undeclared field is 0. *)
Theorem ship_parse_characteristics_fields (parent : xmlNode) (rc : Z) (s : Ship)
    (log : list event) :
  ship_parse parent = Some ((rc, s), log) ->
  crew s = last_int (declared "characteristics" "crew" parent) 0 /\
  mass s = last_float (declared "characteristics" "mass" parent) 0 /\
  cpu s = last_float (declared "characteristics" "cpu" parent) 0 /\
  fuel s = last_int (declared "characteristics" "fuel" parent) 0 /\
  cap_cargo s = last_float (declared "characteristics" "cap_cargo" parent) 0.
Proof.
  intros H. parsed_field H. unfold last_float, last_int, declared, elements_named.
  fold (named "characteristics" (xml_children parent)).
  change (crew (ship_postprocess ?x)) with (crew x).
  change (mass (ship_postprocess ?x)) with (mass x).
  change (cpu (ship_postprocess ?x)) with (cpu x).
  change (fuel (ship_postprocess ?x)) with (fuel x).
  change (cap_cargo (ship_postprocess ?x)) with (cap_cargo x).
  rewrite (main_loop_block_field _ _ _ _ node_crew),
          (main_loop_block_field _ _ _ _ node_mass),
          (main_loop_block_field _ _ _ _ node_cpu),
          (main_loop_block_field _ _ _ _ node_fuel),
          (main_loop_block_field _ _ _ _ node_cap_cargo).
  destruct Ht as [-> | [c ->]]; repeat split; reflexivity.
Qed.

(** X16: the header of a ship: the name is the [name] attribute of the ship
    element; the class is that of the last [class] element, the null class
    without one; price, GUI, base type, license, fabricator, description and
    sound are those of the last element of their name, 0 or [NULL] without
    one. *)
Theorem ship_parse_header_fields (parent : xmlNode) (rc : Z) (s : Ship)
    (log : list event) :
  ship_parse parent = Some ((rc, s), log) ->
  name s = xml_nodeProp parent "name" /\
  class s = List.last (map class_of_node (elements_named "class" parent)) SHIP_CLASS_NULL /\
  price s = List.last (map xml_getLong (elements_named "price" parent)) 0 /\
  gui s = List.last (map xml_getStrd (elements_named "GUI" parent)) None /\
  base_type s = List.last (map xml_getStrd (elements_named "base_type" parent)) None /\
  license s = List.last (map xml_getStrd (elements_named "license" parent)) None /\
  fabricator s = List.last (map xml_getStrd (elements_named "fabricator" parent)) None /\
  description s = List.last (map xml_getStrd (elements_named "description" parent)) None /\
  sound s = List.last (map sound_of_node (elements_named "sound" parent)) 0.
Proof.
  intros H. split; [exact (proj2 (ship_parse_name _ _ _ _ H))|].
  parsed_field H. unfold elements_named.
  change (class (ship_postprocess ?x)) with (class x).
  change (price (ship_postprocess ?x)) with (price x).
  change (gui (ship_postprocess ?x)) with (gui x).
  change (base_type (ship_postprocess ?x)) with (base_type x).
  change (license (ship_postprocess ?x)) with (license x).
  change (fabricator (ship_postprocess ?x)) with (fabricator x).
  change (description (ship_postprocess ?x)) with (description x).
  change (sound (ship_postprocess ?x)) with (sound x).
  split.
  - pose proof (main_loop_ident (xml_children parent) t1) as Hi.
    apply (f_equal snd) in Hi. cbn [ident_of snd] in Hi. now rewrite Hi.
  - repeat match goal with
      | |- context [List.filter (fun c => xml_isNode c ?tag) ?l] =>
          fold (named tag l)
      end.
    rewrite (main_loop_field _ _ _ node_price),
            (main_loop_field _ _ _ node_gui),
            (main_loop_field _ _ _ node_base_type),
            (main_loop_field _ _ _ node_license),
            (main_loop_field _ _ _ node_fabricator),
            (main_loop_field _ _ _ node_description),
            (main_loop_field _ _ _ node_sound).
    destruct Ht as [-> | [c ->]]; repeat split; reflexivity.
Qed.

(** ** Graphics *)

(** X17: gfx_base: the base path is the text before the first underscore, the
    whole text when it has none. *)
Theorem gfx_base_prefix (buf : string) :
  cstring buf ->
  exists rest,
    buf = String.append (gfx_base buf) rest /\
    (rest = EmptyString \/ exists r, rest = String "_" r) /\
    forall c, In c (list_ascii_of_string (gfx_base buf)) -> c <> "_"%char.
Proof.
  induction buf as [|c r IH]; cbn [cstring gfx_base].
  - intros _. exists EmptyString. repeat split; [now left | intros c []].
  - intros [Hc Hr]. destruct (Ascii.eqb_spec c Ascii.zero) as [E|_]; [contradiction|].
    cbn [orb]. destruct (Ascii.eqb_spec c "_"%char) as [->|E].
    + exists (String "_" r). repeat split; [right; now eexists | intros c []].
    + destruct (IH Hr) as (rest & E1 & E2 & E3). exists rest.
      cbn [String.append list_ascii_of_string]. split; [now rewrite <- E1|].
      split; [assumption|]. intros c' [<- | Hin]; [assumption | now apply E3].
Qed.

(** X18: ship_loadGFX: a text with [PATH_MAX] bytes or more before any
    underscore is refused with -1 and a warning, the ship untouched. Otherwise
    the call returns 0 and the space sprite, the comm path and the mount angle
    are those of the text: a target graphic that cannot be made costs a
    warning and leaves the target and store graphics as they were, but does
    not change the return value; the engine sprite is loaded only when both
    engine glow and interpolation are configured; no declared field changes. *)
Theorem ship_loadGFX_spec (temp : Ship) (buf : string) (sx sy : Z) :
  let r := ship_loadGFX temp buf sx sy in
  let s' := snd (fst r) in
  let space := gfx_sprite buf sx sy in
  let surface := npng_readSurface (gfx_path buf EmptyString) gl_needPOT in
  (PATH_MAX <= Z.of_nat (String.length (gfx_base buf)) ->
   r = ((-1, temp), [WARN "Failed to get base path of '%s'." [ArgS (Some buf)]])) /\
  (Z.of_nat (String.length (gfx_base buf)) < PATH_MAX ->
   fst (fst r) = 0 /\
   gfx_space s' = Some space /\
   gfx_comm s' = Some (gfx_path buf SHIP_COMM) /\
   mangle s' = (2 * M_PI / (tex_sx space * tex_sy space))%float /\
   gfx_engine s' =
     (if conf_engineglow && conf_interpolate
      then gl_newSprite (gfx_path buf SHIP_ENGINE) sx sy OPENGL_TEX_MIPMAPS
      else gfx_engine temp) /\
   (SDL_targetSurfaces surface space sx sy = None ->
    gfx_target s' = gfx_target temp /\ gfx_store s' = gfx_store temp /\
    In (WARN "Unable to create ship '%s' targeting surface." [ArgS (name temp)])
      (snd r)) /\
   (SDL_targetSurfaces surface space sx sy <> None ->
    gfx_target s' <> None /\ gfx_store s' <> None) /\
   scalars_of s' = scalars_of temp).
Proof.
  cbn zeta. unfold ship_loadGFX, ship_genTargetGFX, gfx_sprite, gfx_path.
  split.
  - intros H. apply Z.leb_le in H. now rewrite H.
  - intros H. apply Z.leb_gt in H. rewrite H.
    change (String.append EmptyString SHIP_EXT) with SHIP_EXT.
    destruct (npng_dim _) as [w h].
    destruct (SDL_targetSurfaces _ _ _ _) as [[gfx gfx_store_surface]|];
      destruct (conf_engineglow && conf_interpolate); cbn;
      try destruct (gl_newSprite _ _ _ _); cbn;
      repeat split; try reflexivity; try discriminate; try congruence; auto.
Qed.

(** The slots branch of the main loop leaves alone whatever the setters
    of the slot arrays and counters leave alone. *)
Lemma ship_parse_slots_keeps {A : Type} (v : Ship -> A) temp node :
  (forall s x, v (set_outfit_structure x s) = v s) ->
  (forall s x, v (set_outfit_utility x s) = v s) ->
  (forall s x, v (set_outfit_weapon x s) = v s) ->
  (forall s x, v (set_outfit_nstructure x s) = v s) ->
  (forall s x, v (set_outfit_nutility x s) = v s) ->
  (forall s x, v (set_outfit_nweapon x s) = v s) ->
  v (fst (ship_parse_slots temp node)) = v temp.
Proof.
  intros H1 H2 H3 H4 H5 H6. unfold ship_parse_slots. rewrite fst_bind.
  set (t1 := fst (xml_foreach ship_parse_slots_count (xml_children node) temp)).
  assert (E1 : v t1 = v temp).
  { apply xml_foreach_keeps. intros s n. rewrite slots_count_step. cbn [fst].
    body_cases; auto. }
  rewrite <- E1, fst_bind.
  match goal with
  | |- context [xml_foreach ship_parse_slots_fill ?l ?x] =>
      pose proof (xml_foreach_keeps (fun y : Ship * Z * Z * Z => v (fst (fst (fst y))))
                    ship_parse_slots_fill) as E2;
      specialize (E2 ltac:(intros [[[s0 l0] m0] h0] n; rewrite slots_fill_step;
                           body_cases; cbn [fst]; auto) l x)
  end.
  destruct (xml_foreach ship_parse_slots_fill _ _) as [[[[t2 l2] m2] h2] lg].
  cbn [fst ret] in *. now rewrite E2, H3, H2, H1.
Qed.

Lemma ship_loadGFX_graphics temp buf sx sy :
  graphics_of (fst (let* '(_, temp) := ship_loadGFX temp buf sx sy in ret temp)) =
  List.last
    (if Z.of_nat (String.length (gfx_base buf)) <? PATH_MAX
     then [(Some (gfx_sprite buf sx sy), Some (gfx_path buf SHIP_COMM),
            (2 * M_PI / (tex_sx (gfx_sprite buf sx sy) *
                         tex_sy (gfx_sprite buf sx sy)))%float)]
     else []) (graphics_of temp).
Proof.
  unfold ship_loadGFX, ship_genTargetGFX, gfx_sprite, gfx_path.
  rewrite Z.leb_antisym.
  destruct (Z.of_nat (String.length (gfx_base buf)) <? PATH_MAX); cbn [negb];
    [|reflexivity].
  change (String.append EmptyString SHIP_EXT) with SHIP_EXT.
  destruct (npng_dim _) as [w h].
  destruct (SDL_targetSurfaces _ _ _ _) as [[gfx gfx_store_surface]|];
    destruct (conf_engineglow && conf_interpolate); cbn;
    try destruct (gl_newSprite _ _ _ _); reflexivity.
Qed.

Lemma node_graphics temp node :
  graphics_of (fst (ship_parse_node temp node)) =
  List.last (if xml_isNode node "GFX"
             then (if loadable node then [graphics_loaded node] else [])
             else []) (graphics_of temp).
Proof.
  unfold ship_parse_node; body_cases; try two_names; cbn [List.last];
    lazymatch goal with
    | |- context [xml_foreach _ _ _] => apply xml_foreach_keeps; block_step
    | |- context [ship_parse_slots _ _] =>
        apply ship_parse_slots_keeps; intros; reflexivity
    | |- context [ship_parse_stats _ _] => rewrite ship_parse_stats_eq; reflexivity
    | |- context [ship_loadGFX _ _ _ _] => idtac
    | |- _ => reflexivity
    end.
  unfold loadable, graphics_loaded. fold (gfx_sx node) (gfx_sy node).
  destruct (xml_get node) as [buf|]; [|reflexivity].
  apply ship_loadGFX_graphics.
Qed.

Lemma map_last {A B : Type} (f : A -> B) (l : list A) (d : A) (e : B) :
  l <> [] -> List.last (map f l) e = f (List.last l d).
Proof.
  destruct l as [|x l]; [congruence|]. intros _. cbn [map]. rewrite !last_cons.
  revert x. induction l as [|y l IH]; intros x; [reflexivity|].
  cbn [map]. rewrite !last_cons. apply IH.
Qed.

Lemma last_In {A : Type} (x : A) (l : list A) (d : A) : In (List.last (x :: l) d) (x :: l).
Proof.
  revert x. induction l as [|y l IH]; intros x; [now left|].
  right. change (List.last (x :: y :: l) d) with (List.last (y :: l) d). apply IH.
Qed.


Lemma append_cancel_r (a b c : string) :
  String.append a c = String.append b c -> a = b.
Proof.
  assert (Hlen : forall x y, String.length (String.append x y) =
                             (String.length x + String.length y)%nat).
  { intros x y. induction x as [|ch x IH]; [reflexivity|]. cbn. now rewrite IH. }
  revert b. induction a as [|x a IH]; intros [|y b] H; cbn [String.append] in H.
  - reflexivity.
  - apply (f_equal String.length) in H. cbn [String.length] in H.
    rewrite Hlen in H. lia.
  - apply (f_equal String.length) in H. cbn [String.length] in H.
    rewrite Hlen in H. lia.
  - injection H as -> H. f_equal. now apply IH.
Qed.

Lemma missing_warning_inj temp a b :
  missing_warning temp a = missing_warning temp b -> a = b.
Proof.
  unfold missing_warning. intros [= H]. now apply append_cancel_r in H.
Qed.

Lemma missing_warning_other temp fld s (b : bool) :
  fld <> s ->
  In (missing_warning temp fld) (if b then [missing_warning temp s] else []) <-> False.
Proof.
  intros Hne. destruct b; cbn [In]; [|tauto].
  split; [|tauto]. intros [H|[]]. apply Hne. symmetry. now apply missing_warning_inj in H.
Qed.

(** ** The validator *)

(** The log of the validator: one warning for each test that holds. *)
Lemma ship_validate_log temp :
  snd (ship_validate temp) =
  flat_map (fun t : bool * string =>
              if fst t then [missing_warning temp (snd t)] else [])
    [(is_null (name temp), "name"%string);
     (is_null (base_type temp), "base_type"%string);
     (is_null (gfx_space temp), "GFX"%string);
     (is_null (gui temp), "GUI"%string);
     (class_is temp SHIP_CLASS_NULL, "class"%string);
     (price temp =? 0, "price"%string);
     (is_null (fabricator temp), "fabricator"%string);
     (is_null (description temp), "description"%string);
     ((thrust temp =? -1)%float, "thrust"%string);
     ((turn temp =? 0)%float, "turn"%string);
     ((speed temp =? -1)%float, "speed"%string);
     ((armour temp =? 0)%float, "armour"%string);
     ((shield temp =? 0)%float, "shield"%string);
     ((shield_regen temp =? 0)%float, "shield_regen"%string);
     ((energy temp =? 0)%float, "energy"%string);
     ((energy_regen temp =? 0)%float, "energy_regen"%string);
     (fuel temp =? 0, "fuel"%string);
     (crew temp =? 0, "crew"%string);
     ((mass temp =? 0)%float, "mass"%string);
     ((cpu temp =? 0)%float, "cpu"%string);
     ((cap_cargo temp =? 0)%float, "cap_cargo"%string)].
Proof.
  unfold ship_validate. rewrite !snd_bind, !MELEMENT_log.
  cbn [flat_map fst snd]. rewrite ?app_nil_r. reflexivity.
Qed.

Lemma flags_In temp fld (tests : list (bool * string)) :
  In (missing_warning temp fld)
    (flat_map (fun t : bool * string =>
                 if fst t then [missing_warning temp (snd t)] else []) tests) <->
  In (true, fld) tests.
Proof.
  rewrite in_flat_map. split.
  - intros ([b s] & Hin & H). cbn [fst snd] in H. destruct b; [|destruct H].
    destruct H as [H|[]]. apply missing_warning_inj in H. now subst.
  - intros H. exists (true, fld). split; [assumption | now left].
Qed.

Lemma ship_validate_In temp fld :
  In (missing_warning temp fld) (snd (ship_validate temp)) <->
  In (true, fld)
    [(is_null (name temp), "name"%string);
     (is_null (base_type temp), "base_type"%string);
     (is_null (gfx_space temp), "GFX"%string);
     (is_null (gui temp), "GUI"%string);
     (class_is temp SHIP_CLASS_NULL, "class"%string);
     (price temp =? 0, "price"%string);
     (is_null (fabricator temp), "fabricator"%string);
     (is_null (description temp), "description"%string);
     ((thrust temp =? -1)%float, "thrust"%string);
     ((turn temp =? 0)%float, "turn"%string);
     ((speed temp =? -1)%float, "speed"%string);
     ((armour temp =? 0)%float, "armour"%string);
     ((shield temp =? 0)%float, "shield"%string);
     ((shield_regen temp =? 0)%float, "shield_regen"%string);
     ((energy temp =? 0)%float, "energy"%string);
     ((energy_regen temp =? 0)%float, "energy_regen"%string);
     (fuel temp =? 0, "fuel"%string);
     (crew temp =? 0, "crew"%string);
     ((mass temp =? 0)%float, "mass"%string);
     ((cpu temp =? 0)%float, "cpu"%string);
     ((cap_cargo temp =? 0)%float, "cap_cargo"%string)].
Proof. rewrite ship_validate_log. apply flags_In. Qed.

Lemma ship_validate_GFX temp :
  In (missing_warning temp "GFX") (snd (ship_validate temp)) <-> gfx_space temp = None.
Proof.
  rewrite ship_validate_In. cbn [In]. split.
  - intros H. repeat (destruct H as [H|H]; [try discriminate H|]); [|destruct H].
    injection H as H. now destruct (gfx_space temp).
  - intros H. rewrite H. do 2 right. now left.
Qed.

(** One test of the validator among its 21. *)
Ltac flag_field :=
  rewrite ship_validate_In; cbn [In]; split;
  [ let H := fresh in
    intros H; repeat (destruct H as [H|H]; [try discriminate H|]); [|destruct H];
    injection H as H;
    first [ assumption
          | match type of H with
            | is_null ?x = true => now destruct x
            | class_is ?t _ = true => unfold class_is in H; now destruct (class t)
            | (?x =? 0) = true => now apply Z.eqb_eq
            end ]
  | let H := fresh in
    intros H;
    repeat first
      [ left; f_equal;
        first [ assumption
              | rewrite H; reflexivity
              | unfold class_is; rewrite H; reflexivity
              | now apply Z.eqb_eq ]
      | right ] ].

(** X19: the validator writes the warning about a field exactly when the field
    holds the value it has when it was never set, and it writes nothing else:
    at most the 21 warnings, in the order of the fields. *)
Theorem ship_validate_flags (temp : Ship) :
  let log := snd (ship_validate temp) in
  (In (missing_warning temp "name") log <-> name temp = None) /\
  (In (missing_warning temp "base_type") log <-> base_type temp = None) /\
  (In (missing_warning temp "GFX") log <-> gfx_space temp = None) /\
  (In (missing_warning temp "GUI") log <-> gui temp = None) /\
  (In (missing_warning temp "class") log <-> class temp = SHIP_CLASS_NULL) /\
  (In (missing_warning temp "price") log <-> price temp = 0) /\
  (In (missing_warning temp "fabricator") log <-> fabricator temp = None) /\
  (In (missing_warning temp "description") log <-> description temp = None) /\
  (In (missing_warning temp "thrust") log <-> (thrust temp =? -1)%float = true) /\
  (In (missing_warning temp "turn") log <-> (turn temp =? 0)%float = true) /\
  (In (missing_warning temp "speed") log <-> (speed temp =? -1)%float = true) /\
  (In (missing_warning temp "armour") log <-> (armour temp =? 0)%float = true) /\
  (In (missing_warning temp "shield") log <-> (shield temp =? 0)%float = true) /\
  (In (missing_warning temp "shield_regen") log <-> (shield_regen temp =? 0)%float = true) /\
  (In (missing_warning temp "energy") log <-> (energy temp =? 0)%float = true) /\
  (In (missing_warning temp "energy_regen") log <-> (energy_regen temp =? 0)%float = true) /\
  (In (missing_warning temp "fuel") log <-> fuel temp = 0) /\
  (In (missing_warning temp "crew") log <-> crew temp = 0) /\
  (In (missing_warning temp "mass") log <-> (mass temp =? 0)%float = true) /\
  (In (missing_warning temp "cpu") log <-> (cpu temp =? 0)%float = true) /\
  (In (missing_warning temp "cap_cargo") log <-> (cap_cargo temp =? 0)%float = true) /\
  Forall (fun e => exists fld, e = missing_warning temp fld) log /\
  (length log <= 21)%nat.
Proof.
  cbn zeta. repeat (split; [flag_field|]).
  rewrite ship_validate_log. split.
  - apply List.Forall_forall. intros e He. apply List.in_flat_map in He.
    destruct He as ([b s] & _ & He). cbn [fst snd] in He.
    destruct b; [|destruct He]. destruct He as [<-|[]]. now exists s.
  - cbn [flat_map fst snd]. rewrite !length_app.
    repeat match goal with
      | |- context [length (if ?b then [?x] else [])] =>
          let n := fresh "n" in
          assert (length (if b then [x] else []) <= 1)%nat by (destruct b; cbn; lia);
          set (n := length (if b then [x] else [])) in *; clearbody n
      end.
    cbn [length]. lia.
Qed.


(** X20: the space sprite, the comm path and the mount angle of a parsed ship
    are those of the last [GFX] element the loader can take, and the
    validator reports the graphics missing exactly
    when there is no such element. *)
Theorem ship_parse_graphics (parent : xmlNode) (rc : Z) (s : Ship)
    (log : list event) :
  ship_parse parent = Some ((rc, s), log) ->
  graphics_of s =
    List.last (map graphics_loaded (List.filter loadable (elements_named "GFX" parent)))
      (None, None, 0%float) /\
  (In (missing_warning s "GFX") (snd (ship_validate s)) <->
   List.filter loadable (elements_named "GFX" parent) = []).
Proof.
  intros H. parsed_field H.
  set (main := fst (xml_foreach ship_parse_node (xml_children parent) t1)).
  assert (Hg : graphics_of (ship_postprocess main) =
    List.last (map graphics_loaded (List.filter loadable (elements_named "GFX" parent)))
      (None, None, 0%float)).
  { change (graphics_of (ship_postprocess main)) with (graphics_of main).
    unfold main. rewrite (xml_foreach_last graphics_of ship_parse_node _ node_graphics).
    replace (graphics_of t1) with (@None glTexture, @None string, 0%float)
      by (destruct Ht as [-> | [c ->]]; reflexivity).
    f_equal. unfold elements_named.
    now rewrite flat_map_if, flat_map_if, flat_map_singleton. }
  split; [exact Hg|].
  rewrite ship_validate_GFX.
  apply (f_equal (fun x => fst (fst x))) in Hg. cbn [graphics_of fst] in Hg. rewrite Hg.
  destruct (List.filter loadable (elements_named "GFX" parent)) as [|g gs] eqn:Ef;
    [now split|].
  split; [|discriminate]. intros Hnone. exfalso.
  assert (Hl : loadable (List.last (g :: gs) g) = true).
  { apply (List.filter_In loadable _ (elements_named "GFX" parent)).
    rewrite Ef. apply last_In. }
  rewrite (map_last graphics_loaded (g :: gs) g) in Hnone by discriminate.
  unfold loadable in Hl. unfold graphics_loaded in Hnone.
  destruct (xml_get (List.last (g :: gs) g)); [|discriminate].
  cbv zeta in Hnone. cbn [fst] in Hnone. discriminate.
Qed.


(** ** Several slots blocks, several stats blocks *)

Lemma filter_snoc {A : Type} (f : A -> bool) (l pre : list A) (x : A) :
  List.filter f l = pre ++ [x] ->
  exists l1 l2, l = l1 ++ x :: l2 /\ List.filter f l1 = pre /\ f x = true /\
    Forall (fun y => f y = false) l2.
Proof.
  revert pre. induction l as [|a l IH]; intros pre; cbn [List.filter].
  - intros H. now destruct pre.
  - destruct (f a) eqn:Ea.
    + destruct pre as [|p pre]; cbn [app].
      * intros [= -> Hl]. exists [], l. repeat split; [assumption|].
        now apply filter_nil_Forall.
      * intros [= -> Hl]. destruct (IH _ Hl) as (l1 & l2 & -> & <- & Hx & Hl2).
        exists (p :: l1), l2. cbn [List.filter app]. rewrite Ea. auto.
    + intros Hl. destruct (IH _ Hl) as (l1 & l2 & -> & <- & Hx & Hl2).
      exists (a :: l1), l2. cbn [List.filter app]. rewrite Ea. auto.
Qed.

(** The counters of the main loop add up over the slots blocks. *)
Lemma main_loop_counters l temp :
  0 <= outfit_nstructure temp -> 0 <= outfit_nutility temp ->
  0 <= outfit_nweapon temp ->
  let r := fst (xml_foreach ship_parse_node l temp) in
  outfit_nstructure r = outfit_nstructure temp +
    Z.of_nat (length (flat_map (elements_named "structure") (named "slots" l))) /\
  outfit_nutility r = outfit_nutility temp +
    Z.of_nat (length (flat_map (elements_named "utility") (named "slots" l))) /\
  outfit_nweapon r = outfit_nweapon temp +
    Z.of_nat (length (flat_map (elements_named "weapon") (named "slots" l))).
Proof.
  revert temp. induction l as [|n l IH]; intros temp Hs Hu Hw; cbn zeta.
  - cbn. lia.
  - rewrite xml_foreach_cons, named_cons. cbn [fst].
    destruct (xml_isNode n "slots") eqn:En.
    + rewrite (ship_parse_node_at_slots temp n En).
      pose proof (ship_parse_slots_eq temp n Hs Hu Hw) as E.
      set (t' := fst (ship_parse_slots temp n)).
      assert (E' : outfit_nstructure t' = outfit_nstructure temp +
                     Z.of_nat (length (elements_named "structure" n)) /\
                   outfit_nutility t' = outfit_nutility temp +
                     Z.of_nat (length (elements_named "utility" n)) /\
                   outfit_nweapon t' = outfit_nweapon temp +
                     Z.of_nat (length (elements_named "weapon" n))).
      { unfold t'. rewrite E. cbn [fst]. repeat split; reflexivity. }
      destruct E' as (E1 & E2 & E3).
      destruct (IH t' ltac:(lia) ltac:(lia) ltac:(lia)) as (I1 & I2 & I3).
      cbn [flat_map]. rewrite !length_app, I1, I2, I3, E1, E2, E3. lia.
    + pose proof (ship_parse_node_slots temp n En) as E.
      set (t' := fst (ship_parse_node temp n)) in *.
      assert (E' : outfit_nstructure t' = outfit_nstructure temp /\
                   outfit_nutility t' = outfit_nutility temp /\
                   outfit_nweapon t' = outfit_nweapon temp).
      { unfold slots_of in E. repeat split.
        - exact (f_equal (fun x => snd (fst (fst (fst (fst x))))) E).
        - exact (f_equal (fun x => snd (fst (fst x))) E).
        - exact (f_equal snd E). }
      destruct E' as (E1 & E2 & E3).
      destruct (IH t' ltac:(lia) ltac:(lia) ltac:(lia)) as (I1 & I2 & I3).
      rewrite I1, I2, I3, E1, E2, E3. auto.
Qed.

(** X21: slots, whatever the number of blocks: each counter is the number of
    elements of its category in all the slots blocks together; each array has
    that many entries, of which the first are the parsed elements of the last
    block, in document order, and the others, as many as the earlier blocks
    have elements of the category, are cleared slots. *)
Theorem ship_parse_slots_blocks (parent : xmlNode) (rc : Z) (s : Ship)
    (log : list event) (pre : list xmlNode) (blk : xmlNode) :
  ship_parse parent = Some ((rc, s), log) ->
  elements_named "slots" parent = pre ++ [blk] ->
  outfit_structure s =
    map (parsed_slot s OUTFIT_SLOT_STRUCTURE) (elements_named "structure" blk) ++
    replicate (length (flat_map (elements_named "structure") pre)) ShipOutfitSlot_zero /\
  outfit_utility s =
    map (parsed_slot s OUTFIT_SLOT_UTILITY) (elements_named "utility" blk) ++
    replicate (length (flat_map (elements_named "utility") pre)) ShipOutfitSlot_zero /\
  outfit_weapon s =
    map (parsed_slot s OUTFIT_SLOT_WEAPON) (elements_named "weapon" blk) ++
    replicate (length (flat_map (elements_named "weapon") pre)) ShipOutfitSlot_zero /\
  outfit_nstructure s = Z.of_nat (length (declared "slots" "structure" parent)) /\
  outfit_nutility s = Z.of_nat (length (declared "slots" "utility" parent)) /\
  outfit_nweapon s = Z.of_nat (length (declared "slots" "weapon" parent)).
Proof.
  intros Hparse Hblk. unfold declared. rewrite Hblk.
  parsed_field Hparse.
  destruct (filter_snoc _ _ _ _ Hblk) as (l1 & l2 & Hch & Hpre & Hb & Hpost).
  fold (named "slots" l1) in Hpre.
  rewrite Hch, xml_foreach_app, xml_foreach_cons. cbn [fst].
  set (t2 := fst (xml_foreach ship_parse_node l1 t1)).
  rewrite (ship_parse_node_at_slots t2 blk Hb).
  set (t3 := fst (ship_parse_slots t2 blk)).
  set (t4 := fst (xml_foreach ship_parse_node l2 t3)).
  assert (Hz : outfit_nstructure t1 = 0 /\ outfit_nutility t1 = 0 /\
               outfit_nweapon t1 = 0)
    by (destruct Ht as [-> | [c ->]]; repeat split; reflexivity).
  destruct Hz as (Hz1 & Hz2 & Hz3).
  destruct (main_loop_counters l1 t1 ltac:(lia) ltac:(lia) ltac:(lia)) as (C1 & C2 & C3).
  fold t2 in C1, C2, C3. rewrite Hpre in C1, C2, C3.
  rewrite Hz1, Z.add_0_l in C1. rewrite Hz2, Z.add_0_l in C2.
  rewrite Hz3, Z.add_0_l in C3.
  assert (Hid : ident_of (ship_postprocess t4) = ident_of t2).
  { destruct (ship_postprocess_frame t4) as (-> & _).
    unfold t4. rewrite main_loop_ident. unfold t3. apply ship_parse_slots_frame. }
  assert (Hsl : slots_of (ship_postprocess t4) = slots_of t3).
  { destruct (ship_postprocess_frame t4) as (_ & -> & _).
    now apply main_loop_slots. }
  assert (H3 : slots_of t3 =
    (map (parsed_slot (ship_postprocess t4) OUTFIT_SLOT_STRUCTURE)
       (elements_named "structure" blk) ++
     replicate (length (flat_map (elements_named "structure") pre)) ShipOutfitSlot_zero,
     Z.of_nat (length (flat_map (elements_named "structure") (pre ++ [blk]))),
     map (parsed_slot (ship_postprocess t4) OUTFIT_SLOT_UTILITY)
       (elements_named "utility" blk) ++
     replicate (length (flat_map (elements_named "utility") pre)) ShipOutfitSlot_zero,
     Z.of_nat (length (flat_map (elements_named "utility") (pre ++ [blk]))),
     map (parsed_slot (ship_postprocess t4) OUTFIT_SLOT_WEAPON)
       (elements_named "weapon" blk) ++
     replicate (length (flat_map (elements_named "weapon") pre)) ShipOutfitSlot_zero,
     Z.of_nat (length (flat_map (elements_named "weapon") (pre ++ [blk]))))).
  { unfold t3. rewrite ship_parse_slots_eq by lia. cbn [fst]. unfold slots_of.
    assert (Hm : forall T l, map (parsed_slot t2 T) l =
                             map (parsed_slot (ship_postprocess t4) T) l)
      by (intros; apply map_ext; intros; apply parsed_slot_ext; now symmetry).
    rewrite !flat_map_app, !length_app. cbn [flat_map]. rewrite !app_nil_r.
    ship_fields.
    fold (outfit_nstructure t2) (outfit_nutility t2) (outfit_nweapon t2).
    rewrite C1, C2, C3, !Nat2Z.id, !Hm, !Nat2Z.inj_add. reflexivity. }
  rewrite <- Hsl in H3. unfold slots_of in H3.
  repeat split.
  - exact (f_equal (fun x => fst (fst (fst (fst (fst x))))) H3).
  - exact (f_equal (fun x => snd (fst (fst (fst x)))) H3).
  - exact (f_equal (fun x => snd (fst x)) H3).
  - exact (f_equal (fun x => snd (fst (fst (fst (fst x))))) H3).
  - exact (f_equal (fun x => snd (fst (fst x))) H3).
  - exact (f_equal snd H3).
Qed.


Lemma recognized_stats_app l1 l2 :
  recognized_stats (l1 ++ l2) = recognized_stats l1 ++ recognized_stats l2.
Proof. unfold recognized_stats. apply flat_map_app. Qed.

Lemma main_loop_stats_blocks l temp :
  let r := fst (xml_foreach ship_parse_node l temp) in
  let st := rev (recognized_stats (flat_map xml_children (named "stats" l))) ++ stats temp in
  stats r = st /\
  stats_array r =
    match named "stats" l with
    | [] => stats_array temp
    | _ :: _ => ss_statsModFromList ss_statsInit st
    end /\
  desc_stats r =
    match named "stats" l, st with
    | _ :: _, _ :: _ => stats_description st
    | _, _ => desc_stats temp
    end.
Proof.
  revert temp. induction l as [|n l IH]; intros temp; cbn zeta.
  - cbn. repeat split; try now destruct (stats temp).
  - rewrite xml_foreach_cons, named_cons. cbn [fst].
    destruct (xml_isNode n "stats") eqn:En.
    + rewrite (ship_parse_node_at_stats temp n En).
      pose proof (ship_parse_stats_eq temp n) as E. cbn zeta in E.
      set (t' := fst (ship_parse_stats temp n)).
      set (st' := rev (recognized_stats (xml_children n)) ++ stats temp) in *.
      assert (E' : stats t' = st' /\
                   stats_array t' = ss_statsModFromList ss_statsInit st' /\
                   desc_stats t' = match st' with
                                   | [] => desc_stats temp
                                   | _ :: _ => stats_description st'
                                   end).
      { unfold t'. rewrite E. cbn [fst]. repeat split; reflexivity. }
      destruct E' as (E1 & E2 & E3).
      destruct (IH t') as (I1 & I2 & I3).
      cbn [flat_map]. rewrite recognized_stats_app, rev_app_distr, <- app_assoc.
      fold st'. rewrite I1, I2, I3, E1, E2, E3.
      repeat split.
      * destruct (named "stats" l); [|reflexivity].
        cbn [flat_map recognized_stats rev app]. reflexivity.
      * destruct (named "stats" l) as [|b bs].
        -- cbn [flat_map rev app]. change (recognized_stats []) with (@nil ShipStatList).
           cbn [rev app]. reflexivity.
        -- destruct (rev (recognized_stats (flat_map xml_children (b :: bs))) ++ st')
             as [|x xs] eqn:Ex; [|reflexivity].
           apply app_eq_nil in Ex. destruct Ex as [_ ->]. reflexivity.
    + destruct (ship_parse_node_stats temp n En) as [E _].
      set (t' := fst (ship_parse_node temp n)) in *.
      assert (E' : stats t' = stats temp /\ stats_array t' = stats_array temp /\
                   desc_stats t' = desc_stats temp).
      { unfold stats_of in E. repeat split.
        - exact (f_equal (fun x => fst (fst x)) E).
        - exact (f_equal (fun x => snd (fst x)) E).
        - exact (f_equal snd E). }
      destruct E' as (E1 & E2 & E3).
      destruct (IH t') as (I1 & I2 & I3).
      now rewrite I1, I2, I3, E1, E2, E3.
Qed.

(** ** The calls of the stats blocks *)

Lemma flat_map_seq_shift {A : Type} (f : nat -> list A) (k : nat) :
  forall a, flat_map f (seq (S a) k) = flat_map (fun i => f (S i)) (seq a k).
Proof.
  induction k as [|k IH]; intros a; [reflexivity|].
  cbn [seq flat_map]. now rewrite IH.
Qed.

Lemma block_calls_calls (st : list ShipStatList) : calls (block_calls st) = block_calls st.
Proof. unfold block_calls. now destruct st. Qed.

Lemma ship_parse_stats_calls temp node :
  calls (snd (ship_parse_stats temp node)) =
  block_calls (rev (recognized_stats (xml_children node)) ++ stats temp).
Proof.
  rewrite ship_parse_stats_eq. cbn [snd]. rewrite calls_app.
  rewrite (calls_nil (map _ _)).
  - cbn [app]. apply block_calls_calls.
  - apply List.Forall_forall. intros e [c [<- _]]%in_map_iff. reflexivity.
Qed.

(** The main loop calls the stat registry after each [stats] block, with
    the list as the block leaves it. *)
Lemma main_loop_stats_calls l temp :
  calls (snd (xml_foreach ship_parse_node l temp)) =
  flat_map
    (fun i =>
       block_calls
         (rev (recognized_stats
                 (flat_map xml_children (take (S i) (named "stats" l)))) ++
          stats temp))
    (seq 0 (length (named "stats" l))).
Proof.
  revert temp. induction l as [|n l IH]; intros temp; [reflexivity|].
  rewrite xml_foreach_cons, named_cons. cbn [snd]. rewrite calls_app, IH.
  destruct (xml_isNode n "stats") eqn:En.
  - rewrite (ship_parse_node_at_stats temp n En), ship_parse_stats_calls.
    cbn [length seq flat_map take]. rewrite app_nil_r. f_equal.
    rewrite flat_map_seq_shift. apply flat_map_ext. intros i.
    cbn [take flat_map]. rewrite recognized_stats_app, rev_app_distr, <- app_assoc.
    do 2 f_equal. rewrite ship_parse_stats_eq. reflexivity.
  - destruct (ship_parse_node_stats temp n En) as [E Hno].
    rewrite (calls_nil _ Hno). cbn [app].
    apply flat_map_ext. intros i. do 2 f_equal.
    exact (f_equal (fun x => fst (fst x)) E).
Qed.

(** Every element child of a [stats] block that the registry does not
    know is warned about. *)
Lemma main_loop_stat_warnings l temp blk c :
  In blk (named "stats" l) -> In c (xml_children blk) -> is_unknown_stat c = true ->
  In (unknown_stat_warning temp c) (snd (xml_foreach ship_parse_node l temp)).
Proof.
  revert temp. induction l as [|n l IH]; intros temp Hb Hc Hu; [destruct Hb|].
  rewrite xml_foreach_cons. cbn [snd]. apply in_or_app.
  assert (Hname : forall t, ident_of t = ident_of temp ->
                  unknown_stat_warning t c = unknown_stat_warning temp c).
  { intros t [= E _]. unfold unknown_stat_warning. now rewrite E. }
  rewrite named_cons in Hb.
  destruct (xml_isNode n "stats") eqn:En.
  - destruct Hb as [<-|Hb].
    + left. rewrite (ship_parse_node_at_stats temp n En), ship_parse_stats_eq.
      cbn [snd]. apply in_or_app. left.
      apply (in_map (unknown_stat_warning temp)). apply List.filter_In. now split.
    + right. rewrite <- (Hname (fst (ship_parse_node temp n)))
        by apply ship_parse_node_ident.
      now apply IH.
  - right. rewrite <- (Hname (fst (ship_parse_node temp n)))
      by apply ship_parse_node_ident.
    now apply IH.
Qed.

(** C4 (as amended): for every [stats] block of a ship element, the nodes
    the registry makes of the element children of the block are prepended
    to the stat list of the ship, one by one, so that after the [i]-th block
    the list holds the recognized children of the blocks so far, last child
    first; each element child the registry does not know is warned about.
    After the loop over each block the list, as it stands then, is compiled
    into the stat array by one call, whatever the list; it is rendered into
    the description by one call when it is not empty and by no call when it
    is empty.  The parsed ship has the list, the array and the description
    the last block leaves. *)
Theorem ship_parse_stats_every_block (parent : xmlNode) (rc : Z) (s : Ship)
    (log : list event) :
  ship_parse parent = Some ((rc, s), log) ->
  let blks := elements_named "stats" parent in
  let list_after (i : nat) :=
    rev (recognized_stats (flat_map xml_children (take (S i) blks))) in
  calls log = flat_map (fun i => block_calls (list_after i)) (seq 0 (length blks)) /\
  (forall (i : nat) (blk : xmlNode),
     blks !! i = Some blk ->
     list_after i =
     rev (recognized_stats (xml_children blk)) ++
     match i with
     | O => []
     | S j => list_after j
     end) /\
  (forall (blk c : xmlNode),
     In blk blks -> In c (xml_children blk) -> is_unknown_stat c = true ->
     In (unknown_stat_warning s c) log) /\
  stats s = rev (recognized_stats (flat_map xml_children blks)) /\
  stats_array s =
    match blks with
    | [] => ss_statsInit
    | _ :: _ => ss_statsModFromList ss_statsInit (stats s)
    end /\
  desc_stats s =
    match stats s with
    | [] => None
    | _ :: _ => stats_description (stats s)
    end.
Proof.
  intros Hparse blks list_after. rewrite ship_parse_eq in Hparse.
  destruct (ship_parse_class _ _) as [t1|] eqn:Hclass; [|discriminate].
  cbn zeta in Hparse. injection Hparse as _ Hs Hlog.
  apply ship_parse_class_frame in Hclass.
  destruct Hclass as (Hname1 & _ & Hstats1 & _).
  assert (Hz : stats t1 = [] /\ stats_array t1 = ss_statsInit /\ desc_stats t1 = None).
  { unfold stats_of in Hstats1. cbn in Hstats1. injection Hstats1 as Ea Eb Ec. auto. }
  destruct Hz as (Hz1 & Hz2 & Hz3).
  assert (Hid : ident_of s = ident_of t1).
  { rewrite <- Hs.
    destruct (ship_postprocess_frame
                (fst (xml_foreach ship_parse_node (xml_children parent) t1)))
      as (-> & _).
    apply main_loop_ident. }
  split; [|split; [|split]].
  - rewrite <- Hlog, !calls_app.
    rewrite (calls_nil _ (name_warning_no_call t1)).
    rewrite (calls_nil _ (ship_validate_no_call _)), app_nil_r. cbn [app].
    rewrite main_loop_stats_calls. apply flat_map_ext. intros i.
    rewrite Hz1, app_nil_r. reflexivity.
  - intros i blk Hi. unfold list_after.
    rewrite (take_S_r blks i blk Hi), flat_map_app, recognized_stats_app, rev_app_distr.
    cbn [flat_map]. rewrite app_nil_r. f_equal.
    destruct i as [|j]; [reflexivity|]. reflexivity.
  - intros blk c Hb Hc Hu. rewrite <- Hlog.
    apply in_or_app. right. apply in_or_app. left.
    replace (unknown_stat_warning s c) with (unknown_stat_warning t1 c)
      by (unfold unknown_stat_warning; injection Hid as -> _; reflexivity).
    now apply (main_loop_stat_warnings _ _ blk c).
  - rewrite <- Hs.
    change (stats (ship_postprocess ?x)) with (stats x).
    change (stats_array (ship_postprocess ?x)) with (stats_array x).
    change (desc_stats (ship_postprocess ?x)) with (desc_stats x).
    destruct (main_loop_stats_blocks (xml_children parent) t1) as (I1 & I2 & I3).
    unfold blks, elements_named. fold (named "stats" (xml_children parent)).
    rewrite Hz1, app_nil_r in I1, I2, I3. rewrite Hz2 in I2. rewrite Hz3 in I3.
    rewrite I1, I2, I3. repeat split.
    destruct (named "stats" (xml_children parent)) as [|b bs]; [reflexivity|].
    now destruct (rev _).
Qed.

(** X22: stats, whatever the number of blocks: the stat list holds the
    recognized stats of all the stats blocks together, in reverse document
    order; when there is a stats block, the stat array is compiled from that
    whole list; and the description is rendered from it unless the list is
    empty. *)
Theorem ship_parse_stats_blocks (parent : xmlNode) (rc : Z) (s : Ship)
    (log : list event) :
  ship_parse parent = Some ((rc, s), log) ->
  stats s =
    rev (recognized_stats (flat_map xml_children (elements_named "stats" parent))) /\
  stats_array s =
    match elements_named "stats" parent with
    | [] => ss_statsInit
    | _ :: _ => ss_statsModFromList ss_statsInit (stats s)
    end /\
  desc_stats s =
    match stats s with
    | [] => None
    | _ :: _ => stats_description (stats s)
    end.
Proof.
  intros H. parsed_field H.
  change (stats (ship_postprocess ?x)) with (stats x).
  change (stats_array (ship_postprocess ?x)) with (stats_array x).
  change (desc_stats (ship_postprocess ?x)) with (desc_stats x).
  destruct (main_loop_stats_blocks (xml_children parent) t1) as (I1 & I2 & I3).
  unfold elements_named. fold (named "stats" (xml_children parent)).
  assert (Hz : stats t1 = [] /\ stats_array t1 = ss_statsInit /\ desc_stats t1 = None)
    by (destruct Ht as [-> | [c ->]]; repeat split; reflexivity).
  destruct Hz as (Hz1 & Hz2 & Hz3).
  rewrite Hz1, app_nil_r in I1, I2, I3. rewrite Hz2 in I2. rewrite Hz3 in I3.
  rewrite I1, I2, I3. repeat split.
  destruct (named "stats" (xml_children parent)) as [|b bs]; [reflexivity|].
  now destruct (rev _).
Qed.

(** ** What else ship_parseSlot reads *)

(** X23: ship_parseSlot: a [size] attribute decides the size whatever the
    class; a slot of another type than weapon keeps its mount and is never
    warned about, whatever [x], [y] and [h] attributes it has; the text of the
    element names the default outfit, with a warning, and a [NULL] outfit,
    when the catalogue does not hold it; an element without text keeps the
    outfit of the entry; and a [prop_exc] attribute alone gives the property
    and makes it exclusive. *)
Theorem ship_parseSlot_attributes (temp : Ship) (sl : ShipOutfitSlot)
    (type : OutfitSlotType) (node : xmlNode) :
  let r := ship_parseSlot temp sl type node in
  let parsed := snd (fst r) in
  (forall buf, xml_nodeProp node "size" = Some buf ->
   size (slot parsed) = outfit_toSlotSize buf) /\
  (type <> OUTFIT_SLOT_WEAPON ->
   mount parsed = mount sl /\
   forall attr, ~ In (mount_warning temp attr) (snd r)) /\
  (forall buf, xml_get node = Some buf ->
   data parsed = outfit_get buf /\
   (In (WARN "Ship '%s' has default outfit '%s' which does not exist."
          [ArgS (name temp); ArgS (Some buf)]) (snd r) <->
    outfit_get buf = None)) /\
  (xml_get node = None -> data parsed = data sl /\ outfit_warnings temp node = []) /\
  (forall e, xml_nodeProp node "prop" = None -> xml_nodeProp node "prop_exc" = Some e ->
   property (slot parsed) = Some e /\ exclusive (slot parsed) = 1).
Proof.
  cbn zeta. rewrite ship_parseSlot_eq. cbn [fst snd slot size mount data property exclusive].
  split; [|split; [|split; [|split]]].
  - now intros buf ->.
  - intros Ht. split; [now destruct type|].
    intros attr. rewrite !in_app_iff. unfold mount_warning, conflict_warning, outfit_warnings.
    intros [H | [H | H]].
    + now destruct type.
    + destruct (xml_nodeProp node "prop_exc"), (xml_nodeProp node "prop");
        cbn in H; intuition discriminate.
    + destruct (xml_get node) as [buf|]; [|destruct H].
      destruct (is_null (outfit_get buf)); cbn in H; intuition discriminate.
  - intros buf Hb. rewrite Hb. split; [reflexivity|].
    rewrite !in_app_iff. unfold outfit_warnings. rewrite Hb.
    assert (Hm : ~ In (WARN "Ship '%s' has default outfit '%s' which does not exist."
                         [ArgS (name temp); ArgS (Some buf)])
                      (mount_warnings temp type node)).
    { unfold mount_warnings, mount_warning. destruct type; cbn; try tauto.
      destruct (xml_nodeProp node "x"), (xml_nodeProp node "y"),
        (xml_nodeProp node "h"); cbn; intuition discriminate. }
    assert (Hc : ~ In (WARN "Ship '%s' has default outfit '%s' which does not exist."
                         [ArgS (name temp); ArgS (Some buf)])
                      match xml_nodeProp node "prop_exc", xml_nodeProp node "prop" with
                      | Some _, Some _ => [conflict_warning temp]
                      | _, _ => []
                      end).
    { unfold conflict_warning.
      destruct (xml_nodeProp node "prop_exc"), (xml_nodeProp node "prop"); cbn;
        intuition discriminate. }
    destruct (outfit_get buf); cbn; intuition (try discriminate; auto).
  - intros Hb. unfold outfit_warnings. now rewrite Hb.
  - intros e Hp He. now rewrite Hp, He.
Qed.

(** ** Nodes that are no elements *)

Lemma ship_parse_class_elements l t :
  ship_parse_class (List.filter xml_isStart l) t = ship_parse_class l t.
Proof.
  revert t. induction l as [|n l IH]; intros t; [reflexivity|].
  cbn [List.filter ship_parse_class].
  destruct (xml_isStart n) eqn:Hs; cbn [negb ship_parse_class]; [|apply IH].
  rewrite Hs. cbn [negb]. destruct (xml_isNode n "class"); [|apply IH].
  destruct (xml_get n); [apply IH | reflexivity].
Qed.

Lemma main_loop_elements l t :
  xml_foreach ship_parse_node (List.filter xml_isStart l) t =
  xml_foreach ship_parse_node l t.
Proof.
  revert t. induction l as [|n l IH]; intros t; [reflexivity|].
  cbn [List.filter]. destruct (xml_isStart n) eqn:Hs.
  - rewrite !xml_foreach_cons, !IH. reflexivity.
  - rewrite xml_foreach_cons, IH.
    assert (E : ship_parse_node t n = ret t)
      by (unfold ship_parse_node; now rewrite Hs).
    rewrite E. cbn [fst snd ret app]. now destruct (xml_foreach ship_parse_node l t).
Qed.

(** X24: text and comment nodes between the elements of a ship element leave
    no trace: the parse of the ship element is that of the ship element
    without them. *)
Theorem ship_parse_skips_non_elements (ty : xmlElementType) (nm : string)
    (props : list (string * string)) (content : option string)
    (children : list xmlNode) :
  ship_parse (XmlNode ty nm props content (List.filter xml_isStart children)) =
  ship_parse (XmlNode ty nm props content children).
Proof.
  rewrite !ship_parse_eq. cbn [xml_children].
  change (ship_parse_init (XmlNode ty nm props content (List.filter xml_isStart children)))
    with (ship_parse_init (XmlNode ty nm props content children)).
  rewrite ship_parse_class_elements.
  destruct (ship_parse_class children _) as [t1|]; [|reflexivity].
  cbn zeta. now rewrite main_loop_elements.
Qed.

End ShipStackFacts.

(** ** The faction bindings *)

(** ** The Lua stack *)

Lemma index2adr_top (s : list TValue) (v : TValue) ts us cl reg bmt :
  index2adr (mkState (s ++ [v]) ts us cl reg bmt) (-1) = Valid v.
Proof.
  unfold index2adr, stack_place. cbn [stack]. rewrite length_app. cbn [length].
  replace (0 <? -1) with false by reflexivity.
  replace (-1 <? 0) with true by reflexivity.
  destruct (Z.leb_spec 0 (Z.of_nat (length s + 1) + -1)); [|lia]. cbn [andb].
  replace (Z.to_nat (Z.of_nat (length s + 1) + -1)) with (length s + 0)%nat by lia.
  now rewrite lookup_app_r, Nat.add_comm, Nat.add_sub by lia.
Qed.

Lemma index2adr_below (s : list TValue) (a b : TValue) ts us cl reg bmt :
  index2adr (mkState (s ++ [a; b]) ts us cl reg bmt) (-2) = Valid a.
Proof.
  unfold index2adr, stack_place. cbn [stack]. rewrite length_app. cbn [length].
  replace (0 <? -2) with false by reflexivity.
  replace (-2 <? 0) with true by reflexivity.
  destruct (Z.leb_spec 0 (Z.of_nat (length s + 2) + -2)); [|lia]. cbn [andb].
  replace (Z.to_nat (Z.of_nat (length s + 2) + -2)) with (length s + 0)%nat by lia.
  now rewrite lookup_app_r, Nat.add_comm, Nat.add_sub by lia.
Qed.

Lemma index2adr_top2 (s : list TValue) (a b : TValue) ts us cl reg bmt :
  index2adr (mkState (s ++ [a; b]) ts us cl reg bmt) (-1) = Valid b.
Proof.
  change (s ++ [a; b]) with (s ++ [a] ++ [b]). rewrite app_assoc.
  apply index2adr_top.
Qed.

Lemma index2adr_third (s : list TValue) (a b c : TValue) ts us cl reg bmt :
  index2adr (mkState (s ++ [a; b; c]) ts us cl reg bmt) (-3) = Valid a.
Proof.
  unfold index2adr, stack_place. cbn [stack]. rewrite length_app. cbn [length].
  replace (0 <? -3) with false by reflexivity.
  replace (-3 <? 0) with true by reflexivity.
  destruct (Z.leb_spec 0 (Z.of_nat (length s + 3) + -3)); [|lia]. cbn [andb].
  replace (Z.to_nat (Z.of_nat (length s + 3) + -3)) with (length s + 0)%nat by lia.
  now rewrite lookup_app_r, Nat.add_comm, Nat.add_sub by lia.
Qed.

(** The first and the second argument of a C function. *)
Lemma index2adr_1 (L : lua_State) :
  index2adr L 1 = match stack L !! 0%nat with Some v => Valid v | None => NoValue end.
Proof. reflexivity. Qed.

Lemma index2adr_2 (L : lua_State) :
  index2adr L 2 = match stack L !! 1%nat with Some v => Valid v | None => NoValue end.
Proof. reflexivity. Qed.

Lemma take_snoc {A : Type} (s : list A) (v : A) :
  take (length (s ++ [v]) - 1) (s ++ [v]) = s.
Proof.
  rewrite length_app. cbn [length].
  replace (length s + 1 - 1)%nat with (length s) by lia.
  now rewrite take_app_length.
Qed.

Lemma take_snoc2 {A : Type} (s : list A) (a b : A) :
  take (length (s ++ [a; b]) - 1) (s ++ [a; b]) = s ++ [a].
Proof.
  change (s ++ [a; b]) with (s ++ [a] ++ [b]). rewrite app_assoc. apply take_snoc.
Qed.

Lemma take_snoc3 {A : Type} (s : list A) (a b c : A) :
  take (length (s ++ [a; b; c]) - 2) (s ++ [a; b; c]) = s ++ [a].
Proof.
  rewrite length_app. cbn [length].
  replace (length s + 3 - 2)%nat with (length (s ++ [a])) by (rewrite length_app; cbn; lia).
  change (s ++ [a; b; c]) with (s ++ [a] ++ [b; c]). rewrite app_assoc.
  now rewrite take_app_length.
Qed.

Lemma last_snoc2 {A : Type} (s : list A) (a b : A) : last (s ++ [a; b]) = Some b.
Proof.
  change (s ++ [a; b]) with (s ++ [a] ++ [b]). now rewrite app_assoc, last_snoc.
Qed.

Lemma insert_fresh {A : Type} (l : list A) (x y : A) :
  <[length l := y]> (l ++ [x]) = l ++ [y].
Proof.
  replace (length l) with (length l + 0)%nat by lia.
  now rewrite insert_app_r.
Qed.

Lemma lookup_fresh {A : Type} (l : list A) (x : A) : (l ++ [x]) !! length l = Some x.
Proof.
  replace (length l) with (length l + 0)%nat by lia.
  now rewrite lookup_app_r, Nat.add_comm, Nat.add_sub by lia.
Qed.

(** [lua_pop] takes the values off the top. *)
Lemma lua_pop_0 (L : lua_State) : lua_pop 0 L = Return tt L.
Proof.
  destruct L as [s ts us cl reg bmt]. unfold lua_pop, lua_settop, set_stack.
  cbn [stack tables udata closures registry basic_mt].
  replace (0 <=? - 0 - 1) with false by reflexivity.
  destruct (Z.leb_spec 0 (Z.of_nat (length s) + (- 0 - 1) + 1)); [|lia].
  replace (Z.to_nat (Z.of_nat (length s) + (- 0 - 1) + 1)) with (length s) by lia.
  now rewrite firstn_all.
Qed.

Lemma lua_pop_1 (s : list TValue) (v : TValue) ts us cl reg bmt :
  lua_pop 1 (mkState (s ++ [v]) ts us cl reg bmt) = Return tt (mkState s ts us cl reg bmt).
Proof.
  unfold lua_pop, lua_settop, set_stack.
  cbn [stack tables udata closures registry basic_mt].
  replace (0 <=? - (1) - 1) with false by reflexivity.
  rewrite length_app. cbn [length].
  destruct (Z.leb_spec 0 (Z.of_nat (length s + 1) + (- (1) - 1) + 1)); [|lia].
  replace (Z.to_nat (Z.of_nat (length s + 1) + (- (1) - 1) + 1)) with (length s) by lia.
  now rewrite take_app_length.
Qed.

Lemma lua_pop_2 (s : list TValue) (a b : TValue) ts us cl reg bmt :
  lua_pop 2 (mkState (s ++ [a; b]) ts us cl reg bmt) = Return tt (mkState s ts us cl reg bmt).
Proof.
  unfold lua_pop, lua_settop, set_stack.
  cbn [stack tables udata closures registry basic_mt].
  replace (0 <=? - (2) - 1) with false by reflexivity.
  rewrite length_app. cbn [length].
  destruct (Z.leb_spec 0 (Z.of_nat (length s + 2) + (- (2) - 1) + 1)); [|lia].
  replace (Z.to_nat (Z.of_nat (length s + 2) + (- (2) - 1) + 1)) with (length s) by lia.
  now rewrite take_app_length.
Qed.

(** What [results] takes from a stack. *)
Lemma results_1 (s : list TValue) (v : TValue) ts us cl reg bmt :
  results 1 (mkState (s ++ [v]) ts us cl reg bmt) = [v].
Proof.
  unfold results. cbn [stack]. rewrite length_app. cbn [length].
  replace (length s + 1 - Z.to_nat 1)%nat with (length s) by lia.
  now rewrite drop_app_length.
Qed.

(** ** Raw access to a table *)

Lemma rawequalObj_refl_string (k : string) : rawequalObj (LString k) (LString k) = true.
Proof. apply String.eqb_refl. Qed.

Lemma rawequalObj_string (k : TValue) (a : string) :
  rawequalObj k (LString a) = true -> k = LString a.
Proof.
  destruct k; cbn; try discriminate. now intros ->%String.eqb_eq.
Qed.

Lemma rawget_rawremove_app (l l' : list (TValue * TValue)) (k : TValue) :
  rawget (rawremove l k ++ l') k = rawget l' k.
Proof.
  induction l as [|[k' v] l IH]; [reflexivity|]. cbn [rawremove].
  destruct (rawequalObj k' k) eqn:E; [exact IH|].
  cbn [app rawget]. now rewrite E.
Qed.

Lemma rawget_rawremove_other (l l' : list (TValue * TValue)) (a b : string) :
  a <> b ->
  rawget (rawremove l (LString a) ++ l') (LString b) =
  match find (fun e => rawequalObj (fst e) (LString b)) l with
  | Some e => snd e
  | None => rawget l' (LString b)
  end.
Proof.
  intros Hab. induction l as [|[k' v] l IH]; [reflexivity|].
  cbn [rawremove find fst snd].
  destruct (rawequalObj k' (LString a)) eqn:E.
  - apply rawequalObj_string in E. subst k'. cbn [rawequalObj].
    destruct (String.eqb_spec a b) as [->|_]; [now destruct Hab|]. exact IH.
  - cbn [app rawget]. destruct (rawequalObj k' (LString b)); [reflexivity|exact IH].
Qed.

Lemma rawget_find (l : list (TValue * TValue)) (k : TValue) :
  rawget l k =
  match find (fun e => rawequalObj (fst e) k) l with
  | Some e => snd e
  | None => LNil
  end.
Proof.
  induction l as [|[k' v] l IH]; [reflexivity|]. cbn [rawget find fst snd].
  now destruct (rawequalObj k' k).
Qed.

(** A raw write of a string key is read back, and leaves the other
    string keys as they were. *)
Lemma rawget_rawset_same (l : list (TValue * TValue)) (a : string) (v : TValue) :
  rawget (rawset l (LString a) v) (LString a) = v.
Proof.
  unfold rawset.
  destruct v;
    first [ rewrite rawget_rawremove_app; cbn [rawget];
            now rewrite rawequalObj_refl_string
          | rewrite <- (app_nil_r (rawremove l _)); now rewrite rawget_rawremove_app ].
Qed.

Lemma rawget_rawset_other (l : list (TValue * TValue)) (a b : string) (v : TValue) :
  a <> b ->
  rawget (rawset l (LString a) v) (LString b) = rawget l (LString b).
Proof.
  intros Hab. rewrite (rawget_find l). unfold rawset.
  assert (Hf : String.eqb a b = false) by now apply String.eqb_neq.
  destruct v;
    first [ rewrite (rawget_rawremove_other _ _ a b Hab); cbn [rawget rawequalObj];
            now rewrite Hf
          | rewrite <- (app_nil_r (rawremove l _));
            now rewrite (rawget_rawremove_other _ _ a b Hab) ].
Qed.

Lemma settable_plain (t : Table) (k v : TValue) :
  metatable t = None ->
  settable t k v = Some (mkTable (rawset (fields t) k v) None).
Proof.
  intros H. unfold settable. rewrite H. now destruct (rawget (fields t) k).
Qed.

Lemma lookup_offset {A : Type} (l1 l2 : list A) (k : nat) :
  (l1 ++ l2) !! (length l1 + k)%nat = l2 !! k.
Proof. now rewrite lookup_app_r, Nat.add_comm, Nat.add_sub by lia. Qed.

(** [luaL_register] on a table without metatable. *)
Lemma luaL_register_NULL_eq (l : list (string * lua_CFunction)) :
  forall s ts us cl reg bmt r t,
    ts !! r = Some t -> metatable t = None ->
    luaL_register_NULL l (mkState (s ++ [LTable r]) ts us cl reg bmt) =
    Return tt
      (mkState (s ++ [LTable r])
         (<[r := mkTable (register_fields l (length cl) (fields t)) None]> ts) us
         (cl ++ map (fun e => CClosure (snd e)) l) reg bmt).
Proof.
  induction l as [|[name func] l IH]; intros s ts us cl reg bmt r t Hr Ht.
  - cbn [luaL_register_NULL register_fields map]. rewrite lua_pop_0, app_nil_r.
    rewrite list_insert_id; [reflexivity|]. rewrite Hr. destruct t. cbn in *. now subst.
  - cbn [luaL_register_NULL register_fields map]. unfold lbind at 1.
    unfold lua_pushcfunction. cbn [stack tables udata closures registry basic_mt].
    rewrite <- app_assoc. cbn [app]. unfold lbind at 1. unfold lua_setfield.
    cbn [stack tables udata closures registry basic_mt].
    rewrite last_snoc2, take_snoc2, index2adr_below.
    replace (-2 =? LUA_REGISTRYINDEX) with false by reflexivity.
    rewrite Hr, (settable_plain t _ _ Ht).
    rewrite (IH s _ us _ reg bmt r (mkTable (rawset (fields t) (LString name) (LFunction (length cl))) None)).
    + rewrite list_insert_insert_eq, length_app, <- app_assoc. cbn [length app fields].
      now rewrite Nat.add_1_r.
    + apply list_lookup_insert_eq. now apply lookup_lt_Some in Hr.
    + reflexivity.
Qed.

Section FactionFacts.

Context {factions : FactionModule}.

(** ** lua_pushfaction, lua_tofaction and lua_isfaction *)

(** lua_pushfaction is defined when the entry of the registry is a table
    or is absent from a registry without metatable; it never raises. *)
Lemma lua_pushfaction_eq (f : Z) (L : lua_State) :
  lua_pushfaction f L =
  match rawget (fields (registry L)) (LString FACTION_METATABLE),
        metatable (registry L) with
  | LNil, Some _ => Undefined
  | LNil, None =>
      Return (PUdata (length (udata L)))
        (mkState (stack L ++ [LUserdata (length (udata L))]) (tables L)
           (udata L ++ [mkUdata (Some f) None]) (closures L) (registry L) (basic_mt L))
  | LTable m, _ =>
      Return (PUdata (length (udata L)))
        (mkState (stack L ++ [LUserdata (length (udata L))]) (tables L)
           (udata L ++ [mkUdata (Some f) (Some m)]) (closures L) (registry L)
           (basic_mt L))
  | _, _ => Undefined
  end.
Proof.
  destruct L as [s ts us cl reg bmt].
  cbv [lua_pushfaction luaL_getmetatable lbind lret lua_newuserdata store_int
       lua_getfield lua_setmetatable push gettable].
  cbn [stack tables udata closures registry basic_mt].
  rewrite lookup_fresh, insert_fresh.
  replace (LUA_REGISTRYINDEX =? LUA_REGISTRYINDEX) with true by reflexivity.
  cbn [ud_metatable stack tables udata closures registry basic_mt].
  destruct (rawget (fields reg) (LString FACTION_METATABLE)) as [| | | | |m| | |];
    destruct (metatable reg) as [rm|]; try reflexivity;
    cbn [stack tables udata closures registry basic_mt].
  all:
    rewrite <- app_assoc; cbn [app];
    rewrite index2adr_below, lookup_fresh;
    rewrite last_snoc2;
    rewrite ?take_snoc2, ?insert_fresh; cbn [ud_int]; try reflexivity.
Qed.

Lemma lua_pushfaction_registered (f : Z) (L : lua_State) (m : nat) :
  registered L = Some m ->
  lua_pushfaction f L =
  Return (PUdata (length (udata L)))
    (mkState (stack L ++ [LUserdata (length (udata L))]) (tables L)
       (udata L ++ [mkUdata (Some f) (Some m)]) (closures L) (registry L) (basic_mt L)).
Proof.
  unfold registered. rewrite lua_pushfaction_eq.
  destruct (rawget (fields (registry L)) (LString FACTION_METATABLE)); try discriminate.
  now intros [= ->].
Qed.

Lemma lua_tofaction_eq (ind : Z) (L : lua_State) :
  lua_tofaction ind L =
  match index2adr L ind with
  | Valid (LUserdata r) => Return (PUdata r) L
  | Valid (LLightUserdata p) => Return (PLight p) L
  | Valid _ | NoValue => Raise L
  | BadIndex => Undefined
  end.
Proof.
  unfold lua_tofaction, lbind, lua_isuserdata, lua_touserdata, luaL_typerror.
  destruct (index2adr L ind) as [[]| |] eqn:E; cbn; rewrite ?E; reflexivity.
Qed.

Lemma registered_gettable (L : lua_State) (m : nat) :
  registered L = Some m ->
  gettable (registry L) (LString FACTION_METATABLE) = Some (LTable m).
Proof.
  unfold registered, gettable.
  destruct (rawget (fields (registry L)) (LString FACTION_METATABLE)); try discriminate.
  now intros [= ->].
Qed.

Lemma lua_isfaction_eq (ind : Z) (L : lua_State) (v : TValue) :
  index2adr L ind = Valid v ->
  gettable (registry L) (LString FACTION_METATABLE) <> None ->
  lua_isfaction ind L = Return (if is_faction L v then 1 else 0) L.
Proof.
  intros Hv Hreg. unfold is_faction, registered.
  unfold lua_isfaction, lbind, lua_getmetatable. rewrite Hv.
  destruct (metatable_of L v) as [mt|]; [|reflexivity].
  replace (1 =? 0) with false by reflexivity.
  unfold lua_getfield. replace (LUA_REGISTRYINDEX =? LUA_REGISTRYINDEX) with true by reflexivity.
  destruct L as [s ts us cl reg bmt]. unfold push.
  cbn [stack tables udata closures registry basic_mt] in *.
  unfold gettable in *.
  destruct (rawget (fields reg) (LString FACTION_METATABLE)) as [| | | | |m| | |];
    destruct (metatable reg) as [rm|]; try congruence;
    rewrite <- app_assoc; cbn [app];
    unfold lua_rawequal; rewrite index2adr_top2, index2adr_below;
    cbn [rawequalObj]; try (rewrite lua_pop_2; reflexivity).
  all: destruct (Nat.eqb m mt); cbn; rewrite lua_pop_2; reflexivity.
Qed.

(** X25: when the registry holds the faction metatable, lua_pushfaction
    returns a pointer to a new userdata that it leaves on the top of the
    stack; lua_tofaction at the top gives that pointer back, the faction
    read through it is the one pushed, and lua_isfaction at the top
    answers 1.  The userdata, tables and registry there were stay as they
    were. *)
Theorem lua_pushfaction_roundtrip (f : Z) (L : lua_State) (m : nat) :
  registered L = Some m ->
  exists (r : nat) (L' : lua_State),
    lua_pushfaction f L = Return (PUdata r) L' /\
    stack L' = stack L ++ [LUserdata r] /\
    lua_tofaction (-1) L' = Return (PUdata r) L' /\
    load_int (PUdata r) L' = Return f L' /\
    lua_isfaction (-1) L' = Return 1 L' /\
    udata L' = udata L ++ [mkUdata (Some f) (Some m)] /\
    tables L' = tables L /\ closures L' = closures L /\ registry L' = registry L.
Proof.
  intros Hm. eexists _, _. split; [apply (lua_pushfaction_registered f L m Hm)|].
  pose proof (registered_gettable L m Hm) as Hg.
  destruct L as [s ts us cl reg bmt].
  cbn [stack tables udata closures registry basic_mt].
  split; [reflexivity|]. split.
  { rewrite lua_tofaction_eq, index2adr_top. reflexivity. }
  split.
  { unfold load_int. cbn [udata]. now rewrite lookup_fresh. }
  split; [|repeat split].
  rewrite (lua_isfaction_eq _ _ _ (index2adr_top _ _ _ _ _ _ _)).
  - unfold is_faction, metatable_of. cbn [udata]. rewrite lookup_fresh.
    cbn [ud_metatable]. unfold registered in *.
    cbn [registry] in *. rewrite Hm. now rewrite Nat.eqb_refl.
  - cbn [registry] in *. now rewrite Hg.
Qed.

(** X26: lua_isfaction leaves the state as it found it and answers 1
    exactly when the value at the index has a metatable and that
    metatable is the table the registry holds under FACTION_METATABLE;
    a value without metatable, or with another one, gives 0. *)
Theorem lua_isfaction_spec (ind : Z) (L : lua_State) (v : TValue) :
  index2adr L ind = Valid v ->
  gettable (registry L) (LString FACTION_METATABLE) <> None ->
  exists z : Z,
    lua_isfaction ind L = Return z L /\
    (z = 1 \/ z = 0) /\
    (z = 1 <-> exists m : nat, metatable_of L v = Some m /\ registered L = Some m).
Proof.
  intros Hv Hreg. rewrite (lua_isfaction_eq ind L v Hv Hreg).
  unfold is_faction.
  destruct (metatable_of L v) as [mt|], (registered L) as [m|].
  - destruct (Nat.eqb_spec m mt) as [->|Hne].
    + exists 1. repeat split; auto. intros _. now exists mt.
    + exists 0. repeat split; auto; try discriminate.
      intros (m' & [= <-] & [= E]). now destruct Hne.
  - exists 0. repeat split; auto; try discriminate. now intros (m' & _ & [=]).
  - exists 0. repeat split; auto; try discriminate. now intros (m' & [=] & _).
  - exists 0. repeat split; auto; try discriminate. now intros (m' & [=] & _).
Qed.

(** ** factionL_createmetatable *)

(** The state factionL_createmetatable leaves when the registry has no
    entry FACTION_METATABLE and no metatable. *)
Lemma factionL_createmetatable_eq (readonly : Z) (L : lua_State) :
  rawget (fields (registry L)) (LString FACTION_METATABLE) = LNil ->
  metatable (registry L) = None ->
  let m := length (tables L) in
  let methods := if negb (readonly =? 0) then faction_methods_cond else faction_methods in
  factionL_createmetatable readonly L =
  Return 0
    (mkState (stack L)
       (tables L ++
        [mkTable (register_fields methods (length (closures L))
                    [(LString "__index", LTable m)]) None])
       (udata L)
       (closures L ++ map (fun e => CClosure (snd e)) methods)
       (mkTable (rawset (fields (registry L)) (LString FACTION_METATABLE) (LTable m)) None)
       (basic_mt L)).
Proof.
  intros Hnil Hmt m methods. destruct L as [s ts us cl reg bmt].
  cbn [stack tables udata closures registry basic_mt] in *. subst m.
  unfold factionL_createmetatable, luaL_newmetatable.
  unfold lbind at 1. unfold lbind at 1. unfold lua_getfield.
  replace (LUA_REGISTRYINDEX =? LUA_REGISTRYINDEX) with true by reflexivity.
  cbn [stack tables udata closures registry basic_mt].
  unfold gettable. rewrite Hnil, Hmt. unfold push.
  cbn [stack tables udata closures registry basic_mt].
  unfold lbind at 1. unfold lua_isnil. rewrite index2adr_top.
  replace (1 =? 0) with false by reflexivity.
  unfold lbind at 1. rewrite lua_pop_1.
  unfold lbind at 1. unfold lua_newtable.
  cbn [stack tables udata closures registry basic_mt].
  unfold lbind at 1. unfold lua_pushvalue. rewrite index2adr_top. unfold push.
  cbn [stack tables udata closures registry basic_mt].
  rewrite <- app_assoc. cbn [app].
  unfold lbind at 1. unfold lua_setfield at 1.
  replace (LUA_REGISTRYINDEX =? LUA_REGISTRYINDEX) with true by reflexivity.
  cbn [stack tables udata closures registry basic_mt].
  rewrite last_snoc2, take_snoc2, (settable_plain reg _ _ Hmt).
  unfold lret at 1.
  unfold lbind at 1. unfold lua_pushvalue. rewrite index2adr_top. unfold push.
  cbn [stack tables udata closures registry basic_mt].
  rewrite <- app_assoc. cbn [app].
  unfold lbind at 1. unfold lua_setfield at 1.
  replace (-2 =? LUA_REGISTRYINDEX) with false by reflexivity.
  cbn [stack tables udata closures registry basic_mt].
  rewrite last_snoc2, take_snoc2, index2adr_below.
  rewrite lookup_fresh.
  rewrite (settable_plain (mkTable [] None) _ _ eq_refl), insert_fresh.
  cbn [fields rawset rawremove app].
  unfold lbind at 1.
  rewrite (luaL_register_NULL_eq methods s _ us cl _ bmt (length ts)
             (mkTable [(LString "__index", LTable (length ts))] None));
    [|apply lookup_fresh|reflexivity].
  rewrite insert_fresh. cbn [fields].
  unfold lbind at 1. rewrite lua_pop_1. reflexivity.
Qed.

(** X27: on a state whose registry has neither an entry FACTION_METATABLE
    nor a metatable, factionL_createmetatable returns 0 and leaves the
    stack as it was; it has made one new table, stored it in the registry
    under FACTION_METATABLE, set its __index to the table itself, and put
    in it exactly the functions of faction_methods, or of
    faction_methods_cond when readonly is not 0 (so that a read only
    state has no modPlayer and no modPlayerRaw). *)
Theorem factionL_createmetatable_fresh (readonly : Z) (L : lua_State) :
  rawget (fields (registry L)) (LString FACTION_METATABLE) = LNil ->
  metatable (registry L) = None ->
  exists (L' : lua_State) (t : Table),
    factionL_createmetatable readonly L = Return 0 L' /\
    stack L' = stack L /\ udata L' = udata L /\
    tables L' = tables L ++ [t] /\
    registered L' = Some (length (tables L)) /\
    (forall k : string, k <> FACTION_METATABLE ->
       rawget (fields (registry L')) (LString k) =
       rawget (fields (registry L)) (LString k)) /\
    metatable t = None /\
    rawget (fields t) (LString "__index") = LTable (length (tables L)) /\
    forall (name : string) (f : lua_CFunction),
      method_of L' t name = Some f <->
      In (name, f) (if negb (readonly =? 0) then faction_methods_cond
                    else faction_methods).
Proof.
  intros Hnil Hmt. eexists _, _.
  split; [apply (factionL_createmetatable_eq readonly L Hnil Hmt)|].
  cbn [stack tables udata closures registry basic_mt fields metatable].
  split; [reflexivity|]. split; [reflexivity|]. split; [reflexivity|].
  split; [unfold registered; cbn [registry fields]; now rewrite rawget_rawset_same|].
  split; [intros k Hk; apply rawget_rawset_other; congruence|].
  split; [reflexivity|].
  unfold method_of. cbn [closures fields].
  destruct (negb (readonly =? 0));
    cbn [faction_methods faction_methods_cond register_fields rawset rawremove
         rawequalObj String.eqb Ascii.eqb Bool.eqb app map snd];
    (split; [reflexivity|]); intros name f; cbn [rawget rawequalObj];
    repeat match goal with
    | |- context [String.eqb ?a name] => destruct (String.eqb_spec a name) as [<-|?]
    end;
    rewrite ?lookup_app_r by lia;
    rewrite ?Nat.sub_succ_l, ?Nat.sub_diag by lia;
    cbn [lookup list_lookup In];
    (split;
     [intros E;
      first [discriminate E
            | injection E as <-; repeat (first [left; reflexivity | right])]|]);
    intros H; unfold faction_methods_cond, faction_methods in H; cbn [In] in H;
    decompose [or] H; first [congruence | contradiction].
Qed.

(** ** The methods *)

(** X29: factionL_playerstanding pushes the standing of the player as a
    number and then its name, but returns 1: the only result Lua takes is
    the name (nil when faction_getStanding gives NULL), and the number
    stays below it.  The userdata at index 1 is read whatever its
    metatable is. *)
Theorem factionL_playerstanding_results (L : lua_State) (r : nat) (f : Z)
    (mt : option nat) :
  stack L !! 0%nat = Some (LUserdata r) ->
  udata L !! r = Some (mkUdata (Some f) mt) ->
  let n := faction_getPlayer f in
  let name := match faction_getStanding n with Some t => LString t | None => LNil end in
  factionL_playerstanding L = Return 1 (push name (push (LNumber (float_of_Z n)) L)) /\
  results 1 (push name (push (LNumber (float_of_Z n)) L)) = [name].
Proof.
  intros H1 Hu n name. split.
  - unfold factionL_playerstanding, lbind.
    rewrite lua_tofaction_eq, index2adr_1, H1.
    unfold load_int. rewrite Hu. reflexivity.
  - destruct L as [s ts us cl reg bmt]. unfold push.
    cbn [stack tables udata closures registry basic_mt]. apply results_1.
Qed.

(** factionL_areenemies and factionL_areallies on a userdata at index 1
    and a value at index 2. *)
Lemma relation_check_eq (L : lua_State) (r : nat) (a : Z) (mt1 : option nat)
    (v : TValue) (m : nat) :
  stack L !! 0%nat = Some (LUserdata r) ->
  udata L !! r = Some (mkUdata (Some a) mt1) ->
  stack L !! 1%nat = Some v ->
  registered L = Some m ->
  let check (func : string) (rel : Z -> Z -> Z) : outcome Z :=
    if is_faction L v then
      match v with
      | LUserdata r2 =>
          match udata L !! r2 with
          | Some (mkUdata (Some b) _) =>
              Return 1 (push (LBoolean (negb (rel a b =? 0))) L)
          | _ => Undefined
          end
      | LLightUserdata _ => Undefined
      | _ => Raise L
      end
    else NLUA_INVALID_PARAMETER func L in
  factionL_areenemies L = check "factionL_areenemies"%string areEnemies /\
  factionL_areallies L = check "factionL_areallies"%string areAllies.
Proof.
  intros H1 Hu H2 Hm check. subst check.
  pose proof (registered_gettable L m Hm) as Hg.
  assert (Hv : index2adr L 2 = Valid v) by now rewrite index2adr_2, H2.
  assert (Hi : lua_isfaction 2 L = Return (if is_faction L v then 1 else 0) L)
    by (apply (lua_isfaction_eq 2 L v Hv); now rewrite Hg).
  unfold factionL_areenemies, factionL_areallies.
  split.
  all: unfold lbind at 1; rewrite lua_tofaction_eq, index2adr_1, H1;
    unfold lbind at 1; rewrite Hi;
    destruct (is_faction L v); [|reflexivity];
    replace (negb (1 =? 0)) with true by reflexivity;
    unfold lbind at 1; rewrite lua_tofaction_eq, Hv;
    destruct v; try reflexivity;
    unfold lbind, load_int; rewrite Hu;
    try match goal with
        | |- context [udata _ !! ?r2] => destruct (udata L !! r2) as [[[b|] ?]|]
        end; reflexivity.
Qed.

(** X28: factionL_areenemies and factionL_areallies read the userdata at
    index 1 whatever its metatable is, and check only the value at index
    2.  When that is not a faction they end in NLUA_INVALID_PARAMETER;
    when it is a faction userdata they push the answer of areEnemies, or
    of areAllies, as a boolean and return 1; and a table that carries the
    faction metatable passes the check and makes lua_tofaction raise. *)
Theorem factionL_relations_check_second (L : lua_State) (r : nat) (a : Z)
    (mt1 : option nat) (v : TValue) (m : nat) :
  stack L !! 0%nat = Some (LUserdata r) ->
  udata L !! r = Some (mkUdata (Some a) mt1) ->
  stack L !! 1%nat = Some v ->
  registered L = Some m ->
  (is_faction L v = false ->
     factionL_areenemies L = NLUA_INVALID_PARAMETER "factionL_areenemies" L /\
     factionL_areallies L = NLUA_INVALID_PARAMETER "factionL_areallies" L) /\
  (forall (r2 : nat) (b : Z),
     v = LUserdata r2 -> udata L !! r2 = Some (mkUdata (Some b) (Some m)) ->
     factionL_areenemies L =
       Return 1 (push (LBoolean (negb (areEnemies a b =? 0))) L) /\
     factionL_areallies L =
       Return 1 (push (LBoolean (negb (areAllies a b =? 0))) L)) /\
  (forall t : nat,
     v = LTable t -> is_faction L v = true ->
     factionL_areenemies L = Raise L /\ factionL_areallies L = Raise L).
Proof.
  intros H1 Hu H2 Hm.
  destruct (relation_check_eq L r a mt1 v m H1 Hu H2 Hm) as [He Ha].
  cbv zeta in He, Ha. rewrite He, Ha. clear He Ha. split; [|split].
  - now intros ->.
  - intros r2 b -> Hb.
    assert (Hf : is_faction L (LUserdata r2) = true).
    { unfold is_faction, metatable_of. rewrite Hb, Hm. cbn. now rewrite Nat.eqb_refl. }
    now rewrite Hf, Hb.
  - now intros t -> ->.
Qed.

(** ** factionL_get *)

(** X30: with the faction metatable registered, factionL_get on a string
    asks faction_get for it: a negative answer returns 0 and pushes
    nothing, another one returns 1 with a new faction userdata of that
    faction on the top.  A number is first replaced, on the stack, by the
    string Lua writes for it, and looked up as that string.  Anything
    else, or no argument, ends in NLUA_INVALID_PARAMETER. *)
Theorem factionL_get_spec (L : lua_State) (m : nat) :
  registered L = Some m ->
  (forall name : string,
     stack L !! 0%nat = Some (LString name) ->
     factionL_get L =
       if faction_get name <? 0 then Return 0 L
       else
         Return 1
           (mkState (stack L ++ [LUserdata (length (udata L))]) (tables L)
              (udata L ++ [mkUdata (Some (faction_get name)) (Some m)])
              (closures L) (registry L) (basic_mt L))) /\
  (forall x : float,
     stack L !! 0%nat = Some (LNumber x) ->
     factionL_get L =
       factionL_get (set_stack (<[0%nat := LString (lua_number2str x)]> (stack L)) L)) /\
  ((forall name : string, stack L !! 0%nat <> Some (LString name)) ->
   (forall x : float, stack L !! 0%nat <> Some (LNumber x)) ->
   factionL_get L = NLUA_INVALID_PARAMETER "factionL_get" L).
Proof.
  intros Hm.
  assert (Hs : forall (L0 : lua_State) (name : string),
             registered L0 = Some m ->
             stack L0 !! 0%nat = Some (LString name) ->
             factionL_get L0 =
               if faction_get name <? 0 then Return 0 L0
               else
                 Return 1
                   (mkState (stack L0 ++ [LUserdata (length (udata L0))]) (tables L0)
                      (udata L0 ++ [mkUdata (Some (faction_get name)) (Some m)])
                      (closures L0) (registry L0) (basic_mt L0))).
  { intros L0 name Hm0 H0. unfold factionL_get.
    unfold lbind at 1. unfold lua_isstring. rewrite index2adr_1, H0.
    replace (negb (1 =? 0)) with true by reflexivity.
    unfold lbind at 1. unfold lua_tostring. rewrite index2adr_1, H0.
    destruct (stack_place L0 1); (destruct (faction_get name <? 0); [reflexivity|]);
      unfold lbind; now rewrite (lua_pushfaction_registered _ L0 m Hm0). }
  split; [intros name H0; now apply Hs|]. split.
  - intros x H0.
    rewrite (Hs (set_stack (<[0%nat := LString (lua_number2str x)]> (stack L)) L)
               (lua_number2str x)).
    + unfold factionL_get.
      unfold lbind at 1. unfold lua_isstring. rewrite index2adr_1, H0.
      replace (negb (1 =? 0)) with true by reflexivity.
      unfold lbind at 1. unfold lua_tostring. rewrite index2adr_1, H0.
      change (stack_place L 1) with (Some 0%nat). cbv iota.
      destruct (faction_get (lua_number2str x) <? 0); [reflexivity|].
      unfold lbind.
      now rewrite (lua_pushfaction_registered _ _ m).
    + exact Hm.
    + cbn [set_stack stack]. apply list_lookup_insert_eq.
      now apply lookup_lt_Some in H0.
  - intros Hns Hnn. unfold factionL_get.
    unfold lbind at 1. unfold lua_isstring. rewrite index2adr_1.
    destruct (stack L !! 0%nat) as [[]|]; try reflexivity.
    + now destruct (Hnn n).
    + now destruct (Hns s).
Qed.

End FactionFacts.

(** * The theorems at concrete documents *)

#[local] Existing Instance sample_world.

(** ** Thrust *)

(** C1 (the code at the failing input): the yacht [doc_drifter] declares
    no thrust and a mass of 1000; it is stored with a thrust of -1000, and
    the validator, which warns about each field it finds at its default,
    writes no warning about the thrust. *)
Theorem unset_thrust_not_flagged :
  no_thrust_declared doc_drifter /\
  ship_parse doc_drifter = Some parsed_drifter /\
  mass (snd (fst parsed_drifter)) = 1000%float /\
  thrust (snd (fst parsed_drifter)) = (-1000)%float /\
  snd parsed_drifter =
    map (missing_warning (snd (fst parsed_drifter)))
      ["base_type"; "GFX"; "GUI"; "fabricator"; "description"; "armour";
       "shield"; "shield_regen"; "energy"; "energy_regen"; "fuel"; "cpu";
       "cap_cargo"]%string.
Proof. repeat split; repeat constructor. Qed.

(** The general theorem at that ship. *)
Lemma ship_parse_unset_thrust_witness :
  ship_parse doc_drifter = Some parsed_drifter /\
  no_thrust_declared doc_drifter /\
  thrust (snd (fst parsed_drifter)) = (-1 * mass (snd (fst parsed_drifter)))%float.
Proof.
  assert (H1 : ship_parse doc_drifter = Some parsed_drifter) by reflexivity.
  assert (H2 : no_thrust_declared doc_drifter) by (repeat constructor).
  split; [exact H1|]. split; [exact H2|].
  exact (proj1 (ship_parse_unset_thrust doc_drifter 0 (snd (fst parsed_drifter))
                  (snd parsed_drifter) H1 H2)).
Defined.

(** ** Slots *)

(** C2, counterexample: [doc_twin] has a block of two structure slots and
    then a block of one.  The second block has one structure element, yet
    the structure array has three entries and the counter is 3; entry 0 is
    the parsed element of the second block and entries 1 and 2 are cleared
    slots that no element was parsed into. *)
Lemma two_slots_blocks_add_up :
  ship_parse doc_twin = Some parsed_twin /\
  elements_named "slots" doc_twin = [slots_twin_first; slots_twin_second] /\
  length (elements_named "structure" slots_twin_second) = 1%nat /\
  length (outfit_structure (snd (fst parsed_twin))) = 3%nat /\
  outfit_nstructure (snd (fst parsed_twin)) = 3 /\
  outfit_structure (snd (fst parsed_twin)) =
    map (parsed_slot (snd (fst parsed_twin)) OUTFIT_SLOT_STRUCTURE)
      (elements_named "structure" slots_twin_second) ++
    [ShipOutfitSlot_zero; ShipOutfitSlot_zero].
Proof. repeat split. Qed.

(** X2 at [doc_twin], with its two blocks: the second block is reached
    with the counters of the first, and its second pass stays inside the
    arrays. *)
Lemma ship_parse_slot_counts_witness :
  ship_parse doc_twin = Some parsed_twin /\
  slots_wf (snd (fst parsed_twin)) /\
  exists t1 : Ship,
    ship_parse_class (xml_children doc_twin) (ship_parse_init doc_twin) = Some t1 /\
    let temp :=
      fst (xml_foreach ship_parse_node [leaf "class" "Yacht"; slots_twin_first] t1) in
    ship_parse_slots_checked temp slots_twin_second =
    Some (ship_parse_slots temp slots_twin_second).
Proof.
  assert (H1 : ship_parse doc_twin = Some parsed_twin) by reflexivity.
  split; [exact H1|].
  destruct (ship_parse_slot_counts doc_twin (fst (fst parsed_twin))
              (snd (fst parsed_twin)) (snd parsed_twin) H1) as (Hwf & t1 & Hc & Hb).
  split; [exact Hwf|]. exists t1. split; [exact Hc|].
  exact (Hb [leaf "class" "Yacht"; slots_twin_first] slots_twin_second [] eq_refl
           eq_refl).
Defined.

(** C2 as amended, at [doc_gunship]: two structure, one utility and three
    weapon slots. *)
Lemma ship_parse_slots_arrays_witness :
  ship_parse doc_gunship = Some parsed_gunship /\
  elements_named "slots" doc_gunship = [slots_gunship] /\
  length (outfit_structure (snd (fst parsed_gunship))) = 2%nat /\
  length (outfit_utility (snd (fst parsed_gunship))) = 1%nat /\
  length (outfit_weapon (snd (fst parsed_gunship))) = 3%nat.
Proof.
  assert (H1 : ship_parse doc_gunship = Some parsed_gunship) by reflexivity.
  assert (H2 : elements_named "slots" doc_gunship = [slots_gunship]) by reflexivity.
  split; [exact H1|]. split; [exact H2|].
  destruct (ship_parse_slots_arrays doc_gunship slots_gunship 0
              (snd (fst parsed_gunship)) (snd parsed_gunship) H1 H2)
    as (_ & _ & _ & _ & _ & _ & Ls & Lu & Lw & _).
  rewrite Ls, Lu, Lw. repeat split.
Defined.

(** C3 at a freighter: a structure slot without [size] is medium. *)
Lemma ship_parseSlot_infers_size_witness :
  xml_nodeProp (elem "structure" [] []) "size" = None /\
  size (slot (snd (fst (ship_parseSlot mule ShipOutfitSlot_zero
                          OUTFIT_SLOT_STRUCTURE (elem "structure" [] []))))) =
  OUTFIT_SLOT_SIZE_MEDIUM.
Proof.
  split; [reflexivity|].
  apply (ship_parseSlot_infers_size mule ShipOutfitSlot_zero OUTFIT_SLOT_STRUCTURE
           (elem "structure" [] []) eq_refl).
  cbn. tauto.
Defined.

(** C5, counterexample: a weapon slot with both tags and no [h] attribute
    records two warnings, not one. *)
Lemma prop_conflict_two_warnings :
  xml_nodeProp slot_both_tags "prop" = Some "turret"%string /\
  xml_nodeProp slot_both_tags "prop_exc" = Some "fixed"%string /\
  snd (ship_parseSlot kestrel ShipOutfitSlot_zero OUTFIT_SLOT_WEAPON slot_both_tags) =
  [mount_warning kestrel "h"; conflict_warning kestrel] /\
  length (snd (ship_parseSlot kestrel ShipOutfitSlot_zero OUTFIT_SLOT_WEAPON
                 slot_both_tags)) = 2%nat.
Proof. repeat split. Qed.

(** C5 as amended, at a structure slot with both tags. *)
Lemma ship_parseSlot_prop_conflict_witness :
  xml_nodeProp slot_both_tags_structure "prop" = Some "hull"%string /\
  xml_nodeProp slot_both_tags_structure "prop_exc" = Some "armour"%string /\
  snd (ship_parseSlot kestrel ShipOutfitSlot_zero OUTFIT_SLOT_STRUCTURE
         slot_both_tags_structure) = [conflict_warning kestrel].
Proof.
  split; [reflexivity|]. split; [reflexivity|].
  apply (ship_parseSlot_prop_conflict kestrel OUTFIT_SLOT_STRUCTURE
           slot_both_tags_structure "hull" "armour" eq_refl eq_refl); reflexivity.
Defined.

(** ** Stats *)

(** C4, counterexample: the [stats] block of [doc_plain] holds no stat the
    registry knows; the empty list is compiled, and no call renders it. *)
Lemma empty_stat_list_not_rendered :
  ship_parse doc_plain = Some parsed_plain /\
  elements_named "stats" doc_plain = [stats_plain] /\
  stats (snd (fst parsed_plain)) = [] /\
  calls (snd parsed_plain) = [CALL_ss_statsModFromList []] /\
  desc_stats (snd (fst parsed_plain)) = None.
Proof. repeat split. Qed.

(** C4 as amended, at the courier, with its two [stats] blocks of one stat
    each: the list is compiled and rendered after each block, first with
    one stat, then with both, the later one first. *)
Lemma ship_parse_stats_every_block_witness :
  ship_parse doc_courier = Some parsed_courier /\
  length (elements_named "stats" doc_courier) = 2%nat /\
  calls (snd parsed_courier) =
    [CALL_ss_statsModFromList [("cargo_mod"%string, 10)];
     CALL_ss_statsListDesc [("cargo_mod"%string, 10)] STATS_DESC_MAX;
     CALL_ss_statsModFromList [("speed_mod"%string, 5); ("cargo_mod"%string, 10)];
     CALL_ss_statsListDesc [("speed_mod"%string, 5); ("cargo_mod"%string, 10)]
       STATS_DESC_MAX] /\
  stats (snd (fst parsed_courier)) =
    [("speed_mod"%string, 5); ("cargo_mod"%string, 10)].
Proof.
  assert (H : ship_parse doc_courier = Some parsed_courier) by reflexivity.
  split; [exact H|]. split; [reflexivity|].
  destruct (ship_parse_stats_every_block doc_courier 0 (snd (fst parsed_courier))
              (snd parsed_courier) H) as (Hcalls & _ & _ & Hst & _).
  split; [rewrite Hcalls; reflexivity | rewrite Hst; reflexivity].
Defined.

(** ** Catalogue *)

(** A root called [Ships] that holds blank text only has no element, let
    alone a ship element, and the load returns 0 with an empty stack. *)
Lemma ships_load_blank_root_not_fatal :
  List.filter xml_isStart (xml_children (elem "Ships" [] [text " "])) = [] /\
  ships_load None catalog_blank =
  Some ((0, Some (mkArray [] 0)),
        [DEBUG "Loaded %d Ship%s" [ArgD 0; ArgS (Some "s"%string)]]).
Proof. split; reflexivity. Qed.

(** C8, failing input: a catalogue with the root [Ships] and three ship
    elements, the second with a [class] element without text.  The first
    loop of ship_parse hands the [NULL] text to ship_classFromString, whose
    [strcmp] reads it: the whole load is undefined, where the two other
    ships alone load.  The [GFX] branch of the same function checks for the
    [NULL] text, warns and goes on. *)
Lemma textless_class_aborts_load :
  xml_name (hd doc_classless catalog_classless) = XML_ID /\
  elements_named XML_SHIP (hd doc_classless catalog_classless) =
    [doc_drifter; doc_classless; doc_twin] /\
  xml_get (elem "class" [] []) = None /\
  ship_parse doc_classless = None /\
  ships_load None catalog_classless = None /\
  ships_load None catalog_sound = Some ((0, Some (fst loaded_sound)), snd loaded_sound) /\
  array_size (fst loaded_sound) = 2 /\
  ship_parse doc_gfxless = Some parsed_gfxless /\
  In (WARN "Ship '%s': GFX element is NULL" [ArgS (Some "Ghost"%string)])
     (snd parsed_gfxless).
Proof.
  split; [reflexivity|]. split; [reflexivity|]. split; [reflexivity|].
  split; [reflexivity|]. split; [reflexivity|]. split; [reflexivity|].
  split; [reflexivity|]. split; [reflexivity|]. cbn. tauto.
Qed.

(** A root without any child is the fatal case. *)
Example ships_load_childless_root_fatal :
  ships_load None catalog_childless =
  Some ((-1, None),
        [ERR "Malformed dat/ship.xml file: does not contain elements" []]).
Proof. reflexivity. Qed.

(** One ship element with a class string that names no class gives one
    entry of the null class, after a warning about the class. *)
Example ships_load_odd_class :
  ships_load None catalog_odd =
  Some ((0, Some (mkArray [snd (fst parsed_odd)] 1)),
        snd parsed_odd ++ [DEBUG "Loaded %d Ship%s" [ArgD 1; ArgS (Some EmptyString)]]) /\
  class (snd (fst parsed_odd)) = SHIP_CLASS_NULL /\
  name (snd (fst parsed_odd)) = Some "Odd"%string /\
  In (missing_warning (snd (fst parsed_odd)) "class") (snd parsed_odd).
Proof.
  split; [reflexivity|]. split; [reflexivity|]. split; [reflexivity|].
  unfold parsed_odd. cbn [snd In]. repeat (first [left; reflexivity | right]).
Qed.

(** ** Display order *)

(** C9 at three ships: the cheap cruiser sorts before the expensive yacht. *)
Lemma ship_compareTech_total_order_witness :
  name kestrel = Some "Kestrel"%string /\
  name gawain = Some "Gawain"%string /\
  name llama = Some "Llama"%string /\
  price kestrel < price gawain /\
  ship_compareTech kestrel gawain = Some (-1).
Proof.
  split; [reflexivity|]. split; [reflexivity|]. split; [reflexivity|].
  split; [reflexivity|].
  destruct (ship_compareTech_total_order kestrel gawain llama
              "Kestrel" "Gawain" "Llama" eq_refl eq_refl eq_refl)
    as (_ & _ & _ & _ & Hclass & _).
  apply Hclass. reflexivity.
Defined.

(** Two yachts: the higher price first; equal keys compare by name. *)
Example ship_compareTech_price_then_name :
  ship_compareTech gawain llama = Some (-1) /\
  ship_compareTech llama gawain = Some 1 /\
  ship_compareTech llama (sample_ship "Lancer" SHIP_CLASS_YACHT 120000) = Some 11.
Proof. repeat split. Qed.

(** ** Mounts and required slots *)

(** C7 at a weapon slot without [y]: [y] stays 0 whatever [x] is. *)
Example weapon_without_y :
  mount (parsed_slot kestrel OUTFIT_SLOT_WEAPON
           (elem "weapon" [("x", "4"); ("h", "1")]%string [])) =
  {| mount_x := 4%float; mount_y := 0%float; mount_h := 1%float |}.
Proof. reflexivity. Qed.

(** C6 at [required="0"]: the slot is required. *)
Example required_by_presence :
  required (parsed_slot kestrel OUTFIT_SLOT_UTILITY
              (elem "utility" [("required", "0")]%string [])) = 1.
Proof. reflexivity. Qed.

(** ** The ship stack at a hangar and at catalogues *)

(** X6 at the hangar: asked for [GAWAIN], ship_existsCase gives the
    spelling of the stack. *)
Lemma ship_existsCase_canonical_witness :
  ship_existsCase hangar "GAWAIN" = Some (Some "Gawain"%string) /\
  strcasecmp "GAWAIN" "Gawain" = 0 /\
  ship_existsCase hangar "Gawain" = Some (Some "Gawain"%string).
Proof.
  assert (H : ship_existsCase hangar "GAWAIN" = Some (Some "Gawain"%string))
    by reflexivity.
  split; [exact H|].
  destruct (ship_existsCase_canonical hangar "GAWAIN" "Gawain" H) as (A & _ & C).
  split; [exact A | exact C].
Defined.

(** X7 at the hangar. *)
Lemma ship_getW_then_existsCase_witness :
  ship_getW hangar "Llama" = Some (Some 2) /\
  exists r, ship_existsCase hangar "Llama" = Some (Some r) /\ strcasecmp "Llama" r = 0.
Proof.
  assert (H : ship_getW hangar "Llama" = Some (Some 2)) by reflexivity.
  split; [exact H|].
  exact (ship_getW_then_existsCase hangar "Llama" 2 H).
Defined.

(** X9 at [catalog_fleet]: the gunship is found at the parse of its
    element. *)
Lemma ships_load_then_get_witness :
  ships_load None catalog_fleet = Some ((0, Some (fst loaded_fleet)), snd loaded_fleet) /\
  Forall (fun n => xml_nodeProp n "name" <> None) [doc_drifter; doc_gunship; doc_twin] /\
  exists i s l,
    ship_get (fst loaded_fleet) "Gunship" = Some (Some i, []) /\
    ship_at (fst loaded_fleet) i = Some s /\
    ship_parse doc_gunship = Some ((0, s), l).
Proof.
  assert (H : ships_load None catalog_fleet =
              Some ((0, Some (fst loaded_fleet)), snd loaded_fleet)) by reflexivity.
  assert (Hn : Forall (fun n => xml_nodeProp n "name" <> None)
                 [doc_drifter; doc_gunship; doc_twin])
    by (repeat constructor; discriminate).
  split; [exact H|]. split; [exact Hn|].
  exact (ships_load_then_get None _ _ _ _ "Gunship" H Hn).
Defined.

(** X8 at [catalog_fleet]: three ships, [Loaded 3 Ships]. *)
Lemma ships_load_reports_count_witness :
  ships_load None catalog_fleet = Some ((0, Some (fst loaded_fleet)), snd loaded_fleet) /\
  exists stack pre,
    Some (fst loaded_fleet) = Some stack /\
    snd (ship_getAll stack) = 3 /\
    snd loaded_fleet = pre ++ [loaded_line (snd (ship_getAll stack))].
Proof.
  assert (H : ships_load None catalog_fleet =
              Some ((0, Some (fst loaded_fleet)), snd loaded_fleet)) by reflexivity.
  split; [exact H|].
  exact (ships_load_reports_count None _ _ _ _ H).
Defined.

(** X10 at [catalog_nameless]: the twin comes after the nameless ship. *)
Lemma ships_load_nameless_ship_witness :
  ships_load None catalog_nameless =
    Some ((0, Some (fst loaded_nameless)), snd loaded_nameless) /\
  xml_nodeProp doc_nameless "name" = None /\
  array_size (fst loaded_nameless) = 3 /\
  ship_get (fst loaded_nameless) "Twin" = None.
Proof.
  assert (H : ships_load None catalog_nameless =
              Some ((0, Some (fst loaded_nameless)), snd loaded_nameless))
    by reflexivity.
  split; [exact H|]. split; [reflexivity|].
  exact (ships_load_nameless_ship None _ _ _ _ [doc_drifter] doc_nameless [doc_twin]
           "Twin" H eq_refl eq_refl eq_refl).
Defined.

(** ** A class name *)

(** X11 at the yacht. *)
Lemma ship_classFromString_exact_witness :
  class gawain = ship_classFromString "Yacht" /\
  class gawain <> SHIP_CLASS_NULL /\
  strcmp "Yacht" (ship_class gawain) = 0.
Proof.
  assert (H1 : class gawain = ship_classFromString "Yacht") by reflexivity.
  assert (H2 : class gawain <> SHIP_CLASS_NULL) by discriminate.
  split; [exact H1|]. split; [exact H2|].
  exact (ship_classFromString_exact "Yacht" gawain H1 H2).
Defined.

(** ** The graphics of the courier *)

(** X17 at the text of the courier's [GFX] element. *)
Lemma gfx_base_prefix_witness :
  cstring "courier_a" /\
  exists rest,
    "courier_a"%string = String.append (gfx_base "courier_a") rest /\
    (rest = EmptyString \/ exists r, rest = String "_" r) /\
    forall c, In c (list_ascii_of_string (gfx_base "courier_a")) -> c <> "_"%char.
Proof.
  assert (H : cstring "courier_a") by (cbn; repeat split; discriminate).
  split; [exact H|]. exact (gfx_base_prefix "courier_a" H).
Defined.

(** X20 at the courier. *)
Lemma ship_parse_graphics_witness :
  ship_parse doc_courier = Some parsed_courier /\
  gfx_comm (snd (fst parsed_courier)) =
    Some "gfx/ship/courier/courier_a_comm.png"%string /\
  ~ In (missing_warning (snd (fst parsed_courier)) "GFX")
      (snd (ship_validate (snd (fst parsed_courier)))).
Proof.
  assert (H : ship_parse doc_courier = Some parsed_courier) by reflexivity.
  split; [exact H|].
  destruct (ship_parse_graphics doc_courier 0 (snd (fst parsed_courier))
              (snd parsed_courier) H) as [Hg Hv].
  split.
  - apply (f_equal (fun x => snd (fst x))) in Hg. exact Hg.
  - intros Hin. apply Hv in Hin. discriminate Hin.
Defined.

(** ** The declared fields of the courier *)

(** X16 at the courier: the second price. *)
Lemma ship_parse_header_fields_witness :
  ship_parse doc_courier = Some parsed_courier /\
  name (snd (fst parsed_courier)) = Some "Courier"%string /\
  class (snd (fst parsed_courier)) = SHIP_CLASS_COURIER /\
  price (snd (fst parsed_courier)) = 60000.
Proof.
  assert (H : ship_parse doc_courier = Some parsed_courier) by reflexivity.
  split; [exact H|].
  destruct (ship_parse_header_fields doc_courier 0 (snd (fst parsed_courier))
              (snd parsed_courier) H) as (Hn & Hc & Hp & _).
  split; [exact Hn|]. split; [exact Hc | exact Hp].
Defined.

(** X13 at the courier: the speed of the second block. *)
Lemma ship_parse_movement_fields_witness :
  ship_parse doc_courier = Some parsed_courier /\
  speed (snd (fst parsed_courier)) = 250%float /\
  thrust (snd (fst parsed_courier)) = 150%float.
Proof.
  assert (H : ship_parse doc_courier = Some parsed_courier) by reflexivity.
  split; [exact H|].
  destruct (ship_parse_movement_fields doc_courier 0 (snd (fst parsed_courier))
              (snd parsed_courier) H) as (Hs & _ & Ht).
  split; [exact Hs | exact Ht].
Defined.

(** X14 at the courier. *)
Lemma ship_parse_health_fields_witness :
  ship_parse doc_courier = Some parsed_courier /\
  dmg_absorb (snd (fst parsed_courier)) = (20 / 100)%float /\
  armour (snd (fst parsed_courier)) = 40%float.
Proof.
  assert (H : ship_parse doc_courier = Some parsed_courier) by reflexivity.
  split; [exact H|].
  destruct (ship_parse_health_fields doc_courier 0 (snd (fst parsed_courier))
              (snd parsed_courier) H) as (Ha & Hb & _).
  split; [exact Ha | exact Hb].
Defined.

(** X15 at the courier. *)
Lemma ship_parse_characteristics_fields_witness :
  ship_parse doc_courier = Some parsed_courier /\
  crew (snd (fst parsed_courier)) = 2 /\
  mass (snd (fst parsed_courier)) = 50%float.
Proof.
  assert (H : ship_parse doc_courier = Some parsed_courier) by reflexivity.
  split; [exact H|].
  destruct (ship_parse_characteristics_fields doc_courier 0 (snd (fst parsed_courier))
              (snd parsed_courier) H) as (Ha & Hb & _).
  split; [exact Ha | exact Hb].
Defined.

(** ** Several blocks *)

(** X21 at [doc_twin]: one parsed slot, then the two cleared entries the
    first block left room for. *)
Lemma ship_parse_slots_blocks_witness :
  ship_parse doc_twin = Some parsed_twin /\
  elements_named "slots" doc_twin = [slots_twin_first] ++ [slots_twin_second] /\
  outfit_structure (snd (fst parsed_twin)) =
    map (parsed_slot (snd (fst parsed_twin)) OUTFIT_SLOT_STRUCTURE)
      (elements_named "structure" slots_twin_second) ++
    replicate 2 ShipOutfitSlot_zero /\
  outfit_nstructure (snd (fst parsed_twin)) = 3.
Proof.
  assert (H1 : ship_parse doc_twin = Some parsed_twin) by reflexivity.
  assert (H2 : elements_named "slots" doc_twin =
               [slots_twin_first] ++ [slots_twin_second]) by reflexivity.
  split; [exact H1|]. split; [exact H2|].
  destruct (ship_parse_slots_blocks doc_twin 0 (snd (fst parsed_twin))
              (snd parsed_twin) [slots_twin_first] slots_twin_second H1 H2)
    as (Hs & _ & _ & Hn & _).
  split; [exact Hs | exact Hn].
Defined.

(** X22 at the courier: two blocks of one stat each. *)
Lemma ship_parse_stats_blocks_witness :
  ship_parse doc_courier = Some parsed_courier /\
  stats (snd (fst parsed_courier)) = [("speed_mod"%string, 5); ("cargo_mod"%string, 10)] /\
  desc_stats (snd (fst parsed_courier)) = Some "speed_mod, cargo_mod"%string.
Proof.
  assert (H : ship_parse doc_courier = Some parsed_courier) by reflexivity.
  split; [exact H|].
  destruct (ship_parse_stats_blocks doc_courier 0 (snd (fst parsed_courier))
              (snd parsed_courier) H) as (Hs & _ & Hd).
  split; [exact Hs|]. rewrite Hd. reflexivity.
Defined.

#[local] Open Scope string_scope.

(** ** The faction bindings at concrete states *)

#[local] Existing Instance sample_factions.

(** X25 at [faction_state]: the pirates pushed on it are a faction. *)
Lemma lua_pushfaction_roundtrip_witness :
  registered faction_state = Some 0%nat /\
  exists (r : nat) (L' : lua_State),
    lua_pushfaction 1 faction_state = Return (PUdata r) L' /\
    load_int (PUdata r) L' = Return 1 L' /\
    lua_isfaction (-1) L' = Return 1 L'.
Proof.
  assert (H : registered faction_state = Some 0%nat) by reflexivity.
  split; [exact H|].
  destruct (lua_pushfaction_roundtrip 1 faction_state 0%nat H)
    as (r & L' & H1 & _ & _ & H4 & H5 & _).
  now exists r, L'.
Defined.

(** X26 at [faction_and_string]: the userdata at index 1 is a faction,
    the string at index 2 is none. *)
Lemma lua_isfaction_spec_witness :
  (index2adr faction_and_string 2 = Valid (LString "Pirate") /\
   gettable (registry faction_and_string) (LString FACTION_METATABLE) <> None) /\
  exists z : Z,
    lua_isfaction 2 faction_and_string = Return z faction_and_string /\
    (z = 1 \/ z = 0) /\
    (z = 1 <->
     exists m : nat,
       metatable_of faction_and_string (LString "Pirate") = Some m /\
       registered faction_and_string = Some m).
Proof.
  assert (H1 : index2adr faction_and_string 2 = Valid (LString "Pirate"))
    by reflexivity.
  assert (H2 : gettable (registry faction_and_string) (LString FACTION_METATABLE)
               <> None) by discriminate.
  split; [now split|].
  exact (lua_isfaction_spec 2 faction_and_string (LString "Pirate") H1 H2).
Defined.

(** X27 at [empty_state], read only: no modPlayer, and playerStanding is
    factionL_playerstanding. *)
Lemma factionL_createmetatable_fresh_witness :
  (rawget (fields (registry empty_state)) (LString FACTION_METATABLE) = LNil /\
   metatable (registry empty_state) = None) /\
  exists (L' : lua_State) (t : Table),
    factionL_createmetatable 1 empty_state = Return 0 L' /\
    tables L' = [t] /\
    method_of L' t "playerStanding" = Some "factionL_playerstanding" /\
    method_of L' t "modPlayer" = None.
Proof.
  assert (H1 : rawget (fields (registry empty_state)) (LString FACTION_METATABLE)
               = LNil) by reflexivity.
  assert (H2 : metatable (registry empty_state) = None) by reflexivity.
  split; [now split|].
  destruct (factionL_createmetatable_fresh 1 empty_state H1 H2)
    as (L' & t & E & _ & _ & Ht & _ & _ & _ & _ & Hm).
  exists L', t. repeat split; [exact E|exact Ht| |].
  - apply Hm. cbn. tauto.
  - destruct (method_of L' t "modPlayer") as [f|] eqn:Ef; [|reflexivity].
    apply Hm in Ef. cbn in Ef. decompose [or] Ef; first [congruence|contradiction].
Defined.

(** X28 at [two_factions]: the empire and the pirates are enemies and
    no allies; and at [faction_and_table], where the second argument is
    a table that carries the faction metatable. *)
Lemma factionL_relations_check_second_witness :
  (stack two_factions !! 0%nat = Some (LUserdata 0) /\
   udata two_factions !! 0%nat = Some (mkUdata (Some 0) (Some 0%nat)) /\
   stack two_factions !! 1%nat = Some (LUserdata 1) /\
   registered two_factions = Some 0%nat) /\
  (factionL_areenemies two_factions = Return 1 (push (LBoolean true) two_factions) /\
   factionL_areallies two_factions = Return 1 (push (LBoolean false) two_factions)) /\
  (stack faction_and_table !! 1%nat = Some (LTable 1) /\
   is_faction faction_and_table (LTable 1) = true /\
   factionL_areenemies faction_and_table = Raise faction_and_table).
Proof.
  assert (H1 : stack two_factions !! 0%nat = Some (LUserdata 0)) by reflexivity.
  assert (H2 : udata two_factions !! 0%nat = Some (mkUdata (Some 0) (Some 0%nat)))
    by reflexivity.
  assert (H3 : stack two_factions !! 1%nat = Some (LUserdata 1)) by reflexivity.
  assert (H4 : registered two_factions = Some 0%nat) by reflexivity.
  split; [now repeat split|]. split.
  - exact (proj1 (proj2 (factionL_relations_check_second two_factions 0 0 (Some 0%nat)
                           (LUserdata 1) 0 H1 H2 H3 H4))
             1%nat 1 eq_refl eq_refl).
  - split; [reflexivity|]. split; [reflexivity|].
    exact (proj1 (proj2 (proj2 (factionL_relations_check_second faction_and_table 0 0
                                  (Some 0%nat) (LTable 1) 0 eq_refl eq_refl eq_refl
                                  eq_refl))
                    1%nat eq_refl eq_refl)).
Defined.

(** X29 at [two_factions]: the standing with the empire. *)
Lemma factionL_playerstanding_results_witness :
  (stack two_factions !! 0%nat = Some (LUserdata 0) /\
   udata two_factions !! 0%nat = Some (mkUdata (Some 0) (Some 0%nat))) /\
  factionL_playerstanding two_factions =
    Return 1 (push (LString "Friendly") (push (LNumber 50) two_factions)) /\
  results 1 (push (LString "Friendly") (push (LNumber 50) two_factions)) =
    [LString "Friendly"].
Proof.
  assert (H1 : stack two_factions !! 0%nat = Some (LUserdata 0)) by reflexivity.
  assert (H2 : udata two_factions !! 0%nat = Some (mkUdata (Some 0) (Some 0%nat)))
    by reflexivity.
  split; [now split|].
  exact (factionL_playerstanding_results two_factions 0 0 (Some 0%nat) H1 H2).
Defined.

(** X30 at [name_pushed]: the pirates are found, the rebels are not. *)
Lemma factionL_get_spec_witness :
  registered faction_state = Some 0%nat /\
  factionL_get (name_pushed "Rebels") = Return 0 (name_pushed "Rebels") /\
  exists L' : lua_State,
    factionL_get (name_pushed "Pirate") = Return 1 L' /\
    results 1 L' = [LUserdata 0] /\
    udata L' = [mkUdata (Some 1) (Some 0%nat)].
Proof.
  assert (H : registered faction_state = Some 0%nat) by reflexivity.
  split; [exact H|]. split.
  - exact (proj1 (factionL_get_spec (name_pushed "Rebels") 0%nat H) "Rebels" eq_refl).
  - eexists. split.
    + exact (proj1 (factionL_get_spec (name_pushed "Pirate") 0%nat H) "Pirate" eq_refl).
    + split; reflexivity.
Defined.

#[local] Close Scope string_scope.
